(** * Verification of the WebSocket events channel of hlmr-sdk-js

    Shallow embedding of [src/modules/events.ts] (class [EventsModule],
    the in-band authentication variant) together with the parts of the
    browser it talks to: WebSocket objects with their [readyState],
    [setTimeout]/[setInterval] handles, Promises and the event loop that
    delivers socket events and timer firings one task at a time.

    Conventions of the embedding.
    - JavaScript numbers that hold counts and milliseconds are integers
      ([Z] for configuration values, [nat] for the attempt counter, which
      starts at 0 and is only ever incremented or reset).
    - A JavaScript [Map] is an insertion-ordered association list without
      duplicate keys ([JsMap]); a [Set] is a duplicate-free list.
    - Methods are computations in the monad [M]: they read and write the
      state, append to a trace of observable effects (frames sent, sockets
      closed, timers armed, listeners invoked) and may throw.
    - Every task of the event loop is one [Event]; [step] runs its handler
      and then the micro-tasks it unblocked (the continuation of
      [_resubscribeAll]).
    - Output on the console guarded by [config.debug] is not part of the
      trace; the unconditional [console.error] of [_emit] is.
    - The URL handed to the WebSocket constructor is taken to be well
      formed, so the constructor does not throw.
    - Timer handles are the positive integers a browser hands out, so a
      stored handle is truthy in tests such as [if (this.pingIntervalId)].
    - [WebSocket.close] checks its arguments the way the platform does: a
      close code must be 1000 or lie in 3000..4999, and a reason may take
      at most 123 bytes; otherwise the call throws and closes nothing.
    - Listeners are opaque callbacks which either return or throw; they do
      not call back into the module.

    The second part of the file embeds the HTTP side of the client: the
    JSend helpers ([utils/jsend.ts]), [HlmrApiError], the pure methods of
    [HttpClient] and the configuration built by [HlmrClient], over a
    small model of JavaScript values (modules [Js], [Errors], [JSend],
    [HttpClient], [HlmrClient]). *)

From Stdlib Require Import ZArith List String Ascii Bool Lia.
From stdpp Require Import base option list gmap strings.

Local Open Scope Z_scope.
Local Open Scope nat_scope.
Local Open Scope string_scope.
Local Open Scope list_scope.

(** ** JavaScript [Map] as an insertion-ordered association list *)

Definition JsMap (K V : Type) : Type := list (K * V).

Section JsMapOps.
Context {K V : Type} `{EqDecision K}.

Fixpoint jm_get (k : K) (m : JsMap K V) : option V :=
  match m with
  | [] => None
  | (k', v) :: m' => if decide (k' = k) then Some v else jm_get k m'
  end.

Definition jm_has (k : K) (m : JsMap K V) : bool :=
  match jm_get k m with Some _ => true | None => false end.

(** [Map.prototype.set]: an existing key keeps its position. *)
Fixpoint jm_set (k : K) (v : V) (m : JsMap K V) : JsMap K V :=
  match m with
  | [] => [(k, v)]
  | (k', v') :: m' =>
      if decide (k' = k) then (k, v) :: m' else (k', v') :: jm_set k v m'
  end.

Fixpoint jm_delete (k : K) (m : JsMap K V) : JsMap K V :=
  match m with
  | [] => []
  | (k', v') :: m' =>
      if decide (k' = k) then jm_delete k m' else (k', v') :: jm_delete k m'
  end.

Definition jm_clear (m : JsMap K V) : JsMap K V := [].

Definition jm_values (m : JsMap K V) : list V := map snd m.

Definition jm_size (m : JsMap K V) : nat := length m.
End JsMapOps.

(** ** Data of the protocol ([src/types/events.ts]) *)

Record SubscriptionFilters : Type := mkFilters {
  chat_ids : option (list string);
  trip_ids : option (list string);
  user_ids : option (list string);
  events : option (list string)
}.

(** The object literal [{}] used for absent filters. *)
Definition no_filters : SubscriptionFilters :=
  {| chat_ids := None; trip_ids := None; user_ids := None; events := None |}.

Record SubscriptionOptions : Type := mkOptions {
  filters : option SubscriptionFilters;
  include_data : option bool
}.

Record Subscription : Type := mkSubscription {
  sub_id : string;
  sub_domain : string;
  sub_resource : string;
  sub_filters : SubscriptionFilters
}.

(** The value type of the durable table:
    [{ domain, resource, options? }]. *)
Record SubscriptionData : Type := mkSubData {
  domain : string;
  resource : string;
  options : option SubscriptionOptions
}.

(** Inbound frames, after [JSON.parse]. *)
Inductive WebSocketMessage : Type :=
| MConnected (user_id message : string) (system_subscriptions : list string)
| MAuthError (error : option string)
| MSubscriptionConfirmed (subscription_id domain resource : string)
                         (filters : SubscriptionFilters)
| MUnsubscribed (subscription_id : string)
| MNotification (subscription_id domain resource event resource_id timestamp : string)
| MSystemNotification (event resource : string)
| MPong
| MError (message : string) (code : Z)
| MUnknown (type : string).

Inductive TypingKind : Type := started | stopped.

(** Outbound frames, before [JSON.stringify]. *)
Inductive OutFrame : Type :=
| FAuth (token : string)
| FSubscribe (subscription_id domain resource : string)
             (filters : SubscriptionFilters) (include_data : bool)
| FUnsubscribe (subscription_id : string)
| FPing
| FTypingEvent (chat_id : string) (event : TypingKind).

(** [new Error(msg)] *)
Definition Error : Type := string.

Inductive EventName : Type :=
| E_connect | E_disconnect | E_notification | E_system_notification
| E_error | E_subscription_confirmed | E_reconnecting.

#[global] Instance EventName_eq_dec : EqDecision EventName.
Proof. solve_decision. Defined.

(** Arguments handed to listeners. *)
Inductive Payload : Type :=
| PMessage (m : WebSocketMessage)
| PError (e : Error)
| PReason (r : string)
| PAttempt (n : nat).

(** A listener: a function object (identified by [cb_id]) whose call
    either returns ([None]) or throws ([Some err]). *)
Record Callback : Type := mkCallback {
  cb_id : nat;
  cb_run : EventName -> Payload -> option Error
}.

Record Config : Type := mkConfig {
  pingInterval : Z;
  autoReconnect : bool;
  maxReconnectAttempts : Z;
  reconnectDelay : Z;
  maxReconnectDelay : Z;
  debug : bool
}.

Definition DEFAULT_CONFIG : Config :=
  {| pingInterval := 30000; autoReconnect := true; maxReconnectAttempts := 5;
     reconnectDelay := 1000; maxReconnectDelay := 30000; debug := false |}.

(** [Partial<EventsModuleConfig>] *)
Record PartialConfig : Type := mkPartial {
  o_pingInterval : option Z;
  o_autoReconnect : option bool;
  o_maxReconnectAttempts : option Z;
  o_reconnectDelay : option Z;
  o_maxReconnectDelay : option Z;
  o_debug : option bool
}.

(** [{ ...base, ...over }] *)
Definition spread_config (base : Config) (over : PartialConfig) : Config :=
  {| pingInterval := default (pingInterval base) (o_pingInterval over);
     autoReconnect := default (autoReconnect base) (o_autoReconnect over);
     maxReconnectAttempts :=
       default (maxReconnectAttempts base) (o_maxReconnectAttempts over);
     reconnectDelay := default (reconnectDelay base) (o_reconnectDelay over);
     maxReconnectDelay :=
       default (maxReconnectDelay base) (o_maxReconnectDelay over);
     debug := default (debug base) (o_debug over) |}.

(** ** The browser side: sockets, timers, promises *)

Inductive ReadyState : Type := CONNECTING | OPEN | CLOSING | CLOSED.

#[global] Instance ReadyState_eq_dec : EqDecision ReadyState.
Proof. solve_decision. Defined.

(** What the callbacks [onopen], [onerror] and [onclose] of one socket
    close over: the [resolve]/[reject] pair of the promise built by the
    [_connect] call that created the socket, and its [connectionTimeout]. *)
Record Socket : Type := mkSocket {
  readyState : ReadyState;
  sk_promise : nat;
  sk_timeout : nat
}.

(** What a pending timer will run. *)
Inductive TimerKind : Type :=
| TConnection (p : nat)               (* connectionTimeout of _connect *)
| TSubscription (id : string) (p : nat) (* confirmation timeout of subscribe *)
| TReconnect                           (* the retry armed by _scheduleReconnect *)
| TPing.                               (* the keep-alive interval *)

Inductive Value : Type :=
| VConnected (m : WebSocketMessage)
| VSubscription (sub : Subscription)
| VVoid.

Inductive PromiseState : Type :=
| Pending
| Fulfilled (v : Value)
| Rejected (e : Error).

Definition settled (st : PromiseState) : bool :=
  match st with Pending => false | _ => true end.

(** An entry of [pendingSubscriptions]. Its [resolve] records
    [p_data] in the durable table and fulfils promise [p_promise]; its
    [reject] rejects [p_promise]. *)
Record PendingSubscription : Type := mkPending {
  p_promise : nat;
  p_data : SubscriptionData
}.

(** A suspended [_resubscribeAll]: the promise its [await] waits on and
    the entries of [subscriptionsToRestore] not yet visited. *)
Record Replay : Type := mkReplay {
  rp_awaiting : nat;
  rp_rest : list (string * SubscriptionData)
}.

(** Observable effects, in order of occurrence. *)
Inductive Effect : Type :=
| WsNew (k : nat) (url : string)
| WsSend (k : nat) (f : OutFrame)
| WsClose (k : nat) (code : option Z) (reason : option string)
| SetTimeout (h : nat) (t : TimerKind) (delay : Z)
| SetInterval (h : nat) (delay : Z)
| ClearTimer (h : nat)
| Invoke (cb : nat) (ev : EventName) (p : Payload)
| ConsoleError (ev : EventName) (err : Error)
| Uncaught (err : Error).

(** ** State: the fields of [EventsModule], then the browser *)

Record State : Type := mkState {
  config : Config;
  ws : option nat;
  pingIntervalId : option nat;
  reconnectAttempts : nat;
  reconnectTimeoutId : option nat;
  isConnecting : bool;
  isManualDisconnect : bool;
  subscriptions : JsMap string SubscriptionData;
  pendingSubscriptions : JsMap string PendingSubscription;
  listeners : JsMap EventName (list Callback);
  userId : option string;
  bearerToken : option string;
  authResolve : option nat;
  authReject : option nat;
  baseUrl : string;
  sockets : list Socket;
  timers : gmap nat TimerKind;
  nextTimer : nat;
  promises : list PromiseState;
  randomCalls : nat;
  Math_random16 : nat -> Z;
  replays : list Replay
}.

Definition set_config (v : Config) (s : State) : State :=
  {| config := v; ws := ws s; pingIntervalId := pingIntervalId s; reconnectAttempts := reconnectAttempts s; reconnectTimeoutId := reconnectTimeoutId s; isConnecting := isConnecting s; isManualDisconnect := isManualDisconnect s; subscriptions := subscriptions s; pendingSubscriptions := pendingSubscriptions s; listeners := listeners s; userId := userId s; bearerToken := bearerToken s; authResolve := authResolve s; authReject := authReject s; baseUrl := baseUrl s; sockets := sockets s; timers := timers s; nextTimer := nextTimer s; promises := promises s; randomCalls := randomCalls s; Math_random16 := Math_random16 s; replays := replays s |}.
Definition set_ws (v : option nat) (s : State) : State :=
  {| config := config s; ws := v; pingIntervalId := pingIntervalId s; reconnectAttempts := reconnectAttempts s; reconnectTimeoutId := reconnectTimeoutId s; isConnecting := isConnecting s; isManualDisconnect := isManualDisconnect s; subscriptions := subscriptions s; pendingSubscriptions := pendingSubscriptions s; listeners := listeners s; userId := userId s; bearerToken := bearerToken s; authResolve := authResolve s; authReject := authReject s; baseUrl := baseUrl s; sockets := sockets s; timers := timers s; nextTimer := nextTimer s; promises := promises s; randomCalls := randomCalls s; Math_random16 := Math_random16 s; replays := replays s |}.
Definition set_pingIntervalId (v : option nat) (s : State) : State :=
  {| config := config s; ws := ws s; pingIntervalId := v; reconnectAttempts := reconnectAttempts s; reconnectTimeoutId := reconnectTimeoutId s; isConnecting := isConnecting s; isManualDisconnect := isManualDisconnect s; subscriptions := subscriptions s; pendingSubscriptions := pendingSubscriptions s; listeners := listeners s; userId := userId s; bearerToken := bearerToken s; authResolve := authResolve s; authReject := authReject s; baseUrl := baseUrl s; sockets := sockets s; timers := timers s; nextTimer := nextTimer s; promises := promises s; randomCalls := randomCalls s; Math_random16 := Math_random16 s; replays := replays s |}.
Definition set_reconnectAttempts (v : nat) (s : State) : State :=
  {| config := config s; ws := ws s; pingIntervalId := pingIntervalId s; reconnectAttempts := v; reconnectTimeoutId := reconnectTimeoutId s; isConnecting := isConnecting s; isManualDisconnect := isManualDisconnect s; subscriptions := subscriptions s; pendingSubscriptions := pendingSubscriptions s; listeners := listeners s; userId := userId s; bearerToken := bearerToken s; authResolve := authResolve s; authReject := authReject s; baseUrl := baseUrl s; sockets := sockets s; timers := timers s; nextTimer := nextTimer s; promises := promises s; randomCalls := randomCalls s; Math_random16 := Math_random16 s; replays := replays s |}.
Definition set_reconnectTimeoutId (v : option nat) (s : State) : State :=
  {| config := config s; ws := ws s; pingIntervalId := pingIntervalId s; reconnectAttempts := reconnectAttempts s; reconnectTimeoutId := v; isConnecting := isConnecting s; isManualDisconnect := isManualDisconnect s; subscriptions := subscriptions s; pendingSubscriptions := pendingSubscriptions s; listeners := listeners s; userId := userId s; bearerToken := bearerToken s; authResolve := authResolve s; authReject := authReject s; baseUrl := baseUrl s; sockets := sockets s; timers := timers s; nextTimer := nextTimer s; promises := promises s; randomCalls := randomCalls s; Math_random16 := Math_random16 s; replays := replays s |}.
Definition set_isConnecting (v : bool) (s : State) : State :=
  {| config := config s; ws := ws s; pingIntervalId := pingIntervalId s; reconnectAttempts := reconnectAttempts s; reconnectTimeoutId := reconnectTimeoutId s; isConnecting := v; isManualDisconnect := isManualDisconnect s; subscriptions := subscriptions s; pendingSubscriptions := pendingSubscriptions s; listeners := listeners s; userId := userId s; bearerToken := bearerToken s; authResolve := authResolve s; authReject := authReject s; baseUrl := baseUrl s; sockets := sockets s; timers := timers s; nextTimer := nextTimer s; promises := promises s; randomCalls := randomCalls s; Math_random16 := Math_random16 s; replays := replays s |}.
Definition set_isManualDisconnect (v : bool) (s : State) : State :=
  {| config := config s; ws := ws s; pingIntervalId := pingIntervalId s; reconnectAttempts := reconnectAttempts s; reconnectTimeoutId := reconnectTimeoutId s; isConnecting := isConnecting s; isManualDisconnect := v; subscriptions := subscriptions s; pendingSubscriptions := pendingSubscriptions s; listeners := listeners s; userId := userId s; bearerToken := bearerToken s; authResolve := authResolve s; authReject := authReject s; baseUrl := baseUrl s; sockets := sockets s; timers := timers s; nextTimer := nextTimer s; promises := promises s; randomCalls := randomCalls s; Math_random16 := Math_random16 s; replays := replays s |}.
Definition set_subscriptions (v : JsMap string SubscriptionData) (s : State) : State :=
  {| config := config s; ws := ws s; pingIntervalId := pingIntervalId s; reconnectAttempts := reconnectAttempts s; reconnectTimeoutId := reconnectTimeoutId s; isConnecting := isConnecting s; isManualDisconnect := isManualDisconnect s; subscriptions := v; pendingSubscriptions := pendingSubscriptions s; listeners := listeners s; userId := userId s; bearerToken := bearerToken s; authResolve := authResolve s; authReject := authReject s; baseUrl := baseUrl s; sockets := sockets s; timers := timers s; nextTimer := nextTimer s; promises := promises s; randomCalls := randomCalls s; Math_random16 := Math_random16 s; replays := replays s |}.
Definition set_pendingSubscriptions (v : JsMap string PendingSubscription) (s : State) : State :=
  {| config := config s; ws := ws s; pingIntervalId := pingIntervalId s; reconnectAttempts := reconnectAttempts s; reconnectTimeoutId := reconnectTimeoutId s; isConnecting := isConnecting s; isManualDisconnect := isManualDisconnect s; subscriptions := subscriptions s; pendingSubscriptions := v; listeners := listeners s; userId := userId s; bearerToken := bearerToken s; authResolve := authResolve s; authReject := authReject s; baseUrl := baseUrl s; sockets := sockets s; timers := timers s; nextTimer := nextTimer s; promises := promises s; randomCalls := randomCalls s; Math_random16 := Math_random16 s; replays := replays s |}.
Definition set_listeners (v : JsMap EventName (list Callback)) (s : State) : State :=
  {| config := config s; ws := ws s; pingIntervalId := pingIntervalId s; reconnectAttempts := reconnectAttempts s; reconnectTimeoutId := reconnectTimeoutId s; isConnecting := isConnecting s; isManualDisconnect := isManualDisconnect s; subscriptions := subscriptions s; pendingSubscriptions := pendingSubscriptions s; listeners := v; userId := userId s; bearerToken := bearerToken s; authResolve := authResolve s; authReject := authReject s; baseUrl := baseUrl s; sockets := sockets s; timers := timers s; nextTimer := nextTimer s; promises := promises s; randomCalls := randomCalls s; Math_random16 := Math_random16 s; replays := replays s |}.
Definition set_userId (v : option string) (s : State) : State :=
  {| config := config s; ws := ws s; pingIntervalId := pingIntervalId s; reconnectAttempts := reconnectAttempts s; reconnectTimeoutId := reconnectTimeoutId s; isConnecting := isConnecting s; isManualDisconnect := isManualDisconnect s; subscriptions := subscriptions s; pendingSubscriptions := pendingSubscriptions s; listeners := listeners s; userId := v; bearerToken := bearerToken s; authResolve := authResolve s; authReject := authReject s; baseUrl := baseUrl s; sockets := sockets s; timers := timers s; nextTimer := nextTimer s; promises := promises s; randomCalls := randomCalls s; Math_random16 := Math_random16 s; replays := replays s |}.
Definition set_bearerToken (v : option string) (s : State) : State :=
  {| config := config s; ws := ws s; pingIntervalId := pingIntervalId s; reconnectAttempts := reconnectAttempts s; reconnectTimeoutId := reconnectTimeoutId s; isConnecting := isConnecting s; isManualDisconnect := isManualDisconnect s; subscriptions := subscriptions s; pendingSubscriptions := pendingSubscriptions s; listeners := listeners s; userId := userId s; bearerToken := v; authResolve := authResolve s; authReject := authReject s; baseUrl := baseUrl s; sockets := sockets s; timers := timers s; nextTimer := nextTimer s; promises := promises s; randomCalls := randomCalls s; Math_random16 := Math_random16 s; replays := replays s |}.
Definition set_authResolve (v : option nat) (s : State) : State :=
  {| config := config s; ws := ws s; pingIntervalId := pingIntervalId s; reconnectAttempts := reconnectAttempts s; reconnectTimeoutId := reconnectTimeoutId s; isConnecting := isConnecting s; isManualDisconnect := isManualDisconnect s; subscriptions := subscriptions s; pendingSubscriptions := pendingSubscriptions s; listeners := listeners s; userId := userId s; bearerToken := bearerToken s; authResolve := v; authReject := authReject s; baseUrl := baseUrl s; sockets := sockets s; timers := timers s; nextTimer := nextTimer s; promises := promises s; randomCalls := randomCalls s; Math_random16 := Math_random16 s; replays := replays s |}.
Definition set_authReject (v : option nat) (s : State) : State :=
  {| config := config s; ws := ws s; pingIntervalId := pingIntervalId s; reconnectAttempts := reconnectAttempts s; reconnectTimeoutId := reconnectTimeoutId s; isConnecting := isConnecting s; isManualDisconnect := isManualDisconnect s; subscriptions := subscriptions s; pendingSubscriptions := pendingSubscriptions s; listeners := listeners s; userId := userId s; bearerToken := bearerToken s; authResolve := authResolve s; authReject := v; baseUrl := baseUrl s; sockets := sockets s; timers := timers s; nextTimer := nextTimer s; promises := promises s; randomCalls := randomCalls s; Math_random16 := Math_random16 s; replays := replays s |}.
Definition set_sockets (v : list Socket) (s : State) : State :=
  {| config := config s; ws := ws s; pingIntervalId := pingIntervalId s; reconnectAttempts := reconnectAttempts s; reconnectTimeoutId := reconnectTimeoutId s; isConnecting := isConnecting s; isManualDisconnect := isManualDisconnect s; subscriptions := subscriptions s; pendingSubscriptions := pendingSubscriptions s; listeners := listeners s; userId := userId s; bearerToken := bearerToken s; authResolve := authResolve s; authReject := authReject s; baseUrl := baseUrl s; sockets := v; timers := timers s; nextTimer := nextTimer s; promises := promises s; randomCalls := randomCalls s; Math_random16 := Math_random16 s; replays := replays s |}.
Definition set_timers (v : gmap nat TimerKind) (s : State) : State :=
  {| config := config s; ws := ws s; pingIntervalId := pingIntervalId s; reconnectAttempts := reconnectAttempts s; reconnectTimeoutId := reconnectTimeoutId s; isConnecting := isConnecting s; isManualDisconnect := isManualDisconnect s; subscriptions := subscriptions s; pendingSubscriptions := pendingSubscriptions s; listeners := listeners s; userId := userId s; bearerToken := bearerToken s; authResolve := authResolve s; authReject := authReject s; baseUrl := baseUrl s; sockets := sockets s; timers := v; nextTimer := nextTimer s; promises := promises s; randomCalls := randomCalls s; Math_random16 := Math_random16 s; replays := replays s |}.
Definition set_nextTimer (v : nat) (s : State) : State :=
  {| config := config s; ws := ws s; pingIntervalId := pingIntervalId s; reconnectAttempts := reconnectAttempts s; reconnectTimeoutId := reconnectTimeoutId s; isConnecting := isConnecting s; isManualDisconnect := isManualDisconnect s; subscriptions := subscriptions s; pendingSubscriptions := pendingSubscriptions s; listeners := listeners s; userId := userId s; bearerToken := bearerToken s; authResolve := authResolve s; authReject := authReject s; baseUrl := baseUrl s; sockets := sockets s; timers := timers s; nextTimer := v; promises := promises s; randomCalls := randomCalls s; Math_random16 := Math_random16 s; replays := replays s |}.
Definition set_promises (v : list PromiseState) (s : State) : State :=
  {| config := config s; ws := ws s; pingIntervalId := pingIntervalId s; reconnectAttempts := reconnectAttempts s; reconnectTimeoutId := reconnectTimeoutId s; isConnecting := isConnecting s; isManualDisconnect := isManualDisconnect s; subscriptions := subscriptions s; pendingSubscriptions := pendingSubscriptions s; listeners := listeners s; userId := userId s; bearerToken := bearerToken s; authResolve := authResolve s; authReject := authReject s; baseUrl := baseUrl s; sockets := sockets s; timers := timers s; nextTimer := nextTimer s; promises := v; randomCalls := randomCalls s; Math_random16 := Math_random16 s; replays := replays s |}.
Definition set_randomCalls (v : nat) (s : State) : State :=
  {| config := config s; ws := ws s; pingIntervalId := pingIntervalId s; reconnectAttempts := reconnectAttempts s; reconnectTimeoutId := reconnectTimeoutId s; isConnecting := isConnecting s; isManualDisconnect := isManualDisconnect s; subscriptions := subscriptions s; pendingSubscriptions := pendingSubscriptions s; listeners := listeners s; userId := userId s; bearerToken := bearerToken s; authResolve := authResolve s; authReject := authReject s; baseUrl := baseUrl s; sockets := sockets s; timers := timers s; nextTimer := nextTimer s; promises := promises s; randomCalls := v; Math_random16 := Math_random16 s; replays := replays s |}.
Definition set_replays (v : list Replay) (s : State) : State :=
  {| config := config s; ws := ws s; pingIntervalId := pingIntervalId s; reconnectAttempts := reconnectAttempts s; reconnectTimeoutId := reconnectTimeoutId s; isConnecting := isConnecting s; isManualDisconnect := isManualDisconnect s; subscriptions := subscriptions s; pendingSubscriptions := pendingSubscriptions s; listeners := listeners s; userId := userId s; bearerToken := bearerToken s; authResolve := authResolve s; authReject := authReject s; baseUrl := baseUrl s; sockets := sockets s; timers := timers s; nextTimer := nextTimer s; promises := promises s; randomCalls := randomCalls s; Math_random16 := Math_random16 s; replays := v |}.

(** ** The monad of methods: state, trace of effects, exceptions *)

Inductive Result (A : Type) : Type :=
| Ok (a : A)
| Throw (e : Error).
Arguments Ok {A} a.
Arguments Throw {A} e.

Definition M (A : Type) : Type := State -> Result A * State * list Effect.

#[global] Instance M_ret : MRet M := fun A a s => (Ok a, s, []).

#[global] Instance M_bind : MBind M := fun A B f m s =>
  match m s with
  | (Ok a, s1, es1) =>
      match f a s1 with
      | (r, s2, es2) => (r, s2, es1 ++ es2)
      end
  | (Throw e, s1, es1) => (Throw e, s1, es1)
  end.

Definition get : M State := fun s => (Ok s, s, []).
Definition modify (f : State -> State) : M unit := fun s => (Ok tt, f s, []).
Definition tell (es : list Effect) : M unit := fun s => (Ok tt, s, es).
Definition throw {A : Type} (e : Error) : M A := fun s => (Throw e, s, []).

(** [try { body } catch (err) { handler err }] *)
Definition try_catch {A : Type} (body : M A) (handler : Error -> M A) : M A :=
  fun s =>
    match body s with
    | (Ok a, s1, es1) => (Ok a, s1, es1)
    | (Throw e, s1, es1) =>
        match handler e s1 with
        | (r, s2, es2) => (r, s2, es1 ++ es2)
        end
    end.

(** [for (const x of l) { f x }] *)
Fixpoint forEach {A : Type} (f : A -> M unit) (l : list A) : M unit :=
  match l with
  | [] => mret tt
  | x :: l' => f x;; forEach f l'
  end.

Fixpoint mapM {A B : Type} (f : A -> M B) (l : list A) : M (list B) :=
  match l with
  | [] => mret []
  | x :: l' => y ← f x; ys ← mapM f l'; mret (y :: ys)
  end.

(** *** Promises *)

(** [new Promise(...)]: a fresh pending promise. *)
Definition newPromise : M nat := fun s =>
  (Ok (length (promises s)), set_promises (promises s ++ [Pending]) s, []).

(** Calling [resolve] or [reject] of a promise settles it if it is still
    pending and does nothing otherwise. *)
Definition settle_in (p : nat) (st : PromiseState) (ps : list PromiseState)
  : list PromiseState :=
  match ps !! p with
  | Some Pending => <[p := st]> ps
  | _ => ps
  end.

Definition resolve (p : nat) (v : Value) : M unit :=
  modify (fun s => set_promises (settle_in p (Fulfilled v) (promises s)) s).

Definition reject (p : nat) (e : Error) : M unit :=
  modify (fun s => set_promises (settle_in p (Rejected e) (promises s)) s).

Definition promise_state (s : State) (p : nat) : PromiseState :=
  default Pending (promises s !! p).

(** *** Timers *)

Definition setTimeout (t : TimerKind) (delay : Z) : M nat := fun s =>
  let h := nextTimer s in
  (Ok h, set_nextTimer (S h) (set_timers (<[h := t]> (timers s)) s),
   [SetTimeout h t delay]).

Definition setInterval (delay : Z) : M nat := fun s =>
  let h := nextTimer s in
  (Ok h, set_nextTimer (S h) (set_timers (<[h := TPing]> (timers s)) s),
   [SetInterval h delay]).

(** [clearTimeout] and [clearInterval] *)
Definition clearTimer (h : nat) : M unit := fun s =>
  (Ok tt, set_timers (delete h (timers s)) s, [ClearTimer h]).

(** *** WebSocket objects *)

Definition set_readyState (r : ReadyState) (sk : Socket) : Socket :=
  {| readyState := r; sk_promise := sk_promise sk; sk_timeout := sk_timeout sk |}.

Definition socket_state (s : State) (k : nat) : option ReadyState :=
  readyState <$> sockets s !! k.

(** [sock.send(data)]: throws while connecting, transmits when open, and
    discards the data once closing or closed. *)
Definition socket_send (k : nat) (f : OutFrame) : M unit :=
  s ← get;
  match socket_state s k with
  | Some CONNECTING => throw "InvalidStateError"
  | Some OPEN => tell [WsSend k f]
  | _ => mret tt
  end.

(** [sock.close(code, reason)] first checks its arguments, whatever the
    state of the socket: a code other than 1000 and 3000..4999 is refused
    with an InvalidAccessError, and a reason longer than 123 bytes with a
    SyntaxError. A string is its sequence of UTF-8 bytes here, so its
    length is the number of bytes. *)
Definition valid_close_code (code : option Z) : bool :=
  match code with
  | Some c => (c =? 1000)%Z || ((3000 <=? c)%Z && (c <=? 4999)%Z)
  | None => true
  end.

Definition valid_close_reason (reason : option string) : bool :=
  match reason with
  | Some r => Nat.leb (String.length r) 123
  | None => true
  end.

(** Then it starts the closing handshake unless the socket is already
    closing or closed. *)
Definition socket_close (k : nat) (code : option Z) (reason : option string)
  : M unit :=
  if negb (valid_close_code code) then throw "InvalidAccessError"
  else if negb (valid_close_reason reason) then throw "SyntaxError"
  else
  s ← get;
  match sockets s !! k with
  | Some sk =>
      match readyState sk with
      | CONNECTING | OPEN =>
          modify (set_sockets (<[k := set_readyState CLOSING sk]> (sockets s)));;
          tell [WsClose k code reason]
      | _ => mret tt
      end
  | None => mret tt
  end.

(** [this.ws!.send(JSON.stringify(f))] *)
Definition ws_send (f : OutFrame) : M unit :=
  s ← get;
  match ws s with
  | Some k => socket_send k f
  | None => throw "TypeError"
  end.

(** [this.ws && this.ws.readyState === WebSocket.OPEN] *)
Definition is_open (s : State) : bool :=
  match ws s with
  | Some k => bool_decide (socket_state s k = Some OPEN)
  | None => false
  end.

(** *** Small JavaScript idioms *)

(** [a || b] on strings: the empty string is falsy. *)
Definition str_or (a b : string) : string :=
  if String.eqb a "" then b else a.

(** Truthiness of [string | null]. *)
Definition truthy (o : option string) : bool :=
  match o with
  | Some t => negb (String.eqb t "")
  | None => false
  end.

(** [s.replace(pat, rep)] with a string pattern: first occurrence only. *)
Fixpoint replace_first (pat rep s : string) : string :=
  if String.prefix pat s
  then rep +:+ String.substring (String.length pat)
                                (String.length s - String.length pat) s
  else match s with
       | EmptyString => EmptyString
       | String c s' => String c (replace_first pat rep s')
       end.

(** [v.toString(16)] for [0 <= v < 16] *)
Definition hex_digit (v : Z) : ascii :=
  match v with
  | 0%Z => "0" | 1%Z => "1" | 2%Z => "2" | 3%Z => "3" | 4%Z => "4"
  | 5%Z => "5" | 6%Z => "6" | 7%Z => "7" | 8%Z => "8" | 9%Z => "9"
  | 10%Z => "a" | 11%Z => "b" | 12%Z => "c" | 13%Z => "d" | 14%Z => "e"
  | _ => "f"
  end%char.

(** The replacement of the [n]-th [x] or [y] of the template, [draws n]
    standing for [(Math.random() * 16) | 0] at that call. *)
Fixpoint fill_template (t : string) (draws : nat -> Z) (n : nat) : string * nat :=
  match t with
  | EmptyString => (EmptyString, n)
  | String c t' =>
      if Ascii.eqb c "x"%char then
        let r := (draws n mod 16)%Z in
        let '(rest, n') := fill_template t' draws (S n) in
        (String (hex_digit r) rest, n')
      else if Ascii.eqb c "y"%char then
        let r := (draws n mod 16)%Z in
        let '(rest, n') := fill_template t' draws (S n) in
        (String (hex_digit (Z.lor (Z.land r 3) 8)) rest, n')
      else
        let '(rest, n') := fill_template t' draws n in
        (String c rest, n')
  end.

(** ** The methods of [EventsModule] *)

(** [new EventsModule(http, config)] for an HTTP client configured with
    [url] and [token]. *)
Definition constructor (url : string) (token : option string)
  (cfg : PartialConfig) (random : nat -> Z) : State :=
  {| config := spread_config DEFAULT_CONFIG cfg;
     ws := None; pingIntervalId := None; reconnectAttempts := 0;
     reconnectTimeoutId := None; isConnecting := false;
     isManualDisconnect := false; subscriptions := []; pendingSubscriptions := [];
     listeners := []; userId := None;
     bearerToken := if truthy token then token else None;
     authResolve := None; authReject := None; baseUrl := url;
     sockets := []; timers := ∅; nextTimer := 1; promises := [];
     randomCalls := 0; Math_random16 := random; replays := [] |}.

Definition setBearerToken (token : option string) : M unit :=
  modify (set_bearerToken token).

Definition _generateId : M string := fun s =>
  let '(id, n) := fill_template "xxxxxxxx-xxxx-4xxx-yxxx-xxxxxxxxxxxx"
                    (Math_random16 s) (randomCalls s) in
  (Ok id, set_randomCalls n s, []).

Definition _buildWebSocketUrl : M string :=
  s ← get;
  let wsUrl := replace_first "http://" "ws://"
                 (replace_first "https://" "wss://" (baseUrl s)) in
  mret (wsUrl +:+ "/v1/events/ws").

(** [(callback as Function)(...args)] *)
Definition call (callback : Callback) (event : EventName) (args : Payload)
  : M unit :=
  tell [Invoke (cb_id callback) event args];;
  match cb_run callback event args with
  | None => mret tt
  | Some err => throw err
  end.

(** The body of [listeners.forEach] in [_emit]. *)
Definition emit_one (event : EventName) (args : Payload) (callback : Callback)
  : M unit :=
  try_catch (call callback event args)
            (fun err => tell [ConsoleError event err]).

Definition _emit (event : EventName) (args : Payload) : M unit :=
  s ← get;
  match jm_get event (listeners s) with
  | Some set => forEach (emit_one event args) set
  | None => mret tt
  end.

Definition ping : M unit :=
  s ← get;
  if is_open s then ws_send FPing else mret tt.

Definition _startPingInterval : M unit :=
  s ← get;
  if (0 <? pingInterval (config s))%Z then
    h ← setInterval (pingInterval (config s));
    modify (set_pingIntervalId (Some h))
  else mret tt.

Definition _stopPingInterval : M unit :=
  s ← get;
  match pingIntervalId s with
  | Some h => clearTimer h;; modify (set_pingIntervalId None)
  | None => mret tt
  end.

(** [new WebSocket(wsUrl)], stored in [this.ws]; the handlers are
    attached by [_connect] right after. *)
Definition newWebSocket (url : string) (p : nat) : M nat := fun s =>
  let k := length (sockets s) in
  (Ok k,
   set_ws (Some k)
     (set_sockets (sockets s ++ [mkSocket CONNECTING p 0]) s),
   [WsNew k url]).

Definition attach_timeout (k h : nat) : M unit :=
  modify (fun s =>
    match sockets s !! k with
    | Some sk =>
        set_sockets (<[k := mkSocket (readyState sk) (sk_promise sk) h]> (sockets s)) s
    | None => s
    end).

Definition _connect : M nat :=
  p ← newPromise;
  try_catch
    (modify (set_authResolve (Some p));;
     modify (set_authReject (Some p));;
     wsUrl ← _buildWebSocketUrl;
     k ← newWebSocket wsUrl p;
     connectionTimeout ← setTimeout (TConnection p) 10000;
     attach_timeout k connectionTimeout)
    (fun err =>
       modify (set_isConnecting false);;
       modify (set_authResolve None);;
       modify (set_authReject None);;
       reject p err);;
  mret p.

(** The callback of [connectionTimeout], closed over [reject] of [p]. *)
Definition connectionTimeout_fired (p : nat) : M unit :=
  s ← get;
  match ws s with
  | Some k =>
      if bool_decide (socket_state s k ≠ Some OPEN) then
        socket_close k None None;;
        modify (set_isConnecting false);;
        modify (set_authResolve None);;
        modify (set_authReject None);;
        reject p "Connection timeout"
      else mret tt
  | None => mret tt
  end.

(** An [async] function whose body throws returns a rejected promise. *)
Definition rejected_promise (e : Error) : M nat :=
  p ← newPromise; reject p e;; mret p.

Definition connect : M nat :=
  s ← get;
  if is_open s then rejected_promise "Already connected"
  else if isConnecting s then rejected_promise "Connection in progress"
  else
    modify (set_isConnecting true);;
    modify (set_isManualDisconnect false);;
    modify (set_reconnectAttempts 0);;
    _connect.

(** [Math.min(reconnectDelay * Math.pow(2, attempts - 1), maxReconnectDelay)].
    [_scheduleReconnect] evaluates it right after incrementing the counter,
    so the exponent is never negative there. *)
Definition backoff_delay (cfg : Config) (attempts : nat) : Z :=
  Z.min (reconnectDelay cfg * 2 ^ (Z.of_nat attempts - 1))
        (maxReconnectDelay cfg).

Definition _scheduleReconnect : M unit :=
  s ← get;
  if (maxReconnectAttempts (config s) <=? Z.of_nat (reconnectAttempts s))%Z then
    _emit E_error (PError "Max reconnect attempts reached")
  else
    modify (set_reconnectAttempts (S (reconnectAttempts s)));;
    s ← get;
    let delay := backoff_delay (config s) (reconnectAttempts s) in
    _emit E_reconnecting (PAttempt (reconnectAttempts s));;
    h ← setTimeout TReconnect delay;
    modify (set_reconnectTimeoutId (Some h)).

(** [ws.onopen] of the socket built with promise [p] and timeout [h]. *)
Definition onopen (p h : nat) : M unit :=
  clearTimer h;;
  s ← get;
  if truthy (bearerToken s) then
    ws_send (FAuth (default "" (bearerToken s)))
  else
    modify (set_isConnecting false);;
    modify (set_authResolve None);;
    modify (set_authReject None);;
    match ws s with
    | Some k => socket_close k (Some 1008%Z) (Some "Missing authentication token")
    | None => throw "TypeError"
    end;;
    reject p "Missing authentication token".

Definition onerror (p h : nat) : M unit :=
  clearTimer h;;
  modify (set_isConnecting false);;
  modify (set_authResolve None);;
  modify (set_authReject None);;
  _emit E_error (PError "WebSocket error");;
  reject p "WebSocket error".

Definition onclose (p h : nat) (code : Z) (reason : string) : M unit :=
  clearTimer h;;
  _stopPingInterval;;
  modify (set_isConnecting false);;
  s ← get;
  match authReject s with
  | Some q =>
      reject q (str_or reason "Connection closed before authentication");;
      modify (set_authResolve None);;
      modify (set_authReject None)
  | None => mret tt
  end;;
  _emit E_disconnect (PReason (str_or reason "Connection closed"));;
  s ← get;
  if negb (isManualDisconnect s) && autoReconnect (config s)
  then _scheduleReconnect
  else mret tt.

Definition _cleanup : M unit :=
  _stopPingInterval;;
  s ← get;
  match reconnectTimeoutId s with
  | Some h => clearTimer h;; modify (set_reconnectTimeoutId None)
  | None => mret tt
  end;;
  s ← get;
  forEach (fun pending => reject (p_promise pending) "Connection closed")
          (jm_values (pendingSubscriptions s));;
  modify (set_pendingSubscriptions []).

Definition disconnect : M unit :=
  modify (set_isManualDisconnect true);;
  _cleanup;;
  s ← get;
  match ws s with
  | Some k =>
      socket_close k (Some 1000%Z) (Some "Client disconnect");;
      modify (set_ws None)
  | None => mret tt
  end.

(** [options?.filters || {}] and [options?.include_data || false] *)
Definition frame_filters (o : option SubscriptionOptions) : SubscriptionFilters :=
  match o with
  | Some (mkOptions (Some f) _) => f
  | _ => no_filters
  end.

Definition frame_include_data (o : option SubscriptionOptions) : bool :=
  match o with
  | Some (mkOptions _ (Some b)) => b
  | _ => false
  end.

Definition subscribe (domain resource : string)
  (options : option SubscriptionOptions) : M nat :=
  s ← get;
  if negb (is_open s) then rejected_promise "Not connected"
  else
    subscriptionId ← _generateId;
    p ← newPromise;
    let subscriptionData := mkSubData domain resource options in
    modify (fun s =>
      set_pendingSubscriptions
        (jm_set subscriptionId (mkPending p subscriptionData)
                (pendingSubscriptions s)) s);;
    try_catch
      (ws_send (FSubscribe subscriptionId domain resource
                  (frame_filters options) (frame_include_data options));;
       _ ← setTimeout (TSubscription subscriptionId p) 10000;
       mret tt)
      (fun err => reject p err);;
    mret p.

(** The callback of the confirmation timeout of [subscribe]. *)
Definition subscriptionTimeout_fired (subscriptionId : string) (p : nat) : M unit :=
  s ← get;
  if jm_has subscriptionId (pendingSubscriptions s) then
    modify (set_pendingSubscriptions
              (jm_delete subscriptionId (pendingSubscriptions s)));;
    reject p "Subscription timeout"
  else mret tt.

Definition unsubscribe (subscriptionId : string) : M nat :=
  s ← get;
  if negb (is_open s) then rejected_promise "Not connected"
  else
    p ← newPromise;
    try_catch
      (ws_send (FUnsubscribe subscriptionId);;
       modify (fun s =>
         set_subscriptions (jm_delete subscriptionId (subscriptions s)) s);;
       resolve p VVoid)
      (fun err => reject p err);;
    mret p.

(** [Set.prototype.add] and [Set.prototype.delete] on function objects. *)
Definition set_add (cb : Callback) (l : list Callback) : list Callback :=
  if existsb (fun c => Nat.eqb (cb_id c) (cb_id cb)) l then l else l ++ [cb].

Definition set_delete (cb : Callback) (l : list Callback) : list Callback :=
  filter (fun c => cb_id c ≠ cb_id cb) l.

Definition on (event : EventName) (callback : Callback) : M unit :=
  modify (fun s =>
    if jm_has event (listeners s) then s
    else set_listeners (jm_set event [] (listeners s)) s);;
  modify (fun s =>
    set_listeners
      (jm_set event (set_add callback (default [] (jm_get event (listeners s))))
              (listeners s)) s).

Definition off (event : EventName) (callback : Callback) : M unit :=
  modify (fun s =>
    match jm_get event (listeners s) with
    | Some l => set_listeners (jm_set event (set_delete callback l) (listeners s)) s
    | None => s
    end).

Definition sendTypingEvent (chatId : string) (event : TypingKind) : M unit :=
  s ← get;
  if negb (is_open s) then mret tt
  else ws_send (FTypingEvent chatId event).

(** [new Map(this.subscriptions)], by value; the sharing between the copy
    and the table is the subject of module [MapStore] below. *)
Definition getSubscriptions (s : State) : JsMap string SubscriptionData :=
  subscriptions s.

Definition updateConfig (c : PartialConfig) : M unit :=
  modify (fun s => set_config (spread_config (config s) c) s);;
  s ← get;
  if is_open s then _stopPingInterval;; _startPingInterval else mret tt.

Definition _handleSubscriptionConfirmed (subscription_id domain resource : string)
  (filters : SubscriptionFilters) : M unit :=
  s ← get;
  match jm_get subscription_id (pendingSubscriptions s) with
  | Some pending =>
      modify (set_pendingSubscriptions
                (jm_delete subscription_id (pendingSubscriptions s)));;
      let subscription := mkSubscription subscription_id domain resource filters in
      (* pending.resolve(subscription) *)
      modify (fun s =>
        set_subscriptions
          (jm_set (sub_id subscription) (p_data pending) (subscriptions s)) s);;
      resolve (p_promise pending) (VSubscription subscription)
  | None => mret tt
  end;;
  _emit E_subscription_confirmed
        (PMessage (MSubscriptionConfirmed subscription_id domain resource filters)).

(** [await this.subscribe(...)] inside the loop of [_resubscribeAll]:
    resumes when the awaited promise has settled, whatever the outcome
    (a rejection is caught and only logged), and goes on with the next
    entry. *)
Fixpoint resubscribe_loop (awaiting : nat)
  (rest : list (string * SubscriptionData)) : M (option Replay) :=
  s ← get;
  if settled (promise_state s awaiting) then
    match rest with
    | [] => mret None
    | (_, sub) :: rest' =>
        p ← subscribe (domain sub) (resource sub) (options sub);
        resubscribe_loop p rest'
    end
  else mret (Some (mkReplay awaiting rest)).

(** [_resubscribeAll] up to its first [await]. *)
Definition _resubscribeAll : M unit :=
  s ← get;
  let subscriptionsToRestore := subscriptions s in
  modify (set_subscriptions []);;
  match subscriptionsToRestore with
  | [] => mret tt
  | (_, sub) :: rest =>
      p ← subscribe (domain sub) (resource sub) (options sub);
      modify (fun s => set_replays (replays s ++ [mkReplay p rest]) s)
  end.

Definition _handleMessage (message : WebSocketMessage) : M unit :=
  match message with
  | MConnected user_id _ _ =>
      modify (set_isConnecting false);;
      modify (set_userId (Some user_id));;
      _emit E_connect (PMessage message);;
      s ← get;
      match authResolve s with
      | Some p =>
          resolve p (VConnected message);;
          modify (set_authResolve None);;
          modify (set_authReject None)
      | None => mret tt
      end;;
      _startPingInterval;;
      s ← get;
      (if (0 <? reconnectAttempts s)%nat then _resubscribeAll else mret tt);;
      modify (set_reconnectAttempts 0)
  | MAuthError err =>
      modify (set_isConnecting false);;
      let error := if truthy err then default "" err else "Authentication failed" in
      s ← get;
      match authReject s with
      | Some p =>
          reject p error;;
          modify (set_authResolve None);;
          modify (set_authReject None)
      | None => mret tt
      end;;
      s ← get;
      match ws s with
      | Some k => socket_close k (Some 1008%Z) (Some error)
      | None => mret tt
      end
  | MSubscriptionConfirmed subscription_id domain resource filters =>
      _handleSubscriptionConfirmed subscription_id domain resource filters
  | MUnsubscribed subscription_id =>
      modify (fun s =>
        set_subscriptions (jm_delete subscription_id (subscriptions s)) s)
  | MNotification _ _ _ _ _ _ => _emit E_notification (PMessage message)
  | MSystemNotification _ _ => _emit E_system_notification (PMessage message)
  | MPong => mret tt
  | MError _ _ => _emit E_error (PMessage message)
  | MUnknown _ => mret tt
  end.

(** [ws.onmessage]: [data] is [None] when [JSON.parse] throws. *)
Definition onmessage (data : option WebSocketMessage) : M unit :=
  try_catch
    (match data with
     | Some message => _handleMessage message
     | None => throw "SyntaxError"
     end)
    (fun err => mret tt).

(** The callback armed by [_scheduleReconnect]. A rejection of the
    awaited promise is caught and only logged. *)
Definition reconnect_fired : M unit :=
  try_catch (_ ← _connect; mret tt) (fun err => mret tt).

(** ** The event loop *)

Inductive Event : Type :=
| CallConnect
| CallDisconnect
| CallSubscribe (domain resource : string) (options : option SubscriptionOptions)
| CallUnsubscribe (subscriptionId : string)
| CallOn (event : EventName) (callback : Callback)
| CallOff (event : EventName) (callback : Callback)
| CallSendTypingEvent (chatId : string) (event : TypingKind)
| CallPing
| CallUpdateConfig (c : PartialConfig)
| CallSetBearerToken (token : option string)
| SocketOpen (k : nat)
| SocketMessage (k : nat) (data : option WebSocketMessage)
| SocketError (k : nat)
| SocketClose (k : nat) (code : Z) (reason : string)
| TimerFired (h : nat).

Definition set_socket_state (k : nat) (r : ReadyState) : M unit :=
  modify (fun s =>
    match sockets s !! k with
    | Some sk => set_sockets (<[k := set_readyState r sk]> (sockets s)) s
    | None => s
    end).

(** What the browser does with one task. Socket events are delivered only
    in the states in which a WebSocket can fire them; a timer runs only
    while its handle is armed, and a timeout disarms itself. *)
Definition handle (ev : Event) : M unit :=
  match ev with
  | CallConnect => _ ← connect; mret tt
  | CallDisconnect => disconnect
  | CallSubscribe d r o => _ ← subscribe d r o; mret tt
  | CallUnsubscribe id => _ ← unsubscribe id; mret tt
  | CallOn e cb => on e cb
  | CallOff e cb => off e cb
  | CallSendTypingEvent c e => sendTypingEvent c e
  | CallPing => ping
  | CallUpdateConfig c => updateConfig c
  | CallSetBearerToken t => setBearerToken t
  | SocketOpen k =>
      s ← get;
      match sockets s !! k with
      | Some sk =>
          match readyState sk with
          | CONNECTING =>
              set_socket_state k OPEN;; onopen (sk_promise sk) (sk_timeout sk)
          | _ => mret tt
          end
      | None => mret tt
      end
  | SocketMessage k data =>
      s ← get;
      match socket_state s k with
      | Some OPEN | Some CLOSING => onmessage data
      | _ => mret tt
      end
  | SocketError k =>
      s ← get;
      match sockets s !! k with
      | Some sk =>
          match readyState sk with
          | CLOSED => mret tt
          | _ => onerror (sk_promise sk) (sk_timeout sk)
          end
      | None => mret tt
      end
  | SocketClose k code reason =>
      s ← get;
      match sockets s !! k with
      | Some sk =>
          match readyState sk with
          | CLOSED => mret tt
          | _ =>
              set_socket_state k CLOSED;;
              onclose (sk_promise sk) (sk_timeout sk) code reason
          end
      | None => mret tt
      end
  | TimerFired h =>
      s ← get;
      match timers s !! h with
      | Some (TConnection p) =>
          modify (fun s => set_timers (delete h (timers s)) s);;
          connectionTimeout_fired p
      | Some (TSubscription id p) =>
          modify (fun s => set_timers (delete h (timers s)) s);;
          subscriptionTimeout_fired id p
      | Some TReconnect =>
          modify (fun s => set_timers (delete h (timers s)) s);;
          reconnect_fired
      | Some TPing => ping
      | None => mret tt
      end
  end.

(** Micro-tasks: every suspended [_resubscribeAll] whose awaited promise
    has settled runs on to its next [await]. *)
Definition drain : M unit :=
  s ← get;
  modify (set_replays []);;
  rs ← mapM (fun r => resubscribe_loop (rp_awaiting r) (rp_rest r)) (replays s);
  modify (fun s => set_replays (omap id rs ++ replays s) s).

(** A task runs to completion; an exception nobody caught is reported. *)
Definition task (m : M unit) (s : State) : State * list Effect :=
  match m s with
  | (Ok _, s', es) => (s', es)
  | (Throw e, s', es) => (s', es ++ [Uncaught e])
  end.

Definition step (s : State) (ev : Event) : State * list Effect :=
  let '(s1, es1) := task (handle ev) s in
  let '(s2, es2) := task drain s1 in
  (s2, es1 ++ es2).

Fixpoint run (s : State) (evs : list Event) : State * list Effect :=
  match evs with
  | [] => (s, [])
  | ev :: evs' =>
      let '(s1, es1) := step s ev in
      let '(s2, es2) := run s1 evs' in
      (s2, es1 ++ es2)
  end.

Definition run_state (s : State) (evs : list Event) : State := fst (run s evs).
Definition run_trace (s : State) (evs : list Event) : list Effect := snd (run s evs).


(** ** Vocabulary of the statements *)

(** What one listener contributes to the trace of an [_emit]. *)
Definition listener_trace (event : EventName) (args : Payload) (cb : Callback)
  : list Effect :=
  match cb_run cb event args with
  | None => [Invoke (cb_id cb) event args]
  | Some err => [Invoke (cb_id cb) event args; ConsoleError event err]
  end.

(** The trace of [_emit event args] when the registry is [ls]. *)
Definition emit_trace (ls : JsMap EventName (list Callback))
  (event : EventName) (args : Payload) : list Effect :=
  match jm_get event ls with
  | Some set => concat (map (listener_trace event args) set)
  | None => []
  end.

(** The fields that neither [subscribe] nor the micro-tasks touch. *)
Definition core (s : State) :=
  (config s, ws s, pingIntervalId s, reconnectAttempts s, reconnectTimeoutId s,
   isConnecting s, isManualDisconnect s, subscriptions s, listeners s,
   userId s, bearerToken s, authResolve s, authReject s, baseUrl s, sockets s,
   Math_random16 s).

Definition only_subscription_effect (e : Effect) : Prop :=
  match e with
  | WsSend _ (FSubscribe _ _ _ _ _) => True
  | SetTimeout _ (TSubscription _ _) _ => True
  | _ => False
  end.

(** [frame s s']: [s'] differs from [s] at most by what calls of
    [subscribe] leave behind: new promises, new pending requests, new
    confirmation timeouts, random draws, and the list of suspended
    replays. *)
Record frame (s s' : State) : Prop := mkFrame {
  fr_core : core s' = core s;
  fr_next : nextTimer s <= nextTimer s';
  fr_old_timers : forall h, h < nextTimer s -> timers s' !! h = timers s !! h;
  fr_new_timers : forall h t, timers s' !! h = Some t ->
                    timers s !! h = Some t \/ exists id p, t = TSubscription id p;
  fr_plen : length (promises s) <= length (promises s');
  fr_old_promises : forall p, p < length (promises s) ->
                    promises s' !! p = promises s !! p
}.

Definition never_throws {A : Type} (m : M A) : Prop :=
  forall s, exists a s' es, m s = (Ok a, s', es).

(** Projections of a trace. *)
Fixpoint invoked (es : list Effect) : list nat :=
  match es with
  | [] => []
  | Invoke cb _ _ :: es' => cb :: invoked es'
  | _ :: es' => invoked es'
  end.

Fixpoint reconnect_delays (es : list Effect) : list Z :=
  match es with
  | [] => []
  | SetTimeout _ TReconnect d :: es' => d :: reconnect_delays es'
  | _ :: es' => reconnect_delays es'
  end.

Fixpoint sockets_created (es : list Effect) : list nat :=
  match es with
  | [] => []
  | WsNew k _ :: es' => k :: sockets_created es'
  | _ :: es' => sockets_created es'
  end.

Fixpoint frames_sent (es : list Effect) : list OutFrame :=
  match es with
  | [] => []
  | WsSend _ f :: es' => f :: frames_sent es'
  | _ :: es' => frames_sent es'
  end.

Fixpoint closes (es : list Effect) : list (nat * option Z) :=
  match es with
  | [] => []
  | WsClose k code _ :: es' => (k, code) :: closes es'
  | _ :: es' => closes es'
  end.

(** A client used to exhibit concrete runs: default configuration, a
    stored token, and [Math.random] replaced by a counter. *)
Definition no_overrides : PartialConfig :=
  mkPartial None None None None None None.

Definition demo_new : State :=
  constructor "https://api.example.com" (Some "secret") no_overrides
              (fun n => Z.of_nat n).

Definition demo_welcome : WebSocketMessage := MConnected "u1" "welcome" [].

(** After [connect()], the socket opening and the server's [connected]. *)
Definition demo_connected : State :=
  run_state demo_new
            [CallConnect; SocketOpen 0; SocketMessage 0 (Some demo_welcome)].

(** A client with two retries armed: the connection is lost, its retry
    fires, [connect()] is called while the socket of the retry is still
    connecting (which [connect()] accepts, see below), and both sockets
    close. *)
Definition demo_two_retries : State :=
  run_state demo_connected
            [SocketClose 0 1006 ""; TimerFired 3; CallConnect;
             SocketClose 1 1006 ""; SocketClose 2 1006 ""].

(** The promise table after the loop of [_cleanup] has called [reject]
    of every entry of [l]. *)
Definition reject_all (e : Error) (l : list PendingSubscription)
  (ps : list PromiseState) : list PromiseState :=
  foldl (fun ps pending => settle_in (p_promise pending) (Rejected e) ps) ps l.

(** What [_connect] leaves behind. *)
Record connect_post (s s' : State) : Prop := mkConnectPost {
  cp_ws : ws s' = Some (length (sockets s));
  cp_sockets : sockets s' = sockets s ++ [mkSocket CONNECTING (length (promises s)) (nextTimer s)];
  cp_promises : promises s' = promises s ++ [Pending];
  cp_authResolve : authResolve s' = Some (length (promises s));
  cp_authReject : authReject s' = Some (length (promises s));
  cp_timers : timers s' = <[nextTimer s := TConnection (length (promises s))]> (timers s);
  cp_nextTimer : nextTimer s' = S (nextTimer s);
  cp_config : config s' = config s;
  cp_pingIntervalId : pingIntervalId s' = pingIntervalId s;
  cp_reconnectAttempts : reconnectAttempts s' = reconnectAttempts s;
  cp_reconnectTimeoutId : reconnectTimeoutId s' = reconnectTimeoutId s;
  cp_isConnecting : isConnecting s' = isConnecting s;
  cp_isManualDisconnect : isManualDisconnect s' = isManualDisconnect s;
  cp_subscriptions : subscriptions s' = subscriptions s;
  cp_pendingSubscriptions : pendingSubscriptions s' = pendingSubscriptions s;
  cp_listeners : listeners s' = listeners s;
  cp_userId : userId s' = userId s;
  cp_bearerToken : bearerToken s' = bearerToken s;
  cp_baseUrl : baseUrl s' = baseUrl s;
  cp_randomCalls : randomCalls s' = randomCalls s;
  cp_random : Math_random16 s' = Math_random16 s;
  cp_replays : replays s' = replays s
}.

(** The same client without a stored token. *)
Definition demo_anonymous : State :=
  constructor "https://api.example.com" None no_overrides
              (fun n => Z.of_nat n).


(** No socket is alive and no retry is armed. *)
Definition quiescent (s : State) : Prop :=
  (forall k sk, sockets s !! k = Some sk -> readyState sk = CLOSED) /\
  (forall h, timers s !! h <> Some TReconnect).

(** The current socket closes; the retry that was armed fires. *)
Definition close_current (s : State) (c : Z * string) : State * list Effect :=
  match ws s with
  | Some k => step s (SocketClose k c.1 c.2)
  | None => (s, [])
  end.

Definition fire_retry (s : State) : State * list Effect :=
  match reconnectTimeoutId s with
  | Some h => step s (TimerFired h)
  | None => (s, [])
  end.

(** A run in which every connection attempt ends with the socket
    closing, [cs] giving the code and reason of each close event. *)
Fixpoint failing_run (cs : list (Z * string)) (s : State) : State * list Effect :=
  match cs with
  | [] => (s, [])
  | c :: cs' =>
      let '(s1, es1) := close_current s c in
      let '(s2, es2) := fire_retry s1 in
      let '(s3, es3) := failing_run cs' s2 in
      (s3, es1 ++ es2 ++ es3)
  end.

(** The state of a client that keeps retrying: one live socket, the
    current one, and no retry armed. *)
Record retrying (cfg : Config) (ls : JsMap EventName (list Callback))
  (s : State) : Prop := mkRetrying {
  rt_config : config s = cfg;
  rt_listeners : listeners s = ls;
  rt_manual : isManualDisconnect s = false;
  rt_live : exists k sk,
      ws s = Some k /\ sockets s !! k = Some sk /\ readyState sk <> CLOSED /\
      (forall j sj, j <> k -> sockets s !! j = Some sj -> readyState sj = CLOSED);
  rt_timers : forall h, timers s !! h <> Some TReconnect
}.


(** Executable form of [retrying], for concrete states. *)
Definition is_reconnect (t : TimerKind) : bool :=
  match t with TReconnect => true | _ => false end.

Definition no_retry_armed (s : State) : bool :=
  forallb (fun ht => negb (is_reconnect ht.2)) (map_to_list (timers s)).

Definition is_closed (sk : Socket) : bool :=
  match readyState sk with CLOSED => true | _ => false end.

Definition one_live_socket (s : State) : bool :=
  match ws s with
  | Some k =>
      forallb (fun jsk => if Nat.eqb jsk.1 k then negb (is_closed jsk.2)
                          else is_closed jsk.2)
              (imap (fun j sk => (j, sk)) (sockets s))
      && bool_decide (k < length (sockets s))
  | None => false
  end.

Definition retrying_check (s : State) : bool :=
  negb (isManualDisconnect s) && one_live_socket s && no_retry_armed s.

(** The identifier the next call of [_generateId] returns. *)
Definition next_id (s : State) : string :=
  (fill_template "xxxxxxxx-xxxx-4xxx-yxxx-xxxxxxxxxxxx"
                 (Math_random16 s) (randomCalls s)).1.

Definition next_randomCalls (s : State) : nat :=
  (fill_template "xxxxxxxx-xxxx-4xxx-yxxx-xxxxxxxxxxxx"
                 (Math_random16 s) (randomCalls s)).2.

(** What [subscribe(d, r, o)] leaves behind on an open connection. *)
Record subscribe_post (d r : string) (o : option SubscriptionOptions)
  (s s' : State) : Prop := mkSubscribePost {
  sp_core : core s' = core s;
  sp_pending :
    pendingSubscriptions s'
    = jm_set (next_id s) (mkPending (length (promises s)) (mkSubData d r o))
             (pendingSubscriptions s);
  sp_promises : promises s' = promises s ++ [Pending];
  sp_timers :
    timers s'
    = <[nextTimer s := TSubscription (next_id s) (length (promises s))]> (timers s);
  sp_nextTimer : nextTimer s' = S (nextTimer s);
  sp_randomCalls : randomCalls s' = next_randomCalls s;
  sp_replays : replays s' = replays s
}.

(** The confirmation timeouts armed in a trace: handle and
    subscription id. *)
Fixpoint sub_timers (es : list Effect) : list (nat * string) :=
  match es with
  | [] => []
  | SetTimeout h (TSubscription id _) _ :: es' => (h, id) :: sub_timers es'
  | _ :: es' => sub_timers es'
  end.

(** The subscribe frames of a trace, without their identifiers. *)
Fixpoint subscribe_requests (es : list Effect)
  : list (string * string * SubscriptionFilters * bool) :=
  match es with
  | [] => []
  | WsSend _ (FSubscribe _ d r f i) :: es' => (d, r, f, i) :: subscribe_requests es'
  | _ :: es' => subscribe_requests es'
  end.

(** The frame that replays an entry of the durable table. *)
Definition replay_request (entry : string * SubscriptionData)
  : string * string * SubscriptionFilters * bool :=
  (domain entry.2, resource entry.2, frame_filters (options entry.2),
   frame_include_data (options entry.2)).

(** How the request a replay waits for ends. *)
Inductive Outcome : Type :=
| Confirmed (d r : string) (f : SubscriptionFilters)
| TimedOut.

(** The environment answers the subscribe request it saw last in the
    trace [st.2] of the previous step: the server confirms it on socket
    [k], or its ten seconds pass. *)
Definition answer (k : nat) (st : State * list Effect) (o : Outcome)
  : State * list Effect :=
  match last (sub_timers st.2) with
  | Some (h, id) =>
      match o with
      | Confirmed d r f =>
          step st.1 (SocketMessage k (Some (MSubscriptionConfirmed id d r f)))
      | TimedOut => step st.1 (TimerFired h)
      end
  | None => (st.1, [])
  end.

(** Successive answers; the result carries the whole trace and the trace
    of the last step. *)
Fixpoint replay_run (k : nat) (st : State * list Effect) (os : list Outcome)
  : State * list Effect * list Effect :=
  match os with
  | [] => (st.1, [], st.2)
  | o :: os' =>
      let st1 := answer k st o in
      let '(s2, es2, last2) := replay_run k st1 os' in
      (s2, st1.2 ++ es2, last2)
  end.

(** A replay is suspended on the request armed last in [es], with [rest]
    still to be re-requested, on the open socket [k]. *)
Record replaying (k : nat) (rest : list (string * SubscriptionData))
  (s : State) (es : list Effect) : Prop := mkReplaying {
  rg_ws : ws s = Some k;
  rg_open : socket_state s k = Some OPEN;
  rg_await : exists p h id data,
      replays s = [mkReplay p rest] /\
      last (sub_timers es) = Some (h, id) /\
      timers s !! h = Some (TSubscription id p) /\
      jm_get id (pendingSubscriptions s) = Some (mkPending p data) /\
      promises s !! p = Some Pending
}.

(** The reading of the replay under which the re-requests do not wait
    for one another: when the [connected] frame of a reconnect has been
    handled, one subscribe frame per recorded subscription is on the
    wire. *)
Definition replay_is_concurrent : Prop :=
  forall (s : State) (k : nat) (user_id message : string)
         (system_subscriptions : list string),
    ws s = Some k -> socket_state s k = Some OPEN ->
    0 < reconnectAttempts s -> replays s = [] ->
    subscribe_requests
      (step s (SocketMessage k
                 (Some (MConnected user_id message system_subscriptions)))).2
    = map replay_request (subscriptions s).

(** A reconnect with two recorded subscriptions: connect, subscribe
    twice with confirmations, lose the socket, let the retry fire and the
    new socket open. *)
Definition demo_reconnecting : State :=
  run_state demo_connected
    [CallSubscribe "chat" "message" None;
     SocketMessage 0 (Some (MSubscriptionConfirmed
                              "01234567-89ab-4cde-b012-3456789abcde"
                              "chat" "message" no_filters));
     CallSubscribe "trip" "itinerary" None;
     SocketMessage 0 (Some (MSubscriptionConfirmed
                              "f0123456-789a-4bcd-af01-23456789abcd"
                              "trip" "itinerary" no_filters));
     SocketClose 0 1006 "";
     TimerFired 5;
     SocketOpen 1].

(** ** The durable table during a session *)

(** The client is connected: the current socket is open, the attempt
    counter is at rest and no retry is armed. *)
Record in_session (k : nat) (s : State) : Prop := mkInSession {
  is_ws : ws s = Some k;
  is_socket : socket_state s k = Some OPEN;
  is_attempts : reconnectAttempts s = 0;
  is_timers : forall h, timers s !! h <> Some TReconnect
}.

(** What can happen while the connection stays up: calls of the
    subscription and listener interface, frames on the socket other than
    [auth_error] (an answer to the handshake), timers. *)
Definition session_event (k : nat) (ev : Event) : bool :=
  match ev with
  | CallSubscribe _ _ _ | CallUnsubscribe _ | CallOn _ _ | CallOff _ _
  | CallSendTypingEvent _ _ | CallPing | CallSetBearerToken _
  | TimerFired _ => true
  | SocketMessage _ (Some (MAuthError _)) => false
  | SocketMessage k' _ => Nat.eqb k' k
  | _ => false
  end.

(** Event [ev], arriving in state [s], confirms a pending request for
    [id]. *)
Definition confirms (s : State) (id : string) (ev : Event) : Prop :=
  exists k d r f,
    ev = SocketMessage k (Some (MSubscriptionConfirmed id d r f)) /\
    jm_has id (pendingSubscriptions s) = true.

(** Event [ev] unsubscribes [id]: a call of [unsubscribe(id)] or the
    server's [unsubscribed] frame. *)
Definition removes (id : string) (ev : Event) : Prop :=
  ev = CallUnsubscribe id \/
  exists k, ev = SocketMessage k (Some (MUnsubscribed id)).

(** [id] has been confirmed in the run [evs] from [s0] (or was in the
    table to begin with) and not unsubscribed since. *)
Definition confirmed_not_unsubscribed (s0 : State) (evs : list Event)
  (id : string) : Prop :=
  exists pre post,
    evs = pre ++ post /\
    Forall (fun ev => ~ removes id ev) post /\
    ((pre = [] /\ jm_has id (subscriptions s0) = true) \/
     (exists pre' ev, pre = pre' ++ [ev] /\ confirms (run_state s0 pre') id ev)).

(** The effect of one event on the durable table. *)
Definition table_effect (s : State) (ev : Event)
  (m : JsMap string SubscriptionData) : JsMap string SubscriptionData :=
  match ev with
  | CallUnsubscribe id => jm_delete id m
  | SocketMessage _ (Some (MUnsubscribed id)) => jm_delete id m
  | SocketMessage _ (Some (MSubscriptionConfirmed id _ _ _)) =>
      match jm_get id (pendingSubscriptions s) with
      | Some pending => jm_set id (p_data pending) m
      | None => m
      end
  | _ => m
  end.

(** ** Settling promises *)




(** ** [getSubscriptions] at the level of references

    [getSubscriptions()] hands out [new Map(this.subscriptions)]. To tell
    a copy from an alias, [Map] objects live in a store and are named by
    handles; their values are references to the entry objects
    [{ domain, resource, options }], which a copy shares with its
    source. *)
Module MapStore.

Record Store : Type := mkStore {
  map_objects : list (list (string * nat));
  entries : list SubscriptionData
}.

(** The content of a [Map]: its keys with the entries they refer to. *)
Definition deref (st : Store) (m : list (string * nat))
  : JsMap string SubscriptionData :=
  omap (fun kv => pair kv.1 <$> entries st !! kv.2) m.

Definition view (st : Store) (h : nat) : JsMap string SubscriptionData :=
  deref st (default [] (map_objects st !! h)).

(** [new Map(m)] for the [Map] at handle [h]: a new object with the same
    key/reference pairs. *)
Definition new_Map (h : nat) (st : Store) : Store * nat :=
  ({| map_objects := map_objects st ++ [default [] (map_objects st !! h)];
      entries := entries st |},
   length (map_objects st)).

(** [getSubscriptions()], [table] being the handle held in
    [this.subscriptions]. *)
Definition getSubscriptions (table : nat) (st : Store) : Store * nat :=
  new_Map table st.

(** The mutating methods of [Map]. *)
Inductive MapOp : Type :=
| OpSet (key : string) (entry : nat)
| OpDelete (key : string)
| OpClear.

Definition apply_op (op : MapOp) (m : list (string * nat))
  : list (string * nat) :=
  match op with
  | OpSet key entry => jm_set key entry m
  | OpDelete key => jm_delete key m
  | OpClear => jm_clear m
  end.

Definition map_op (h : nat) (op : MapOp) (st : Store) : Store :=
  match map_objects st !! h with
  | Some m =>
      {| map_objects := <[h := apply_op op m]> (map_objects st);
         entries := entries st |}
  | None => st
  end.

Definition mutate (h : nat) (ops : list MapOp) (st : Store) : Store :=
  foldl (fun st op => map_op h op st) st ops.

(** Assignment to the fields of an entry object. *)
Definition set_entry (a : nat) (d : SubscriptionData) (st : Store) : Store :=
  {| map_objects := map_objects st; entries := <[a := d]> (entries st) |}.

(** The module state whose durable table is the [Map] at [table]. *)
Definition with_table (st : Store) (table : nat) (rest : State) : State :=
  set_subscriptions (view st table) rest.

(** A store with the table of [demo_reconnecting]. *)
Definition demo_store : Store :=
  {| map_objects := [[("01234567-89ab-4cde-b012-3456789abcde", 0);
                      ("f0123456-789a-4bcd-af01-23456789abcd", 1)]];
     entries := [mkSubData "chat" "message" None;
                 mkSubData "trip" "itinerary" None] |}.

End MapStore.

(** ** Frames without control information *)

(** The event under which [_handleMessage] hands a frame to the
    listeners without doing anything else, if any. *)
Definition carried_event (data : option WebSocketMessage) : option EventName :=
  match data with
  | Some (MNotification _ _ _ _ _ _) => Some E_notification
  | Some (MSystemNotification _ _) => Some E_system_notification
  | Some (MError _ _) => Some E_error
  | _ => None
  end.

(** Data that [onmessage] drops: it does not parse, or it is a [pong]
    or a frame of a type the [switch] does not know. *)
Definition is_ignored (data : option WebSocketMessage) : bool :=
  match data with
  | None | Some MPong | Some (MUnknown _) => true
  | _ => false
  end.

(** ** Strings *)

(** [s.includes(pat)] *)
Fixpoint occurs (pat s : string) : bool :=
  String.prefix pat s
  || match s with
     | EmptyString => false
     | String _ s' => occurs pat s'
     end.

(** ** The shape of an identifier *)

Inductive CharClass : Type :=
| Hex             (* one of 0-9, a-f *)
| Variant         (* one of 8, 9, a, b *)
| Exactly (c : ascii).

Definition is_hex (c : ascii) : bool :=
  existsb (Ascii.eqb c)
          ["0"; "1"; "2"; "3"; "4"; "5"; "6"; "7"; "8"; "9";
           "a"; "b"; "c"; "d"; "e"; "f"]%char.

Definition in_class (k : CharClass) (c : ascii) : bool :=
  match k with
  | Hex => is_hex c
  | Variant => existsb (Ascii.eqb c) ["8"; "9"; "a"; "b"]%char
  | Exactly c' => Ascii.eqb c c'
  end.

Fixpoint has_shape (shape : list CharClass) (s : string) : bool :=
  match shape, s with
  | [], EmptyString => true
  | k :: shape', String c s' => in_class k c && has_shape shape' s'
  | _, _ => false
  end.

(** A version-4 UUID in its textual form: 8-4-4-4-12 hexadecimal digits,
    the first digit of the third group being [4] and the first digit of
    the fourth group one of [8], [9], [a], [b]. *)
Definition uuid_v4 : list CharClass :=
  replicate 8 Hex ++ [Exactly "-"%char] ++ replicate 4 Hex ++ [Exactly "-"%char]
  ++ [Exactly "4"%char] ++ replicate 3 Hex ++ [Exactly "-"%char]
  ++ [Variant] ++ replicate 3 Hex ++ [Exactly "-"%char] ++ replicate 12 Hex.

(** ** Kinds of events *)

(** The calls that are meant to change what the client is set up with:
    its listeners, its token and its configuration. *)
Definition is_setup_call (ev : Event) : bool :=
  match ev with
  | CallOn _ _ | CallOff _ _ | CallSetBearerToken _ | CallUpdateConfig _ => true
  | _ => false
  end.

(** The events that can change the durable table: the server's
    [subscription_confirmed], [unsubscribed] and [connected] frames and a
    call of [unsubscribe]. *)
Definition touches_table (ev : Event) : bool :=
  match ev with
  | CallUnsubscribe _
  | SocketMessage _ (Some (MSubscriptionConfirmed _ _ _ _))
  | SocketMessage _ (Some (MUnsubscribed _))
  | SocketMessage _ (Some (MConnected _ _ _)) => true
  | _ => false
  end.

Definition is_updateConfig (ev : Event) : bool :=
  match ev with CallUpdateConfig _ => true | _ => false end.

(** * The HTTP side of the SDK

    [src/utils/jsend.ts], the error class of [src/types/errors.ts], the
    pure methods of [HttpClient] ([src/utils/http.ts]) and the
    configuration built by [HlmrClient] ([src/client/HlmrClient.ts]).
    Numbers are integers, as before. *)

(** ** JavaScript values *)

Module Js.

(** A value as [JSON.parse] builds it, or [undefined]. An object is the
    list of its own properties in insertion order. *)
#[local] Unset Elimination Schemes.
Inductive JsValue : Type :=
| JUndefined
| JNull
| JBool (b : bool)
| JNum (n : Z)
| JStr (s : string)
| JArr (items : list JsValue)
| JObj (props : list (string * JsValue)).
#[local] Set Elimination Schemes.

Definition typeof (v : JsValue) : string :=
  match v with
  | JUndefined => "undefined"
  | JNull | JArr _ | JObj _ => "object"
  | JBool _ => "boolean"
  | JNum _ => "number"
  | JStr _ => "string"
  end.

(** [v === null] *)
Definition is_null (v : JsValue) : bool :=
  match v with JNull => true | _ => false end.

(** [v === "s"] for a string literal. *)
Definition is_str (s : string) (v : JsValue) : bool :=
  match v with JStr s' => String.eqb s' s | _ => false end.

(** [v === n] for a number literal. *)
Definition is_num (n : Z) (v : JsValue) : bool :=
  match v with JNum n' => Z.eqb n' n | _ => false end.

(** [ToBoolean]: what [!v], [v && ...] and [v || ...] test. *)
Definition to_boolean (v : JsValue) : bool :=
  match v with
  | JUndefined | JNull => false
  | JBool b => b
  | JNum n => negb (Z.eqb n 0)
  | JStr s => negb (String.eqb s "")
  | JArr _ | JObj _ => true
  end.

(** [a || b] *)
Definition or_else (a b : JsValue) : JsValue :=
  if to_boolean a then a else b.

(** [{ ...base, ...over }] on lists of own properties: a key of [over]
    replaces the value of the same key in place, a new key is added at
    the end. *)
Definition spread (base over : list (string * JsValue)) : list (string * JsValue) :=
  foldl (fun acc kv => jm_set kv.1 kv.2 acc) base over.

End Js.

(** ** Errors ([src/types/errors.ts]) *)

Module Errors.
Import Js.

(** An instance of [HlmrApiError]. [message] is the string stored by the
    constructor of [Error]; [originalError] is represented by the
    message of that error. *)
Record HlmrApiError : Type := mkHlmrApiError {
  message : string;
  statusCode : Z;
  code : JsValue;
  response : JsValue;
  originalError : option string
}.

(** What a [throw] can carry here. *)
Inductive Thrown : Type :=
| TypeError                       (* raised by the engine *)
| PlainError (message : string)   (* new Error(message) *)
| ApiError (e : HlmrApiError).

(** Evaluation returns a value or throws. *)
Inductive Completion (A : Type) : Type :=
| Normal (a : A)
| Abrupt (t : Thrown).
Arguments Normal {A} a.
Arguments Abrupt {A} t.

#[global] Instance Completion_ret : MRet Completion := fun A a => Normal a.

#[global] Instance Completion_bind : MBind Completion := fun A B f m =>
  match m with
  | Normal a => f a
  | Abrupt t => Abrupt t
  end.

(** [v.key], for the keys read by the SDK ([status], [data], [message],
    [detail], [code]), none of which is defined by a built-in prototype:
    reading from [undefined] or [null] throws, reading from anything but
    an object with that own property gives [undefined]. *)
Definition read (v : JsValue) (key : string) : Completion JsValue :=
  match v with
  | JUndefined | JNull => Abrupt TypeError
  | JObj props => Normal (default JUndefined (jm_get key props))
  | _ => Normal JUndefined
  end.

(** [key in v], for the same keys: throws unless [v] is an object. *)
Definition has (key : string) (v : JsValue) : Completion bool :=
  match v with
  | JObj props => Normal (jm_has key props)
  | JArr _ => Normal false
  | _ => Abrupt TypeError
  end.

Section Construction.
(** [String(n)] for a number. *)
Variable Number_toString : Z -> string.

(** [ToString], the conversion applied by [String(v)], by template
    literals and by the constructor of [Error]. An array joins its
    elements with commas, [null] and [undefined] elements counting as
    empty strings. An object gives "[object Object]" through the
    inherited [toString]; when an own property [toString] hides that
    method the conversion throws, since nothing in a value built by
    [JSON.parse] can be called and the inherited [valueOf] returns the
    object itself. *)
Fixpoint to_string (v : JsValue) : Completion string :=
  match v with
  | JUndefined => Normal "undefined"
  | JNull => Normal "null"
  | JBool true => Normal "true"
  | JBool false => Normal "false"
  | JNum n => Normal (Number_toString n)
  | JStr s => Normal s
  | JArr items =>
      (fix join (l : list JsValue) : Completion string :=
         match l with
         | [] => Normal ""
         | x :: l' =>
             sx ← match x with
                  | JUndefined | JNull => Normal ""
                  | _ => to_string x
                  end;
             match l' with
             | [] => Normal sx
             | _ :: _ => r ← join l'; Normal (sx +:+ "," +:+ r)
             end
         end) items
  | JObj props =>
      if jm_has "toString" props then Abrupt TypeError
      else Normal "[object Object]"
  end.

(** [new HlmrApiError(message, statusCode, code, response, originalError)]:
    [super(message)] stores [ToString(message)], and nothing when
    [message] is [undefined], in which case [message] reads as the empty
    string of [Error.prototype]. The other arguments are stored as they
    are. *)
Definition new_HlmrApiError (message : JsValue) (statusCode : Z)
  (code response : JsValue) (originalError : option string)
  : Completion HlmrApiError :=
  msg ← match message with
        | JUndefined => Normal ""
        | _ => to_string message
        end;
  mret (mkHlmrApiError msg statusCode code response originalError).

(** [HlmrApiError.fromJSendResponse(response, statusCode)] *)
Definition fromJSendResponse (response : JsValue) (statusCode : Z)
  : Completion HlmrApiError :=
  status ← read response "status";
  if is_str "fail" status then
    data ← read response "data";
    detail ← read data "detail";
    new_HlmrApiError (or_else detail (JStr "Validation failed")) statusCode
                     (JStr "VALIDATION_ERROR") response None
  else if is_str "error" status then
    msg ← read response "message";
    c ← read response "code";
    new_HlmrApiError (or_else msg (JStr "Server error")) statusCode
                     (or_else c (JStr "SERVER_ERROR")) response None
  else
    new_HlmrApiError (JStr "Unknown API error") statusCode
                     (JStr "UNKNOWN_ERROR") response None.
End Construction.

(** [HlmrApiError.networkError(originalError)]; the message is a template
    literal, a string already. *)
Definition networkError (originalError : string) : HlmrApiError :=
  mkHlmrApiError ("Network error: " +:+ originalError) 0
                 (JStr "NETWORK_ERROR") JUndefined (Some originalError).

(** [HlmrApiError.configError(message)] *)
Definition configError (msg : string) : HlmrApiError :=
  mkHlmrApiError ("Configuration error: " +:+ msg) 0
                 (JStr "CONFIG_ERROR") JUndefined None.

Definition isAuthError (e : HlmrApiError) : bool := Z.eqb (statusCode e) 401.

Definition isPermissionError (e : HlmrApiError) : bool := Z.eqb (statusCode e) 403.

Definition isValidationError (e : HlmrApiError) : bool :=
  Z.leb 400 (statusCode e) && Z.ltb (statusCode e) 500
  && is_str "VALIDATION_ERROR" (code e).

Definition isServerError (e : HlmrApiError) : bool := Z.leb 500 (statusCode e).

Definition isNetworkError (e : HlmrApiError) : bool :=
  is_str "NETWORK_ERROR" (code e).

Definition isTimeoutError (e : HlmrApiError) : bool :=
  is_str "TIMEOUT_ERROR" (code e).

End Errors.

(** ** The JSend helpers ([src/utils/jsend.ts]) *)

Module JSend.
Import Js Errors.

(** [['success', 'fail', 'error'].includes(v)] *)
Definition is_jsend_status (v : JsValue) : bool :=
  existsb (fun s => is_str s v) ["success"; "fail"; "error"].

(** The read of [status] cannot throw: it is reached only when
    [response] is neither [undefined] nor [null]. *)
Definition isJSendResponse (response : JsValue) : bool :=
  String.eqb (typeof response) "object"
  && negb (is_null response)
  && match read response "status" with
     | Normal status =>
         String.eqb (typeof status) "string" && is_jsend_status status
     | Abrupt _ => false
     end.

Definition isJSendSuccess (response : JsValue) : Completion bool :=
  status ← read response "status";
  if is_str "success" status then has "data" response else mret false.

Definition isJSendFail (response : JsValue) : Completion bool :=
  status ← read response "status";
  if is_str "fail" status then has "data" response else mret false.

Definition isJSendError (response : JsValue) : Completion bool :=
  status ← read response "status";
  if is_str "error" status then has "message" response else mret false.

Definition extractJSendData (response : JsValue) : Completion JsValue :=
  success ← isJSendSuccess response;
  if success : bool then read response "data"
  else Abrupt (PlainError "Response is not a JSend success response").

Definition createJSendSuccess (data : JsValue) : JsValue :=
  JObj [("status", JStr "success"); ("data", data)].

(** [additionalData] is [None] when the argument is left out. *)
Definition createJSendFail (detail : string)
  (additionalData : option (list (string * JsValue))) : JsValue :=
  JObj [("status", JStr "fail");
        ("data", JObj (spread [("detail", JStr detail)]
                              (default [] additionalData)))].

(** [code] is [JUndefined] when the argument is left out; spreading a
    falsy [code] adds nothing. *)
Definition createJSendError (msg : string) (c : JsValue) : JsValue :=
  JObj (spread [("status", JStr "error"); ("message", JStr msg)]
               (if to_boolean c then [("code", c)] else [])).

End JSend.

(** ** The HTTP client ([src/utils/http.ts]) *)

Module HttpClient.
Import Js Errors JSend.

(** [HlmrClientConfig]. A field that is [undefined] is [None];
    [baseUrl] is declared a string but is whatever [buildConfig] of
    [HlmrClient] computed. *)
Record HlmrClientConfig : Type := mkHlmrClientConfig {
  baseUrl : option string;
  appId : string;
  bearerToken : option string;
  timeout : option Z;
  customHeaders : option (gmap string string);
  debug : option bool
}.

Record RequestOptions : Type := mkRequestOptions {
  headers : option (gmap string string);
  req_timeout : option Z;
  skipAuth : option bool;
  apiVersion : option string
}.

(** [options = {}] *)
Definition no_options : RequestOptions := mkRequestOptions None None None None.

Definition setBearerToken (token : string) (config : HlmrClientConfig)
  : HlmrClientConfig :=
  mkHlmrClientConfig (baseUrl config) (appId config) (Some token)
                     (timeout config) (customHeaders config) (debug config).

(** [delete this.config.bearerToken] *)
Definition clearBearerToken (config : HlmrClientConfig) : HlmrClientConfig :=
  mkHlmrClientConfig (baseUrl config) (appId config) None
                     (timeout config) (customHeaders config) (debug config).

(** [s.replace(/\/$/, '')] *)
Fixpoint strip_trailing_slash (s : string) : string :=
  match s with
  | EmptyString => EmptyString
  | String c EmptyString => if Ascii.eqb c "/" then EmptyString else s
  | String c s' => String c (strip_trailing_slash s')
  end.

(** [s.replace(/^\//, '')] *)
Definition strip_leading_slash (s : string) : string :=
  match s with
  | String c s' => if Ascii.eqb c "/" then s' else s
  | EmptyString => EmptyString
  end.

(** [\d] *)
Definition is_digit (c : ascii) : bool :=
  existsb (Ascii.eqb c) ["0"; "1"; "2"; "3"; "4"; "5"; "6"; "7"; "8"; "9"]%char.

Fixpoint skip_digits (s : string) : string :=
  match s with
  | String c s' => if is_digit c then skip_digits s' else s
  | EmptyString => EmptyString
  end.

(** [s.match(/^v\d+\//)] is not [null]. *)
Definition has_version_prefix (s : string) : bool :=
  match s with
  | String v (String d s') =>
      Ascii.eqb v "v" && is_digit d
      && match skip_digits s' with
         | String c _ => Ascii.eqb c "/"
         | EmptyString => false
         end
  | _ => false
  end.

(** [buildUrl(path, apiVersion = 'v1')]; calling [replace] on an
    undefined [baseUrl] throws. *)
Definition buildUrl (config : HlmrClientConfig) (path : string)
  (version : option string) : Completion string :=
  match baseUrl config with
  | None => Abrupt TypeError
  | Some b =>
      let baseUrl := strip_trailing_slash b in
      let cleanPath := strip_leading_slash path in
      if has_version_prefix cleanPath then
        Normal (baseUrl +:+ "/" +:+ cleanPath)
      else
        Normal (baseUrl +:+ "/" +:+ default "v1" version +:+ "/" +:+ cleanPath)
  end.

(** Truthiness of [string | undefined]. *)
Definition nonempty (o : option string) : bool :=
  match o with Some t => negb (String.eqb t "") | None => false end.

(** [buildHeaders(options = {})]: in an object literal a later key
    replaces an earlier one, hence the left-biased unions. *)
Definition buildHeaders (config : HlmrClientConfig) (options : RequestOptions)
  : gmap string string :=
  let headers :=
    default ∅ (headers options)
    ∪ default ∅ (customHeaders config)
    ∪ {[ "Content-Type" := "application/json"; "X-App-ID" := appId config ]} in
  if nonempty (bearerToken config) && negb (default false (skipAuth options)) then
    <[ "Authorization" := "Bearer " +:+ default "" (bearerToken config) ]> headers
  else headers.

Record HttpResponse : Type := mkHttpResponse {
  status : Z;
  statusText : string;
  resp_headers : gmap string string;
  data : JsValue
}.

Section Response.
(** [String(n)] for a number. *)
Variable Number_toString : Z -> string.

(** [processResponse(response)] from the point where the body has been
    read into [data]; [ok], [status], [statusText] and [headers] are
    those of [response]. *)
Definition processResponse (ok : bool) (status : Z) (statusText : string)
  (headers : gmap string string) (data : JsValue) : Completion HttpResponse :=
  let otherwise : Completion HttpResponse :=
    if negb ok then
      Abrupt (ApiError (mkHlmrApiError
                ("HTTP " +:+ Number_toString status +:+ ": " +:+ statusText)
                status (JStr "HTTP_ERROR") JUndefined None))
    else Normal (mkHttpResponse status statusText headers data) in
  if isJSendResponse data then
    if negb ok then
      e ← fromJSendResponse Number_toString data status; Abrupt (ApiError e)
    else
      success ← isJSendSuccess data;
      if success : bool then
        inner ← read data "data";
        mret (mkHttpResponse status statusText headers inner)
      else otherwise
  else otherwise.
End Response.

End HttpClient.

(** ** The client ([src/client/HlmrClient.ts], [src/types/common.ts]) *)

Module HlmrClient.
Import Js Errors HttpClient.

Record Environment : Type := mkEnvironment {
  name : string;
  url : string;
  description : option string
}.

Definition production : Environment :=
  mkEnvironment "production" "https://api.hlmr.io"
                (Some "Environnement de production").

Definition development : Environment :=
  mkEnvironment "development" "https://api.dev.hlmr.io"
                (Some "Environnement de développement").

Definition staging : Environment :=
  mkEnvironment "staging" "https://api.stg.hlmr.io"
                (Some "Environnement de staging").

(** The properties every object inherits from [Object.prototype]. *)
Definition Object_prototype : list string :=
  ["constructor"; "__defineGetter__"; "__defineSetter__"; "hasOwnProperty";
   "__lookupGetter__"; "__lookupSetter__"; "isPrototypeOf";
   "propertyIsEnumerable"; "toString"; "valueOf"; "__proto__";
   "toLocaleString"].

(** What [ENVIRONMENTS[key]] evaluates to: one of the three
    environments, an inherited property (a function or
    [Object.prototype] itself: truthy, without [url]), or [undefined]. *)
Inductive Lookup : Type :=
| Own (env : Environment)
| Inherited
| Missing.

Definition ENVIRONMENTS (key : string) : Lookup :=
  if String.eqb key "production" then Own production
  else if String.eqb key "development" then Own development
  else if String.eqb key "staging" then Own staging
  else if existsb (String.eqb key) Object_prototype then Inherited
  else Missing.

(** [options.environment] when it is given. *)
Inductive EnvironmentOption : Type :=
| Named (key : string)
| Custom (env : Environment).

(** [options.config] *)
Record AdvancedConfig : Type := mkAdvancedConfig {
  adv_timeout : option Z;
  adv_customHeaders : option (gmap string string);
  adv_debug : option bool
}.

Record HlmrClientOptions : Type := mkHlmrClientOptions {
  environment : option EnvironmentOption;
  opt_appId : string;
  opt_bearerToken : option string;
  config : option AdvancedConfig
}.

(** [a || b] on numbers: zero is falsy. *)
Definition num_or (a : option Z) (b : Z) : Z :=
  match a with
  | Some n => if Z.eqb n 0 then b else n
  | None => b
  end.

Definition buildConfig (options : HlmrClientOptions)
  : Completion HlmrClientConfig :=
  baseUrl ←
    match environment options with
    | Some (Named key) =>
        match ENVIRONMENTS key with
        | Own env => Normal (Some (url env))
        | Inherited => Normal None
        | Missing =>
            Abrupt (ApiError (configError ("Unknown environment: " +:+ key)))
        end
    | Some (Custom env) => Normal (Some (url env))
    | None => Normal (Some (url production))
    end;
  if String.eqb (opt_appId options) "" then
    Abrupt (ApiError (configError "appId is required and must be a string"))
  else
    mret (mkHlmrClientConfig
            baseUrl (opt_appId options) (opt_bearerToken options)
            (Some (num_or (config options ≫= adv_timeout) 30000))
            (Some (default ∅ (config options ≫= adv_customHeaders)))
            (Some (default false (config options ≫= adv_debug)))).

(** [client.setBearerToken(token)] on the configuration of the HTTP
    client. *)
Definition setBearerToken (token : string) (http : HlmrClientConfig)
  : Completion HlmrClientConfig :=
  if String.eqb token "" then
    Abrupt (ApiError (configError "Bearer token must be a non-empty string"))
  else Normal (HttpClient.setBearerToken token http).

Definition clearBearerToken (http : HlmrClientConfig) : HlmrClientConfig :=
  HttpClient.clearBearerToken http.

End HlmrClient.

(** ** The table a replay rebuilds *)

(** The identifiers carried by the subscribe frames of a trace. *)
Fixpoint subscribe_ids (es : list Effect) : list string :=
  match es with
  | [] => []
  | WsSend _ (FSubscribe id _ _ _ _) :: es' => id :: subscribe_ids es'
  | _ :: es' => subscribe_ids es'
  end.

(** Going through the re-requests in order: a confirmed one records the
    data of the entry it replays under the identifier of the re-request,
    one that timed out records nothing. *)
Fixpoint rebuilt (ids : list string) (entries : list SubscriptionData)
  (os : list Outcome) (table : JsMap string SubscriptionData)
  : JsMap string SubscriptionData :=
  match ids, entries, os with
  | id :: ids', entry :: entries', o :: os' =>
      rebuilt ids' entries' os'
              match o with
              | Confirmed _ _ _ => jm_set id entry table
              | TimedOut => table
              end
  | _, _, _ => table
  end.

(** A replay is suspended on the re-request [id] of the entry [cur],
    sent in the step whose trace is [es], with [rest] still to come. *)
Record replaying_entry (k : nat) (id : string) (cur : SubscriptionData)
  (rest : list (string * SubscriptionData)) (s : State) (es : list Effect)
  : Prop := mkReplayingEntry {
  re_ws : ws s = Some k;
  re_open : socket_state s k = Some OPEN;
  re_ids : subscribe_ids es = [id];
  re_await : exists p h,
      replays s = [mkReplay p rest] /\
      last (sub_timers es) = Some (h, id) /\
      timers s !! h = Some (TSubscription id p) /\
      jm_get id (pendingSubscriptions s) = Some (mkPending p cur) /\
      promises s !! p = Some Pending
}.

(* ================================================================= *)
(** * Properties *)

Ltac msimpl :=
  repeat (progress (cbv beta iota delta
                      [mbind M_bind mret M_ret get modify tell throw try_catch];
                    cbn [fst snd app forEach mapM])).

Tactic Notation "msimpl" "in" hyp(H) :=
  repeat (progress (cbv beta iota delta
                      [mbind M_bind mret M_ret get modify tell throw try_catch] in H;
                    cbn [fst snd app forEach mapM] in H)).

Lemma bind_run {A B : Type} (m : M A) (f : A -> M B) (s : State) :
  (m ≫= f) s =
  match m s with
  | (Ok a, s1, es1) =>
      match f a s1 with
      | (r, s2, es2) => (r, s2, es1 ++ es2)
      end
  | (Throw e, s1, es1) => (Throw e, s1, es1)
  end.
Proof. reflexivity. Qed.

Lemma emit_one_spec event args cb s :
  emit_one event args cb s = (Ok tt, s, listener_trace event args cb).
Proof.
  unfold emit_one, call, listener_trace. msimpl.
  destruct (cb_run cb event args); reflexivity.
Qed.

Lemma _emit_spec event args s :
  _emit event args s = (Ok tt, s, emit_trace (listeners s) event args).
Proof.
  unfold _emit, emit_trace. rewrite bind_run. cbn.
  destruct (jm_get event (listeners s)) as [set|]; [|reflexivity].
  assert (H : forEach (emit_one event args) set s
              = (Ok tt, s, concat (map (listener_trace event args) set))).
  { induction set as [|cb set IH]; [reflexivity|].
    cbn [forEach map concat]. rewrite bind_run, emit_one_spec, IH. reflexivity. }
  rewrite H. reflexivity.
Qed.

Ltac proj_simpl :=
  cbn [config ws pingIntervalId reconnectAttempts reconnectTimeoutId isConnecting
       isManualDisconnect subscriptions pendingSubscriptions listeners userId
       bearerToken authResolve authReject baseUrl sockets timers nextTimer
       promises randomCalls Math_random16 replays
       set_config set_ws set_pingIntervalId set_reconnectAttempts
       set_reconnectTimeoutId set_isConnecting set_isManualDisconnect
       set_subscriptions set_pendingSubscriptions set_listeners set_userId
       set_bearerToken set_authResolve set_authReject set_sockets set_timers
       set_nextTimer set_promises set_randomCalls set_replays
       readyState sk_promise sk_timeout set_readyState
       fst snd app forEach mapM negb andb orb].

Tactic Notation "proj_simpl" "in" hyp(H) :=
  cbn [config ws pingIntervalId reconnectAttempts reconnectTimeoutId isConnecting
       isManualDisconnect subscriptions pendingSubscriptions listeners userId
       bearerToken authResolve authReject baseUrl sockets timers nextTimer
       promises randomCalls Math_random16 replays
       set_config set_ws set_pingIntervalId set_reconnectAttempts
       set_reconnectTimeoutId set_isConnecting set_isManualDisconnect
       set_subscriptions set_pendingSubscriptions set_listeners set_userId
       set_bearerToken set_authResolve set_authReject set_sockets set_timers
       set_nextTimer set_promises set_randomCalls set_replays
       readyState sk_promise sk_timeout set_readyState
       fst snd app forEach mapM negb andb orb] in H.

(** One step of symbolic execution of a method. *)
(** The argument checks of [close] on the constants the module passes. *)
Ltac close_simpl :=
  repeat match goal with
    | |- context [valid_close_code ?c] =>
        let b := eval vm_compute in (valid_close_code c) in
        change (valid_close_code c) with b
    | |- context [valid_close_reason ?r] =>
        let b := eval vm_compute in (valid_close_reason r) in
        change (valid_close_reason r) with b
    end;
  cbn [negb].

Ltac mstep :=
  first
    [ progress (cbv beta iota delta
                  [mbind M_bind mret M_ret get modify tell throw try_catch])
    | progress proj_simpl
    | progress close_simpl
    | rewrite _emit_spec ].

(** Case analysis on an innermost scrutinee of the goal. *)
Ltac case_inner :=
  match goal with
  | |- context [match ?x with _ => _ end] =>
      lazymatch x with
      | context [match _ with _ => _ end] => fail
      | _ => first [ is_var x; destruct x
                   | let E := fresh "E" in destruct x eqn:E ]
      end
  end.

(** Use what is known about a scrutinee instead of splitting on it. *)
Ltac use_hyps :=
  match goal with
  | H : ?x = _ |- context [match ?y with _ => _ end] =>
      match y with context [x] => rewrite H end
  end.

Ltac crunch := repeat (first [ mstep | use_hyps | case_inner ]).

(** *** Promises *)

Lemma settle_in_length p st ps : length (settle_in p st ps) = length ps.
Proof.
  unfold settle_in. destruct (ps !! p) as [[]|]; auto. apply length_insert.
Qed.

Lemma settle_in_lookup_ne p q st (ps : list PromiseState) :
  p <> q -> settle_in p st ps !! q = ps !! q.
Proof.
  intros. unfold settle_in. destruct (ps !! p) as [[]|]; auto.
  by apply list_lookup_insert_ne.
Qed.

Lemma settle_in_lookup_pending p st (ps : list PromiseState) :
  ps !! p = Some Pending -> settle_in p st ps !! p = Some st.
Proof.
  intros H. unfold settle_in. rewrite H.
  apply list_lookup_insert_eq. by eapply lookup_lt_Some.
Qed.

Lemma settle_in_settled p st st0 (ps : list PromiseState) :
  ps !! p = Some st0 -> settled st0 = true -> settle_in p st ps = ps.
Proof. intros H Hs. unfold settle_in. rewrite H. by destruct st0. Qed.

Lemma settle_in_fresh st (ps : list PromiseState) :
  settle_in (length ps) st (ps ++ [Pending]) = ps ++ [st].
Proof.
  unfold settle_in. rewrite lookup_app_r by lia. rewrite Nat.sub_diag. cbn.
  rewrite insert_app_r_alt by lia. rewrite Nat.sub_diag. reflexivity.
Qed.

(** *** The frame of [subscribe] and of the micro-tasks *)

Lemma frame_refl s : frame s s.
Proof. split; auto. Qed.

Lemma frame_trans s1 s2 s3 : frame s1 s2 -> frame s2 s3 -> frame s1 s3.
Proof.
  intros [] []. split.
  - congruence.
  - lia.
  - intros h Hh. rewrite fr_old_timers1 by lia. auto.
  - intros h t Ht. destruct (fr_new_timers1 _ _ Ht) as [H|H]; auto.
  - lia.
  - intros p Hp. rewrite fr_old_promises1 by lia. auto.
Qed.

Lemma frame_set_replays rs s : frame s (set_replays rs s).
Proof. split; auto. Qed.

Lemma subscribe_frame d r o s :
  exists s' es, subscribe d r o s = (Ok (length (promises s)), s', es) /\
    frame s s' /\ Forall only_subscription_effect es.
Proof.
  unfold subscribe, rejected_promise, newPromise, reject, _generateId, ws_send,
    socket_send, setTimeout.
  crunch; eexists _, _; (split; [reflexivity|]); (split; [split|]); proj_simpl.
  all: rewrite ?settle_in_length, ?length_app; cbn [length].
  all: try lia.
  all: try reflexivity.
  all: try (intros h Hh; rewrite ?lookup_insert_ne by lia; reflexivity).
  all: try (intros h t; rewrite ?lookup_insert; try case_decide; intros;
            simplify_eq; eauto; fail).
  all: try (intros p Hp; rewrite ?settle_in_lookup_ne by lia;
            rewrite ?lookup_app_l by lia; reflexivity).
  all: repeat constructor.
Qed.

Lemma resubscribe_loop_frame rest : forall awaiting s,
  exists r s' es, resubscribe_loop awaiting rest s = (Ok r, s', es) /\
    frame s s' /\ Forall only_subscription_effect es.
Proof.
  induction rest as [|[id sub] rest IH]; intros awaiting s; cbn [resubscribe_loop];
    rewrite bind_run; cbn [get]; destruct (settled (promise_state s awaiting)).
  - eexists _, _, _. split; [reflexivity|]. split; [apply frame_refl|constructor].
  - eexists _, _, _. split; [reflexivity|]. split; [apply frame_refl|constructor].
  - rewrite bind_run.
    destruct (subscribe_frame (domain sub) (resource sub) (options sub) s)
      as (s1 & es1 & -> & F1 & E1).
    destruct (IH (length (promises s)) s1) as (r & s2 & es2 & -> & F2 & E2).
    eexists _, _, _. split; [reflexivity|].
    split; [eapply frame_trans; eauto|]. cbn. by apply Forall_app.
  - eexists _, _, _. split; [reflexivity|]. split; [apply frame_refl|constructor].
Qed.

Lemma mapM_resubscribe_frame rs : forall s,
  exists l s' es,
    mapM (fun r => resubscribe_loop (rp_awaiting r) (rp_rest r)) rs s
    = (Ok l, s', es) /\ frame s s' /\ Forall only_subscription_effect es.
Proof.
  induction rs as [|r rs IH]; intros s; cbn [mapM].
  - eexists _, _, _. split; [reflexivity|]. split; [apply frame_refl|constructor].
  - rewrite bind_run.
    destruct (resubscribe_loop_frame (rp_rest r) (rp_awaiting r) s)
      as (x & s1 & es1 & -> & F1 & E1).
    rewrite bind_run. destruct (IH s1) as (l & s2 & es2 & -> & F2 & E2).
    eexists _, _, _. split; [reflexivity|].
    split; [eapply frame_trans; eauto|]. cbn. rewrite app_nil_r. by apply Forall_app.
Qed.

Lemma drain_frame s :
  exists s' es, task drain s = (s', es) /\ frame s s' /\
    Forall only_subscription_effect es.
Proof.
  unfold task, drain. rewrite bind_run. cbn [get]. rewrite bind_run. cbn [modify].
  rewrite bind_run.
  destruct (mapM_resubscribe_frame (replays s) (set_replays [] s))
    as (l & s1 & es1 & -> & F1 & E1).
  cbn [modify]. eexists _, _. split; [reflexivity|]. split.
  - eapply frame_trans; [apply frame_set_replays|].
    eapply frame_trans; [apply F1|apply frame_set_replays].
  - cbn. by rewrite app_nil_r.
Qed.

Lemma step_frame s ev :
  exists s1 es1 s2 es2,
    task (handle ev) s = (s1, es1) /\ step s ev = (s2, es1 ++ es2) /\
    frame s1 s2 /\ Forall only_subscription_effect es2.
Proof.
  unfold step. destruct (task (handle ev) s) as [s1 es1].
  destruct (drain_frame s1) as (s2 & es2 & -> & F & E).
  by eexists _, _, _, _.
Qed.

Lemma reconnect_delays_app es1 es2 :
  reconnect_delays (es1 ++ es2) = reconnect_delays es1 ++ reconnect_delays es2.
Proof.
  induction es1 as [|[| | |? [] ?| | | | |] es1 IH]; cbn; by rewrite ?IH.
Qed.

Lemma sockets_created_app es1 es2 :
  sockets_created (es1 ++ es2) = sockets_created es1 ++ sockets_created es2.
Proof. induction es1 as [|[] es1 IH]; cbn; by rewrite ?IH. Qed.

Lemma invoked_app es1 es2 : invoked (es1 ++ es2) = invoked es1 ++ invoked es2.
Proof. induction es1 as [|[] es1 IH]; cbn; by rewrite ?IH. Qed.

Lemma frames_sent_app es1 es2 :
  frames_sent (es1 ++ es2) = frames_sent es1 ++ frames_sent es2.
Proof. induction es1 as [|[] es1 IH]; cbn; by rewrite ?IH. Qed.

Lemma closes_app es1 es2 : closes (es1 ++ es2) = closes es1 ++ closes es2.
Proof. induction es1 as [|[] es1 IH]; cbn; by rewrite ?IH. Qed.

Lemma subscription_effects_quiet es :
  Forall only_subscription_effect es ->
  reconnect_delays es = [] /\ sockets_created es = [] /\ invoked es = [] /\
  closes es = [].
Proof.
  induction 1 as [|e es He _ (IH1 & IH2 & IH3 & IH4)]; [done|].
  destruct e as [| |? | ? [] ?| | | | |]; cbn in *; done.
Qed.

Lemma invoked_emit_trace ls event args :
  invoked (emit_trace ls event args)
  = map cb_id (default [] (jm_get event ls)).
Proof.
  unfold emit_trace. destruct (jm_get event ls) as [set|]; [|done].
  cbn. induction set as [|cb set IH]; [done|].
  cbn [map concat]. rewrite invoked_app, IH. unfold listener_trace.
  by destruct (cb_run cb event args).
Qed.

Lemma emit_trace_quiet ls event args :
  reconnect_delays (emit_trace ls event args) = [] /\
  sockets_created (emit_trace ls event args) = [] /\
  frames_sent (emit_trace ls event args) = [] /\
  closes (emit_trace ls event args) = [].
Proof.
  unfold emit_trace. destruct (jm_get event ls) as [set|]; [|done].
  induction set as [|cb set (IH1 & IH2 & IH3 & IH4)]; [done|].
  cbn [map concat].
  rewrite reconnect_delays_app, sockets_created_app, frames_sent_app, closes_app,
    IH1, IH2, IH3, IH4.
  unfold listener_trace. by destruct (cb_run cb event args).
Qed.

Lemma reconnect_delays_emit ls event args :
  reconnect_delays (emit_trace ls event args) = [].
Proof. apply emit_trace_quiet. Qed.

Lemma sockets_created_emit ls event args :
  sockets_created (emit_trace ls event args) = [].
Proof. apply emit_trace_quiet. Qed.

Lemma frames_sent_emit ls event args :
  frames_sent (emit_trace ls event args) = [].
Proof. apply emit_trace_quiet. Qed.

Lemma closes_emit ls event args : closes (emit_trace ls event args) = [].
Proof. apply emit_trace_quiet. Qed.

(** Normalise the projections of a symbolic trace. *)
Ltac trace_simpl :=
  repeat (first
    [ progress cbn [reconnect_delays sockets_created frames_sent invoked closes app]
    | rewrite reconnect_delays_app | rewrite sockets_created_app
    | rewrite frames_sent_app | rewrite invoked_app | rewrite closes_app
    | rewrite reconnect_delays_emit | rewrite sockets_created_emit
    | rewrite frames_sent_emit | rewrite closes_emit ]).

Lemma console_error_in_emit_trace ls event args set cb err :
  jm_get event ls = Some set -> cb ∈ set ->
  cb_run cb event args = Some err ->
  ConsoleError event err ∈ emit_trace ls event args.
Proof.
  intros Hl Hin Hrun. unfold emit_trace. rewrite Hl. clear Hl.
  induction Hin as [cb set|cb cb' set Hin IH]; cbn [map concat];
    apply elem_of_app.
  - left. unfold listener_trace. rewrite Hrun. set_solver.
  - right. by apply IH.
Qed.

(** *** Listeners *)

Ltac known_call :=
  match goal with
  | |- context [subscribe ?d ?r ?o ?s] =>
      let F := fresh "F" in
      let E := fresh "E" in
      destruct (subscribe_frame d r o s) as (? & ? & -> & F & E)
  end.

Ltac exec := repeat (first [ mstep | use_hyps | known_call | case_inner ]).

Lemma _handleMessage_total message :
  (forall err, message <> MAuthError err) -> never_throws (_handleMessage message).
Proof.
  intros Hne s.
  destruct message; try (exfalso; eapply Hne; reflexivity);
    unfold _handleMessage, _handleSubscriptionConfirmed, _startPingInterval,
      setInterval, _resubscribeAll, resolve, reject.
  all: exec.
  all: eauto.
Qed.

Lemma onmessage_total data : never_throws (onmessage data).
Proof.
  intros s. unfold onmessage, try_catch. destruct data as [m|].
  - destruct (_handleMessage m s) as [[[[]|e] s'] es]; eauto.
  - unfold throw. eauto.
Qed.

(** C9. Whatever listeners are registered for an event, [_emit] calls
    every one of them, once and in registration order, even when some of
    them throw; what a listener throws is caught and logged with
    [console.error]; [_emit] itself never throws, and neither does the
    handling of an inbound frame that reaches listeners (every frame but
    [auth_error], which calls none), nor [onmessage] on any frame, so the
    exception cannot reach the socket's [onmessage] path. *)
Theorem emit_isolates_listeners (event : EventName) (args : Payload) (s : State) :
  exists es,
    _emit event args s = (Ok tt, s, es) /\
    invoked es = map cb_id (default [] (jm_get event (listeners s))) /\
    (forall cb err,
        cb ∈ default [] (jm_get event (listeners s)) ->
        cb_run cb event args = Some err -> ConsoleError event err ∈ es) /\
    never_throws (_emit event args) /\
    (forall message, (forall err, message <> MAuthError err) ->
                     never_throws (_handleMessage message)) /\
    (forall k data, never_throws (handle (SocketMessage k data))).
Proof.
  exists (emit_trace (listeners s) event args). split; [apply _emit_spec|].
  split; [apply invoked_emit_trace|]. split; [|split; [|split]].
  - intros cb err Hin Hrun.
    destruct (jm_get event (listeners s)) as [set|] eqn:E; [|inversion Hin].
    eapply console_error_in_emit_trace; eauto.
  - intros s1. rewrite _emit_spec. eauto.
  - apply _handleMessage_total.
  - intros k data s1. unfold handle.
    mstep. destruct (socket_state s1 k) as [[]|]; eauto.
    all: destruct (onmessage_total data s1) as ([] & ? & ? & ->); eauto.
Qed.

(** *** Reconnection *)

Lemma close_schedules s k sk code reason :
  sockets s !! k = Some sk -> readyState sk <> CLOSED ->
  isManualDisconnect s = false -> autoReconnect (config s) = true ->
  (Z.of_nat (reconnectAttempts s) < maxReconnectAttempts (config s))%Z ->
  exists s' es,
    task (handle (SocketClose k code reason)) s = (s', es) /\
    reconnect_delays es = [backoff_delay (config s) (S (reconnectAttempts s))] /\
    sockets_created es = [] /\
    reconnectAttempts s' = S (reconnectAttempts s) /\
    reconnectTimeoutId s' = Some (nextTimer s) /\
    timers s' !! nextTimer s = Some TReconnect /\
    nextTimer s' = S (nextTimer s) /\
    config s' = config s /\ ws s' = ws s /\ isManualDisconnect s' = false /\
    sockets s' = <[k := set_readyState CLOSED sk]> (sockets s) /\
    listeners s' = listeners s /\
    (forall h t, timers s' !! h = Some t ->
                 h = nextTimer s \/ timers s !! h = Some t).
Proof.
  intros Hk Hlive Hman Hauto Hlt.
  apply Z.leb_gt in Hlt.
  unfold task, handle, onclose, set_socket_state, _stopPingInterval, clearTimer,
    reject, _scheduleReconnect, setTimeout.
  crunch; try congruence.
  all: eexists _, _; (split; [reflexivity|]); proj_simpl; trace_simpl.
  all: rewrite lookup_insert_eq; repeat (split; [done|]).
  all: intros h t H;
    repeat (first [ rewrite lookup_insert in H | rewrite lookup_delete in H ]);
    repeat case_decide; simplify_eq; auto.
Qed.

Lemma backoff_delay_mono cfg (i j : nat) :
  (0 <= reconnectDelay cfg)%Z -> 1 <= i -> i <= j ->
  (backoff_delay cfg i <= backoff_delay cfg j)%Z.
Proof.
  intros Hd Hi Hij. unfold backoff_delay.
  apply Z.min_le_compat_r, Z.mul_le_mono_nonneg_l; [done|].
  apply Z.pow_le_mono_r; lia.
Qed.

Lemma core_eq s s' :
  core s' = core s ->
  config s' = config s /\ ws s' = ws s /\
  pingIntervalId s' = pingIntervalId s /\
  reconnectAttempts s' = reconnectAttempts s /\
  reconnectTimeoutId s' = reconnectTimeoutId s /\
  isConnecting s' = isConnecting s /\
  isManualDisconnect s' = isManualDisconnect s /\
  subscriptions s' = subscriptions s /\ listeners s' = listeners s /\
  userId s' = userId s /\ bearerToken s' = bearerToken s /\
  authResolve s' = authResolve s /\ authReject s' = authReject s /\
  baseUrl s' = baseUrl s /\ sockets s' = sockets s /\
  Math_random16 s' = Math_random16 s.
Proof. unfold core. intros H. by simplify_eq. Qed.

(** Bring the equalities packed in a [frame] into the context. *)
Ltac open_frame F :=
  let Hc := fresh "Hc" in
  pose proof (core_eq _ _ (fr_core _ _ F)) as Hc;
  destruct Hc as (? & ? & ? & ? & ? & ? & ? & ? & ? & ? & ? & ? & ? & ? & ? & ?).

(** C1. When a socket closes involuntarily with [autoReconnect] on and the
    attempt about to be scheduled is number [n] (at least 1, at most
    [maxReconnectAttempts]), exactly one retry is armed, with delay
    [min (reconnectDelay * 2^(n-1)) maxReconnectDelay]; these delays never
    decrease from one attempt number to a later one and never exceed
    [maxReconnectDelay]; and the counter already reads [n] while the retry
    is still pending (armed timer, no socket created yet). Milliseconds
    are taken non-negative. *)
Theorem reconnect_backoff (s : State) (k : nat) (sk : Socket) (code : Z)
  (reason : string) (n : nat) :
  sockets s !! k = Some sk -> readyState sk <> CLOSED ->
  isManualDisconnect s = false ->
  autoReconnect (config s) = true ->
  n = S (reconnectAttempts s) ->
  (Z.of_nat n <= maxReconnectAttempts (config s))%Z ->
  (0 <= reconnectDelay (config s))%Z ->
  let delay (i : nat) :=
    Z.min (reconnectDelay (config s) * 2 ^ (Z.of_nat i - 1))
          (maxReconnectDelay (config s)) in
  let s' := (step s (SocketClose k code reason)).1 in
  let es := (step s (SocketClose k code reason)).2 in
  reconnect_delays es = [delay n] /\
  (forall i j : nat, 1 <= i -> i <= j -> (delay i <= delay j)%Z) /\
  (forall i : nat, (delay i <= maxReconnectDelay (config s))%Z) /\
  reconnectAttempts s' = n /\
  (exists h, reconnectTimeoutId s' = Some h /\ timers s' !! h = Some TReconnect) /\
  sockets_created es = [].
Proof.
  intros Hk Hlive Hman Hauto -> Hle Hd delay s' es.
  destruct (close_schedules s k sk code reason)
    as (s1 & es1 & Ht & Hdel & Hnew & Hatt & Hid & Htim & Hnext & _);
    [done..|lia|].
  destruct (step_frame s (SocketClose k code reason))
    as (s1' & es1' & s2 & es2 & Ht' & Hstep & F & Hsub).
  rewrite Ht in Ht'. simplify_eq.
  subst s' es. rewrite Hstep. cbn [fst snd].
  destruct (subscription_effects_quiet _ Hsub) as (Hq1 & Hq2 & _).
  open_frame F.
  rewrite reconnect_delays_app, sockets_created_app, Hdel, Hnew, Hq1, Hq2.
  split; [done|]. split; [intros; by apply backoff_delay_mono|].
  split; [intros; apply Z.le_min_r|]. split; [congruence|]. split; [|done].
  exists (nextTimer s). split; [congruence|].
  rewrite (fr_old_timers _ _ F) by lia. done.
Qed.

(** *** Manual disconnect *)

Lemma settle_in_keeps q x p st (ps : list PromiseState) :
  ps !! p = Some st -> settled st = true -> settle_in q x ps !! p = Some st.
Proof.
  intros H Hs. destruct (decide (q = p)) as [->|Hne].
  - by rewrite (settle_in_settled _ _ _ _ H Hs).
  - by rewrite settle_in_lookup_ne.
Qed.

Lemma reject_all_keeps e l : forall (ps : list PromiseState) p st,
  ps !! p = Some st -> settled st = true -> reject_all e l ps !! p = Some st.
Proof.
  induction l as [|x l IH]; intros ps p st H Hs; cbn; [done|].
  apply IH; [|done]. by apply settle_in_keeps.
Qed.

Lemma reject_all_rejects e l : forall (ps : list PromiseState) pending,
  pending ∈ l -> ps !! p_promise pending = Some Pending ->
  reject_all e l ps !! p_promise pending = Some (Rejected e).
Proof.
  induction l as [|x l IH]; intros ps pending Hin Hp; [inversion Hin|].
  cbn. apply elem_of_cons in Hin as [->|Hin].
  - apply reject_all_keeps; [|done]. by apply settle_in_lookup_pending.
  - destruct (decide (p_promise x = p_promise pending)) as [Heq|Hne].
    + apply reject_all_keeps; [|done]. rewrite Heq.
      by apply settle_in_lookup_pending.
    + apply IH; [done|]. by rewrite settle_in_lookup_ne.
Qed.

Lemma jm_get_values {K V : Type} `{EqDecision K} (k : K) (v : V) (m : JsMap K V) :
  jm_get k m = Some v -> v ∈ jm_values m.
Proof.
  induction m as [|[k' v'] m IH]; cbn; [done|].
  case_decide; intros; simplify_eq.
  - apply list_elem_of_here.
  - apply list_elem_of_further. auto.
Qed.

Lemma set_promises_id s : set_promises (promises s) s = s.
Proof. by destruct s. Qed.

Lemma forEach_reject e l : forall s,
  forEach (fun pending => reject (p_promise pending) e) l s
  = (Ok tt, set_promises (reject_all e l (promises s)) s, []).
Proof.
  induction l as [|x l IH]; intros s; cbn [forEach reject_all foldl].
  - by rewrite set_promises_id.
  - rewrite bind_run. unfold reject at 1. cbn [modify]. rewrite IH. reflexivity.
Qed.

Lemma disconnect_again s :
  isManualDisconnect s = true -> pingIntervalId s = None ->
  reconnectTimeoutId s = None -> pendingSubscriptions s = [] -> ws s = None ->
  disconnect s = (Ok tt, s, []).
Proof.
  intros H1 H2 H3 H4 H5.
  unfold disconnect, _cleanup, _stopPingInterval.
  repeat (first [mstep | use_hyps]).
  cbn [jm_values map forEach]. repeat (first [mstep | use_hyps]).
  destruct s; cbn in *; subst; reflexivity.
Qed.

Ltac in_list :=
  solve [ repeat (first [ apply list_elem_of_here | apply list_elem_of_further ]) ].

Lemma disconnect_spec s :
  exists s1 es1,
    disconnect s = (Ok tt, s1, es1) /\
    isManualDisconnect s1 = true /\
    pingIntervalId s1 = None /\
    reconnectTimeoutId s1 = None /\
    pendingSubscriptions s1 = [] /\
    ws s1 = None /\
    promises s1 = reject_all "Connection closed"
                    (jm_values (pendingSubscriptions s)) (promises s) /\
    (forall h, pingIntervalId s = Some h ->
               timers s1 !! h = None /\ ClearTimer h ∈ es1) /\
    (forall h, reconnectTimeoutId s = Some h ->
               timers s1 !! h = None /\ ClearTimer h ∈ es1) /\
    (forall k, ws s = Some k ->
               socket_state s k = Some OPEN \/ socket_state s k = Some CONNECTING ->
               closes es1 = [(k, Some 1000%Z)] /\
               socket_state s1 k = Some CLOSING).
Proof.
  unfold disconnect, _cleanup, _stopPingInterval, clearTimer, socket_close,
    socket_state.
  repeat (first [mstep | use_hyps | rewrite forEach_reject | case_inner]).
  all: eexists _, _; (split; [reflexivity|]).
  all: proj_simpl.
  all: repeat (split; [try done|]).
  all: try (intros; simplify_eq; rewrite ?lookup_delete_None; auto; fail).
  all: try (intros; simplify_eq; in_list).
  all: simplify_eq.
  all: match goal with
       | H : _ \/ _ |- _ =>
           try match goal with
               | E : sockets _ !! _ = _ |- _ => rewrite E in H
               end;
           cbn in H;
           try match goal with
               | E : readyState _ = _ |- _ => rewrite E in H
               end;
           try (destruct H; discriminate)
       end.
  all: try reflexivity.
  all: rewrite list_lookup_insert_eq by (by eapply lookup_lt_Some); reflexivity.
Qed.

Lemma close_manual s k code reason :
  isManualDisconnect s = true ->
  exists s' es,
    task (handle (SocketClose k code reason)) s = (s', es) /\
    reconnect_delays es = [] /\ sockets_created es = [].
Proof.
  intros Hman.
  unfold task, handle, onclose, set_socket_state, _stopPingInterval, clearTimer,
    reject, _scheduleReconnect, setTimeout.
  crunch; try congruence.
  all: eexists _, _; (split; [reflexivity|]); proj_simpl; trace_simpl; done.
Qed.

(** What [disconnect()] does in every state: it flags the closure as
    manual, so that a close event delivered right after it arms no retry;
    clears the keep-alive interval and the retry whose handles the module
    holds; rejects every pending subscription request with "Connection
    closed" and empties the table of pending requests; closes the live
    socket with code 1000 and forgets it. A second call right after
    changes nothing and does nothing. *)
Lemma disconnect_idempotent_cleanup (s : State) :
  exists s1 es1,
    disconnect s = (Ok tt, s1, es1) /\
    disconnect s1 = (Ok tt, s1, []) /\
    isManualDisconnect s1 = true /\
    (forall k code reason,
        reconnect_delays (step s1 (SocketClose k code reason)).2 = [] /\
        sockets_created (step s1 (SocketClose k code reason)).2 = []) /\
    pingIntervalId s1 = None /\
    (forall h, pingIntervalId s = Some h ->
               timers s1 !! h = None /\ ClearTimer h ∈ es1) /\
    reconnectTimeoutId s1 = None /\
    (forall h, reconnectTimeoutId s = Some h ->
               timers s1 !! h = None /\ ClearTimer h ∈ es1) /\
    pendingSubscriptions s1 = [] /\
    (forall id pending,
        jm_get id (pendingSubscriptions s) = Some pending ->
        promises s !! p_promise pending = Some Pending ->
        promises s1 !! p_promise pending = Some (Rejected "Connection closed")) /\
    ws s1 = None /\
    (forall k, ws s = Some k ->
               socket_state s k = Some OPEN \/ socket_state s k = Some CONNECTING ->
               closes es1 = [(k, Some 1000%Z)] /\
               socket_state s1 k = Some CLOSING).
Proof.
  destruct (disconnect_spec s)
    as (s1 & es1 & Hd & Hman & Hping & Hrec & Hpend & Hws & Hprom & Hp & Hr & Hc).
  exists s1, es1. split; [done|]. split; [by apply disconnect_again|].
  split; [done|]. split.
  { intros k code reason.
    destruct (close_manual s1 k code reason Hman) as (s2 & es2 & Ht & Hd2 & Hn2).
    destruct (step_frame s1 (SocketClose k code reason))
      as (s2' & es2' & s3 & es3 & Ht' & -> & F & Hsub).
    rewrite Ht in Ht'. simplify_eq. cbn [snd].
    destruct (subscription_effects_quiet _ Hsub) as (Hq1 & Hq2 & _).
    by rewrite reconnect_delays_app, sockets_created_app, Hd2, Hn2, Hq1, Hq2. }
  repeat (split; [done|]). split; [|done].
  intros id pending Hget Hpending. rewrite Hprom.
  apply reject_all_rejects; [|done]. by eapply jm_get_values.
Qed.

(** C7. Where [disconnect()] falls short of the claim. In
    [demo_two_retries] two retries are armed, timers 6 and 7, and
    [reconnectTimeoutId] holds the later one only, [_scheduleReconnect]
    having overwritten the handle of the first. [disconnect()] clears
    timer 7 and nothing else: timer 6 is still armed afterwards, and when
    it fires a socket is created although the client has disconnected.
    Besides, when [connect()] follows [disconnect()] before the close
    event of the old socket has arrived, that close event finds the flag
    reset: it rejects the new [connect()] and arms a retry. *)
Theorem disconnect_misses_retry :
  let s := demo_two_retries in
  let r1 := step s CallDisconnect in
  let r2 := step r1.1 (TimerFired 6) in
  let r3 := run demo_connected
                [CallDisconnect; CallConnect;
                 SocketClose 0 1000 "Client disconnect"] in
  timers s !! 6 = Some TReconnect /\ timers s !! 7 = Some TReconnect /\
  reconnectTimeoutId s = Some 7 /\
  r1.2 = [ClearTimer 7] /\
  isManualDisconnect r1.1 = true /\
  timers r1.1 !! 6 = Some TReconnect /\
  sockets_created r2.2 = [3] /\
  reconnect_delays r3.2 = [1000%Z] /\
  promises r3.1 !! 1 = Some (Rejected "Client disconnect").
Proof. vm_compute. repeat split. Qed.

(** *** Connecting *)

Lemma snoc_lookup {A} (l : list A) x : (l ++ [x]) !! length l = Some x.
Proof. rewrite lookup_app_r by lia. by rewrite Nat.sub_diag. Qed.

Lemma snoc_insert {A} (l : list A) x y : <[length l := y]> (l ++ [x]) = l ++ [y].
Proof. rewrite insert_app_r_alt by lia. by rewrite Nat.sub_diag. Qed.

Lemma _connect_spec s :
  exists s' url,
    _connect s
    = (Ok (length (promises s)), s',
       [WsNew (length (sockets s)) url;
        SetTimeout (nextTimer s) (TConnection (length (promises s))) 10000]) /\
    connect_post s s'.
Proof.
  unfold _connect, newPromise, _buildWebSocketUrl, newWebSocket, setTimeout, attach_timeout.
  repeat (first [mstep | rewrite snoc_lookup | rewrite snoc_insert]).
  eexists _, _. split; [reflexivity|]. by split.
Qed.

Lemma connect_spec s :
  is_open s = false -> isConnecting s = false ->
  exists s' url,
    task (handle CallConnect) s
    = (s', [WsNew (length (sockets s)) url;
            SetTimeout (nextTimer s) (TConnection (length (promises s))) 10000]) /\
    connect_post (set_reconnectAttempts 0
                    (set_isManualDisconnect false (set_isConnecting true s))) s'.
Proof.
  intros Ho Hc. unfold task, handle, connect.
  repeat (first [mstep | use_hyps]).
  destruct (_connect_spec (set_reconnectAttempts 0
                    (set_isManualDisconnect false (set_isConnecting true s))))
    as (s' & url & -> & Hpost).
  mstep. eexists _, _. split; [reflexivity|done].
Qed.

Ltac lookup_same :=
  rewrite list_lookup_insert_eq
    by (rewrite ?length_insert; eapply lookup_lt_Some; eassumption).

Lemma open_without_token s k sk :
  sockets s !! k = Some sk -> readyState sk = CONNECTING -> ws s = Some k ->
  truthy (bearerToken s) = false ->
  exists s',
    task (handle (SocketOpen k)) s
    = (s', [ClearTimer (sk_timeout sk); Uncaught "InvalidAccessError"]) /\
    promises s' = promises s /\
    timers s' = delete (sk_timeout sk) (timers s) /\
    socket_state s' k = Some OPEN /\
    isConnecting s' = false /\ authResolve s' = None /\ authReject s' = None /\
    ws s' = Some k /\ replays s' = replays s.
Proof.
  intros Hk Hr Hws Htok.
  unfold task, handle, onopen, set_socket_state, clearTimer, socket_close, reject, socket_state.
  repeat (first [mstep | use_hyps | lookup_same | case_inner]).
  all: eexists; (split; [reflexivity|]); proj_simpl.
  all: repeat lookup_same; done.
Qed.

Lemma open_with_token s k sk :
  sockets s !! k = Some sk -> readyState sk = CONNECTING -> ws s = Some k ->
  truthy (bearerToken s) = true ->
  exists s' es,
    task (handle (SocketOpen k)) s = (s', es) /\
    frames_sent es = [FAuth (default "" (bearerToken s))] /\
    closes es = [] /\
    promises s' = promises s /\
    timers s' = delete (sk_timeout sk) (timers s) /\
    nextTimer s' = nextTimer s /\
    sockets s' = <[k := set_readyState OPEN sk]> (sockets s) /\
    ws s' = Some k /\ authResolve s' = authResolve s /\
    authReject s' = authReject s /\
    subscriptions s' = subscriptions s /\
    reconnectAttempts s' = reconnectAttempts s /\
    replays s' = replays s /\
    es = [ClearTimer (sk_timeout sk); WsSend k (FAuth (default "" (bearerToken s)))].
Proof.
  intros Hk Hr Hws Htok.
  unfold task, handle, onopen, set_socket_state, clearTimer, ws_send, socket_send, socket_state.
  repeat (first [mstep | use_hyps | lookup_same | case_inner]).
  all: eexists _, _; (split; [reflexivity|]); proj_simpl; trace_simpl.
  all: repeat lookup_same; done.
Qed.

Lemma timer_absent s h :
  timers s !! h = None -> task (handle (TimerFired h)) s = (s, []).
Proof. intros H. unfold task, handle. by repeat (first [mstep | use_hyps]). Qed.

Lemma is_open_core s s' : core s' = core s -> is_open s' = is_open s.
Proof.
  intros H. apply core_eq in H as (? & Hws & ? & ? & ? & ? & ? & ? & ? & ? & ? & ? & ? & ? & Hs & ?).
  unfold is_open, socket_state. by rewrite Hws, Hs.
Qed.

Lemma subscribe_closed d r o s :
  is_open s = false ->
  subscribe d r o s
  = (Ok (length (promises s)),
     set_promises (promises s ++ [Rejected "Not connected"]) s, []).
Proof.
  intros H. unfold subscribe, rejected_promise, newPromise, reject.
  repeat (first [mstep | use_hyps]). by rewrite settle_in_fresh.
Qed.

Lemma frame_new_promise st s : frame s (set_promises (promises s ++ [st]) s).
Proof.
  split; proj_simpl; auto.
  - rewrite length_app. lia.
  - intros p Hp. by rewrite lookup_app_l.
Qed.

Lemma resubscribe_loop_closed rest : forall awaiting s,
  is_open s = false ->
  exists r s', resubscribe_loop awaiting rest s = (Ok r, s', []) /\ frame s s'.
Proof.
  induction rest as [|[id sub] rest IH]; intros awaiting s Ho; cbn [resubscribe_loop];
    rewrite bind_run; cbn [get]; destruct (settled (promise_state s awaiting)).
  - eexists _, _. split; [reflexivity|apply frame_refl].
  - eexists _, _. split; [reflexivity|apply frame_refl].
  - rewrite bind_run, subscribe_closed by done.
    edestruct (IH (length (promises s))) as (r & s2 & -> & F2).
    { erewrite is_open_core; [exact Ho|]. apply frame_new_promise. }
    eexists _, _. split; [reflexivity|].
    eapply frame_trans; [apply frame_new_promise|exact F2].
  - eexists _, _. split; [reflexivity|apply frame_refl].
Qed.

Lemma drain_closed s :
  is_open s = false -> exists s', task drain s = (s', []) /\ frame s s'.
Proof.
  intros Ho. unfold task, drain. rewrite bind_run. cbn [get]. rewrite bind_run.
  cbn [modify]. rewrite bind_run.
  assert (H : forall rs s0, is_open s0 = false ->
            exists l s', mapM (fun r => resubscribe_loop (rp_awaiting r) (rp_rest r)) rs s0
                         = (Ok l, s', []) /\ frame s0 s').
  { induction rs as [|r rs IH]; intros s0 H0; cbn [mapM].
    - eexists _, _. split; [reflexivity|apply frame_refl].
    - rewrite bind_run.
      destruct (resubscribe_loop_closed (rp_rest r) (rp_awaiting r) s0 H0)
        as (x & s1 & -> & F1).
      rewrite bind_run. destruct (IH s1) as (l & s2 & -> & F2).
      { erewrite is_open_core; [exact H0|apply F1]. }
      eexists _, _. split; [reflexivity|]. eapply frame_trans; eauto. }
  destruct (H (replays s) (set_replays [] s)) as (l & s1 & -> & F1); [done|].
  eexists. split; [reflexivity|].
  eapply frame_trans; [apply frame_set_replays|].
  eapply frame_trans; [apply F1|apply frame_set_replays].
Qed.

Lemma step_any s ev s1 es1 :
  task (handle ev) s = (s1, es1) ->
  exists s2 es2, step s ev = (s2, es1 ++ es2) /\ frame s1 s2 /\
                 Forall only_subscription_effect es2.
Proof.
  intros H. unfold step. rewrite H.
  destruct (drain_frame s1) as (s2 & es2 & -> & F & E). by eexists _, _.
Qed.

Lemma step_closed s ev s1 es1 :
  task (handle ev) s = (s1, es1) -> is_open s1 = false ->
  exists s2, step s ev = (s2, es1) /\ frame s1 s2.
Proof.
  intros H Ho. unfold step. rewrite H.
  destruct (drain_closed s1 Ho) as (s2 & -> & F). rewrite app_nil_r. by eexists.
Qed.

Lemma drain_nothing s : replays s = [] -> task drain s = (s, []).
Proof.
  intros H. unfold task, drain. rewrite bind_run. cbn [get]. rewrite bind_run.
  cbn [modify]. rewrite bind_run, H. repeat mstep. cbn [omap list_omap id].
  destruct s; cbn in *; subst; reflexivity.
Qed.

Lemma step_plain s ev s1 es1 :
  task (handle ev) s = (s1, es1) -> replays s1 = [] -> step s ev = (s1, es1).
Proof.
  intros Ht Hr. unfold step. by rewrite Ht, drain_nothing, app_nil_r.
Qed.

Lemma is_open_false_state s k r :
  ws s = Some k -> socket_state s k = Some r -> r <> OPEN -> is_open s = false.
Proof.
  intros Hws Hk Hr. unfold is_open. rewrite Hws, Hk.
  apply bool_decide_eq_false. congruence.
Qed.

Ltac open_post P :=
  destruct P;
  repeat match goal with
         | H : _ = _ |- _ => progress proj_simpl in H
         end.

(** C6. What the code does where the claim asks for an abort. A
    [connect()] issued while no token is stored (no connection open or
    in progress, no replay suspended) creates the socket and sends
    nothing. When that socket opens, [onopen] clears the fields of the
    handshake and calls [close(1008, ...)], which the socket refuses with
    an InvalidAccessError: no close is started and the socket stays
    open; the exception leaves [onopen] before [reject] is reached, so
    the promise returned by [connect()] is still pending, and with
    [authReject] cleared a later close of the socket will not reject it
    either. No frame is put on the wire. *)
Theorem connect_without_token (s : State) :
  truthy (bearerToken s) = false ->
  is_open s = false -> isConnecting s = false -> replays s = [] ->
  let p := length (promises s) in
  let k := length (sockets s) in
  let r1 := step s CallConnect in
  let r2 := step r1.1 (SocketOpen k) in
  sockets_created r1.2 = [k] /\
  promises r1.1 !! p = Some Pending /\
  r2.2 = [ClearTimer (nextTimer s); Uncaught "InvalidAccessError"] /\
  closes r2.2 = [] /\
  socket_state r2.1 k = Some OPEN /\
  promises r2.1 !! p = Some Pending /\
  authReject r2.1 = None /\
  frames_sent r1.2 = [] /\ frames_sent r2.2 = [].
Proof.
  intros Htok Ho Hc Hrp p k r1 r2. subst p k r1 r2.
  destruct (connect_spec s Ho Hc) as (s1 & url & Ht1 & P1).
  open_post P1.
  assert (Hk1 : sockets s1 !! length (sockets s)
                = Some (mkSocket CONNECTING (length (promises s)) (nextTimer s))).
  { rewrite cp_sockets0. apply snoc_lookup. }
  rewrite (step_plain _ _ _ _ Ht1) by congruence. cbn [fst snd].
  destruct (open_without_token s1 (length (sockets s))
               (mkSocket CONNECTING (length (promises s)) (nextTimer s)))
    as (s2 & Ht2 & Hp2 & _ & Hst2 & _ & _ & Hrj2 & _ & Hr2);
    [congruence|done|congruence|congruence|].
  rewrite (step_plain _ _ _ _ Ht2) by congruence. cbn [fst snd sk_timeout].
  rewrite Hp2, cp_promises0.
  repeat split; try done. all: apply snoc_lookup.
Qed.




Lemma connect_without_token_witness :
  closes (step (step demo_anonymous CallConnect).1 (SocketOpen 0)).2 = [] /\
  socket_state (step (step demo_anonymous CallConnect).1 (SocketOpen 0)).1 0
  = Some OPEN /\
  promises (step (step demo_anonymous CallConnect).1 (SocketOpen 0)).1 !! 0
  = Some Pending.
Proof.
  destruct (connect_without_token demo_anonymous) as (_ & _ & _ & H1 & H2 & H3 & _);
    [reflexivity|reflexivity|reflexivity|reflexivity|].
  split; [exact H1|split; [exact H2|exact H3]].
Defined.

Lemma reconnect_backoff_witness :
  reconnect_delays (step demo_connected (SocketClose 0 1006 "")).2 = [1000%Z] /\
  reconnectAttempts (step demo_connected (SocketClose 0 1006 "")).1 = 1.
Proof.
  destruct (reconnect_backoff demo_connected 0 (mkSocket OPEN 0 1) 1006 "" 1)
    as (H1 & _ & _ & H2 & _).
  - reflexivity.
  - discriminate.
  - reflexivity.
  - reflexivity.
  - reflexivity.
  - vm_compute. discriminate.
  - vm_compute. discriminate.
  - split; [exact H1 | exact H2].
Defined.

(** *** Exhausting the retries *)

Lemma quiescent_not_open s : quiescent s -> is_open s = false.
Proof.
  intros [Hs _]. unfold is_open, socket_state.
  destruct (ws s) as [k|]; [|done].
  destruct (sockets s !! k) as [sk|] eqn:E; cbn; [|done].
  by rewrite (Hs _ _ E).
Qed.

Lemma forEach_reject_unfolded e l s :
  forEach (fun (pending : PendingSubscription) (s : State) =>
             (Ok tt,
              set_promises
                (settle_in (p_promise pending) (Rejected e) (promises s)) s,
              @nil Effect)) l s
  = (Ok tt, set_promises (reject_all e l (promises s)) s, []).
Proof. exact (forEach_reject e l s). Qed.

Ltac timers_goal :=
  let h := fresh "h" in
  let H := fresh "H" in
  intros h H;
  repeat (first [ rewrite lookup_insert in H | rewrite lookup_delete in H ]);
  repeat case_decide; simplify_eq;
  try match goal with
      | Ht : forall h, timers _ !! h <> _ |- _ => by eapply Ht
      end.

Lemma quiescent_task ev s :
  quiescent s -> ev <> CallConnect ->
  exists s' es,
    task (handle ev) s = (s', es) /\
    sockets s' = sockets s /\
    (forall h, timers s' !! h <> Some TReconnect) /\
    reconnect_delays es = [] /\ sockets_created es = [].
Proof.
  intros Hq Hev. pose proof (quiescent_not_open s Hq) as Hopen.
  destruct Hq as [Hs Ht].
  unfold is_open, socket_state in Hopen.
  destruct ev; try done.
  all: unfold task, handle, disconnect, _cleanup, subscribe, unsubscribe, on, off,
         sendTypingEvent, ping, updateConfig, setBearerToken, onmessage,
         connectionTimeout_fired, subscriptionTimeout_fired,
         _stopPingInterval, _startPingInterval, setInterval, clearTimer,
         socket_close, rejected_promise, newPromise, reject, is_open, socket_state.
  all: try match goal with
       | |- context [sockets ?s0 !! ?k] =>
           mstep; destruct (sockets s0 !! k) as [sk|] eqn:Ek;
           [rewrite ?(Hs _ _ Ek)|]
       end.
  all: repeat (first [mstep | use_hyps | rewrite forEach_reject_unfolded | case_inner]).
  all: try (exfalso; eapply Ht; eassumption).
  all: try (exfalso;
            match goal with
            | E1 : sockets _ !! _ = Some ?sk, E2 : readyState ?sk = _ |- _ =>
                rewrite (Hs _ _ E1) in E2; discriminate
            end).
  all: try (exfalso;
            match goal with
            | E : readyState <$> sockets ?s0 !! ?k = Some _ |- _ =>
                let E1 := fresh in
                destruct (sockets s0 !! k) eqn:E1; cbn in E;
                [rewrite (Hs _ _ E1) in E|]; discriminate
            end).
  all: eexists _, _; (split; [reflexivity|]); proj_simpl; trace_simpl.
  all: (split; [try done|]); (split; [try timers_goal|done]).
Qed.

Lemma quiescent_step ev s :
  quiescent s -> ev <> CallConnect ->
  quiescent (step s ev).1 /\
  reconnect_delays (step s ev).2 = [] /\ sockets_created (step s ev).2 = [].
Proof.
  intros Hq Hev.
  destruct (quiescent_task ev s Hq Hev) as (s1 & es1 & Ht & Hs1 & Ht1 & Hd & Hn).
  destruct (step_any _ _ _ _ Ht) as (s2 & es2 & -> & F & Hsub).
  destruct (subscription_effects_quiet _ Hsub) as (Hq1 & Hq2 & _).
  cbn [fst snd]. rewrite reconnect_delays_app, sockets_created_app, Hd, Hn, Hq1, Hq2.
  split; [|done]. open_frame F. destruct Hq as [Hsock _]. split.
  - intros k sk Hk. apply (Hsock k). congruence.
  - intros h Hh. destruct (fr_new_timers _ _ F _ _ Hh) as [H'|(? & ? & ?)];
      [by eapply Ht1|done].
Qed.

Lemma quiescent_run evs : forall s,
  quiescent s -> CallConnect ∉ evs ->
  quiescent (run_state s evs) /\
  reconnect_delays (run_trace s evs) = [] /\ sockets_created (run_trace s evs) = [].
Proof.
  unfold run_state, run_trace.
  induction evs as [|ev evs IH]; intros s Hq Hnot; [done|].
  apply not_elem_of_cons in Hnot as [Hev Hnot].
  destruct (quiescent_step ev s Hq) as (Hq1 & Hd1 & Hn1); [congruence|].
  cbn [run]. destruct (step s ev) as [s1 es1]. cbn [fst snd] in *.
  destruct (IH s1 Hq1 Hnot) as (Hq2 & Hd2 & Hn2).
  destruct (run s1 evs) as [s2 es2]. cbn [fst snd] in *.
  by rewrite reconnect_delays_app, sockets_created_app, Hd1, Hn1, Hd2, Hn2.
Qed.

Lemma close_exhausted s k sk code reason :
  sockets s !! k = Some sk -> readyState sk <> CLOSED ->
  isManualDisconnect s = false -> autoReconnect (config s) = true ->
  (maxReconnectAttempts (config s) <= Z.of_nat (reconnectAttempts s))%Z ->
  exists s' es,
    task (handle (SocketClose k code reason)) s = (s', es) /\
    emit_trace (listeners s) E_error (PError "Max reconnect attempts reached")
      `suffix_of` es /\
    reconnect_delays es = [] /\ sockets_created es = [] /\
    reconnectAttempts s' = reconnectAttempts s /\
    isConnecting s' = false /\
    config s' = config s /\ ws s' = ws s /\
    sockets s' = <[k := set_readyState CLOSED sk]> (sockets s) /\
    (forall h t, timers s' !! h = Some t -> timers s !! h = Some t).
Proof.
  intros Hk Hlive Hman Hauto Hle.
  apply Z.leb_le in Hle.
  unfold task, handle, onclose, set_socket_state, _stopPingInterval, clearTimer,
    reject, _scheduleReconnect, setTimeout.
  crunch; try congruence.
  all: eexists _, _; (split; [reflexivity|]).
  all: split; [repeat apply suffix_cons_r; apply suffix_app_r; reflexivity|].
  all: proj_simpl; trace_simpl; repeat (split; [done|]).
  all: intros h t H;
    repeat (first [ rewrite lookup_insert in H | rewrite lookup_delete in H ]);
    repeat case_decide; simplify_eq; auto.
Qed.

Lemma reconnect_fires s h :
  timers s !! h = Some TReconnect ->
  exists s' url,
    task (handle (TimerFired h)) s
    = (s', [WsNew (length (sockets s)) url;
            SetTimeout (nextTimer s) (TConnection (length (promises s))) 10000]) /\
    connect_post (set_timers (delete h (timers s)) s) s'.
Proof.
  intros Ht. unfold task, handle, reconnect_fired.
  repeat (first [mstep | use_hyps]).
  destruct (_connect_spec (set_timers (delete h (timers s)) s))
    as (s' & url & -> & Hpost).
  repeat mstep. eexists _, _. split; [reflexivity|done].
Qed.

Lemma failing_cycle cfg ls s c :
  retrying cfg ls s -> autoReconnect cfg = true ->
  (Z.of_nat (reconnectAttempts s) < maxReconnectAttempts cfg)%Z ->
  exists s1 es1 s2 es2,
    close_current s c = (s1, es1) /\ fire_retry s1 = (s2, es2) /\
    retrying cfg ls s2 /\
    reconnectAttempts s2 = S (reconnectAttempts s) /\
    reconnect_delays (es1 ++ es2) = [backoff_delay cfg (S (reconnectAttempts s))] /\
    length (sockets_created (es1 ++ es2)) = 1.
Proof.
  intros [Hcfg Hls Hman (k & sk & Hws & Hk & Hlive & Hothers) Htim] Hauto Hlt.
  subst cfg.
  destruct (close_schedules s k sk c.1 c.2)
    as (s1 & es1 & Ht1 & Hd1 & Hn1 & Ha1 & Hid1 & Hh1 & Hnx1 & Hc1 & Hws1 & Hm1
        & Hs1 & Hl1 & Htm1); [done..|].
  destruct (step_any _ _ _ _ Ht1) as (s1' & es1' & Hstep1 & F1 & Hsub1).
  destruct (subscription_effects_quiet _ Hsub1) as (Hq1 & Hq2 & _).
  open_frame F1.
  assert (Hh1' : timers s1' !! nextTimer s = Some TReconnect).
  { rewrite (fr_old_timers _ _ F1) by lia. done. }
  destruct (reconnect_fires s1' (nextTimer s) Hh1') as (s2 & url & Ht2 & P2).
  open_post P2.
  assert (Hk2 : sockets s2 !! length (sockets s1')
                = Some (mkSocket CONNECTING (length (promises s1')) (nextTimer s1'))).
  { rewrite cp_sockets0. apply snoc_lookup. }
  destruct (step_closed _ _ _ _ Ht2) as (s2' & Hstep2 & F2).
  { apply (is_open_false_state s2 (length (sockets s1')) CONNECTING);
      [done| |discriminate].
    unfold socket_state. by rewrite Hk2. }
  open_frame F2.
  eexists s1', (es1 ++ es1'), s2', _.
  split; [unfold close_current; by rewrite Hws|].
  split; [unfold fire_retry;
          replace (reconnectTimeoutId s1') with (Some (nextTimer s)) by congruence;
          exact Hstep2|].
  split; [|split; [congruence|split]].
  - split; try congruence.
    + exists (length (sockets s1')), (mkSocket CONNECTING (length (promises s1')) (nextTimer s1')).
      split; [congruence|]. split; [congruence|]. split; [discriminate|].
      intros j sj Hj Hlook.
      assert (Hlook' : sockets s1' !! j = Some sj).
      { replace (sockets s2') with (sockets s2) in Hlook by congruence.
        rewrite cp_sockets0 in Hlook.
        apply lookup_app_Some in Hlook as [H'|[Hge H']]; [done|].
        apply list_lookup_singleton_Some in H' as [H' _]. lia. }
      replace (sockets s1') with (sockets s1) in Hlook' by congruence.
      rewrite Hs1 in Hlook'.
      destruct (decide (j = k)) as [->|Hjk].
      * rewrite list_lookup_insert_eq in Hlook' by (by eapply lookup_lt_Some).
        by simplify_eq.
      * rewrite list_lookup_insert_ne in Hlook' by done. by eapply Hothers.
    + intros h Hh.
      destruct (fr_new_timers _ _ F2 _ _ Hh) as [Hh2|(? & ? & ?)]; [|done].
      rewrite cp_timers0 in Hh2.
      rewrite lookup_insert in Hh2. case_decide; [done|].
      rewrite lookup_delete in Hh2. case_decide; [done|].
      destruct (fr_new_timers _ _ F1 _ _ Hh2) as [Hh1''|(? & ? & ?)]; [|done].
      destruct (Htm1 _ _ Hh1'') as [?|Hold]; [done|]. by eapply Htim.
  - rewrite !reconnect_delays_app, Hd1, Hq1. by cbn.
  - rewrite !sockets_created_app, Hn1, Hq2. by cbn.
Qed.

Lemma failing_run_spec cfg ls cs : forall s,
  retrying cfg ls s -> autoReconnect cfg = true ->
  (Z.of_nat (reconnectAttempts s + length cs) <= maxReconnectAttempts cfg)%Z ->
  exists s' es,
    failing_run cs s = (s', es) /\
    retrying cfg ls s' /\
    reconnectAttempts s' = reconnectAttempts s + length cs /\
    reconnect_delays es
    = map (backoff_delay cfg) (seq (S (reconnectAttempts s)) (length cs)) /\
    length (sockets_created es) = length cs.
Proof.
  induction cs as [|c cs IH]; intros s Hr Hauto Hle; cbn [failing_run length].
  - exists s, []. rewrite Nat.add_0_r.
    split; [done|]. split; [done|]. split; [done|]. by split.
  - cbn [length] in Hle.
    destruct (failing_cycle cfg ls s c Hr Hauto)
      as (s1 & es1 & s2 & es2 & -> & -> & Hr2 & Ha2 & Hd2 & Hn2); [lia|].
    destruct (IH s2 Hr2 Hauto) as (s3 & es3 & -> & Hr3 & Ha3 & Hd3 & Hn3); [lia|].
    eexists _, _. split; [reflexivity|]. split; [done|]. split; [lia|].
    rewrite app_assoc, reconnect_delays_app, sockets_created_app, Hd2, Hd3,
      length_app, Hn2, Hn3, Ha2.
    by cbn.
Qed.

Lemma final_close cfg ls s c :
  retrying cfg ls s -> autoReconnect cfg = true ->
  (maxReconnectAttempts cfg <= Z.of_nat (reconnectAttempts s))%Z ->
  exists s' es,
    close_current s c = (s', es) /\
    (exists pre post,
        es = pre ++ emit_trace ls E_error
                      (PError "Max reconnect attempts reached") ++ post) /\
    reconnect_delays es = [] /\ sockets_created es = [] /\
    quiescent s' /\ is_open s' = false /\ isConnecting s' = false.
Proof.
  intros [Hcfg Hls Hman (k & sk & Hws & Hk & Hlive & Hothers) Htim] Hauto Hle.
  subst cfg ls.
  destruct (close_exhausted s k sk c.1 c.2)
    as (s1 & es1 & Ht1 & Hsuf & Hd1 & Hn1 & Ha1 & Hic1 & Hc1 & Hws1 & Hs1 & Htm1);
    [done..|].
  destruct (step_any _ _ _ _ Ht1) as (s1' & es1' & Hstep1 & F1 & Hsub1).
  destruct (subscription_effects_quiet _ Hsub1) as (Hq1 & Hq2 & _).
  open_frame F1.
  assert (Hq : quiescent s1').
  { split.
    - intros j sj Hj. replace (sockets s1') with (sockets s1) in Hj by congruence.
      rewrite Hs1 in Hj. destruct (decide (j = k)) as [->|Hjk].
      + rewrite list_lookup_insert_eq in Hj by (by eapply lookup_lt_Some).
        by simplify_eq.
      + rewrite list_lookup_insert_ne in Hj by done. by eapply Hothers.
    - intros h Hh.
      destruct (fr_new_timers _ _ F1 _ _ Hh) as [Hh1|(? & ? & ?)]; [|done].
      eapply Htim. eauto. }
  eexists _, _. split; [unfold close_current; rewrite Hws; exact Hstep1|].
  split; [destruct Hsuf as [pre ->]; exists pre, es1'; by rewrite app_assoc|].
  rewrite reconnect_delays_app, sockets_created_app, Hd1, Hn1, Hq1, Hq2.
  repeat (split; [done|]). split; [by apply quiescent_not_open|congruence].
Qed.
Lemma no_retry_armed_sound s :
  no_retry_armed s = true -> forall h, timers s !! h <> Some TReconnect.
Proof.
  unfold no_retry_armed. rewrite forallb_forall. intros H h Hh.
  apply elem_of_map_to_list in Hh. apply list_elem_of_In in Hh.
  by specialize (H _ Hh).
Qed.

Lemma is_closed_true sk : is_closed sk = true <-> readyState sk = CLOSED.
Proof. unfold is_closed. by destruct (readyState sk). Qed.

Lemma retrying_check_sound s :
  retrying_check s = true -> retrying (config s) (listeners s) s.
Proof.
  unfold retrying_check. rewrite !andb_true_iff, negb_true_iff.
  intros [[Hman Hlive] Htim]. split; [done|done|done| |by apply no_retry_armed_sound].
  unfold one_live_socket in Hlive. destruct (ws s) as [k|]; [|done].
  apply andb_true_iff in Hlive as [Hall Hk%bool_decide_eq_true].
  rewrite forallb_forall in Hall.
  destruct (lookup_lt_is_Some_2 _ _ Hk) as [sk Hsk].
  assert (Hin : forall j sj, sockets s !! j = Some sj ->
                  In (j, sj) (imap (fun j sk => (j, sk)) (sockets s))).
  { intros j sj Hj. apply list_elem_of_In, elem_of_lookup_imap. eauto. }
  exists k, sk. split; [done|]. split; [done|]. split.
  - specialize (Hall _ (Hin _ _ Hsk)). cbn in Hall. rewrite Nat.eqb_refl in Hall.
    intros Hc%is_closed_true. by rewrite Hc in Hall.
  - intros j sj Hj Hlook. specialize (Hall _ (Hin _ _ Hlook)). cbn in Hall.
    apply Nat.eqb_neq in Hj. rewrite Hj in Hall. by apply is_closed_true.
Qed.

(** C2. Take a client that keeps retrying ([autoReconnect] on, closure
    not manual, counter at 0, one live socket) with
    [maxReconnectAttempts = N], and let every connection attempt end with
    the socket closing. The first [N] closes arm exactly [N] retries, with
    the back-off delays of attempts 1 to [N], each retry creating one
    socket. The close that ends the [N]-th attempt arms nothing and emits
    [error] ("Max reconnect attempts reached") to the listeners. From
    then on no event other than a call of [connect()] arms a retry or
    creates a socket; [connect()] creates a socket again and resets the
    counter. *)
Theorem retries_stop_after_maximum (s : State) (N : nat)
  (cs : list (Z * string)) (c : Z * string) :
  retrying (config s) (listeners s) s ->
  autoReconnect (config s) = true ->
  maxReconnectAttempts (config s) = Z.of_nat N ->
  reconnectAttempts s = 0 ->
  length cs = N ->
  let r := failing_run cs s in
  let r' := close_current r.1 c in
  reconnect_delays r.2 = map (backoff_delay (config s)) (seq 1 N) /\
  length (sockets_created r.2) = N /\
  (exists pre post,
      r'.2 = pre ++ emit_trace (listeners s) E_error
                      (PError "Max reconnect attempts reached") ++ post) /\
  reconnect_delays r'.2 = [] /\ sockets_created r'.2 = [] /\
  (forall evs, CallConnect ∉ evs ->
     reconnect_delays (run_trace r'.1 evs) = [] /\
     sockets_created (run_trace r'.1 evs) = []) /\
  (let r'' := step r'.1 CallConnect in
   length (sockets_created r''.2) = 1 /\ reconnectAttempts r''.1 = 0).
Proof.
  intros Hr Hauto Hmax Ha Hlen r r'. subst r r'.
  destruct (failing_run_spec (config s) (listeners s) cs s Hr Hauto)
    as (sN & esN & -> & HrN & HaN & HdN & HnN); [lia|].
  cbn [fst snd]. rewrite Ha in HdN. rewrite Hlen in *.
  destruct (final_close (config s) (listeners s) sN c HrN Hauto)
    as (sE & esE & -> & Hemit & HdE & HnE & Hq & Ho & Hc); [lia|].
  cbn [fst snd]. repeat (split; [done|]). split.
  - intros evs Hevs. by destruct (quiescent_run evs sE Hq Hevs) as (_ & ? & ?).
  - cbn zeta. destruct (connect_spec sE Ho Hc) as (s1 & url & Ht1 & P1).
    open_post P1.
    destruct (step_any _ _ _ _ Ht1) as (s1' & es1' & -> & F1 & Hsub1).
    destruct (subscription_effects_quiet _ Hsub1) as (_ & Hq2 & _).
    open_frame F1. cbn [fst snd]. rewrite sockets_created_app, Hq2.
    split; [done|congruence].
Qed.

Lemma retries_stop_after_maximum_witness :
  reconnect_delays
    (failing_run [(1006%Z, ""); (1006%Z, ""); (1006%Z, ""); (1006%Z, ""); (1006%Z, "")]
                 demo_connected).2
  = [1000; 2000; 4000; 8000; 16000]%Z.
Proof.
  destruct (retries_stop_after_maximum demo_connected 5
              [(1006%Z, ""); (1006%Z, ""); (1006%Z, ""); (1006%Z, ""); (1006%Z, "")]
              (1006%Z, "")) as (H & _).
  - apply retrying_check_sound. vm_compute. reflexivity.
  - reflexivity.
  - reflexivity.
  - reflexivity.
  - reflexivity.
  - exact H.
Defined.

(** *** Subscribing on an open connection *)

Lemma subscribe_open d r o s k :
  ws s = Some k -> socket_state s k = Some OPEN ->
  exists s',
    subscribe d r o s
    = (Ok (length (promises s)), s',
       [WsSend k (FSubscribe (next_id s) d r (frame_filters o) (frame_include_data o));
        SetTimeout (nextTimer s) (TSubscription (next_id s) (length (promises s)))
                   10000]) /\
    subscribe_post d r o s s'.
Proof.
  intros Hws Hk. unfold next_id, next_randomCalls.
  unfold subscribe, _generateId, newPromise, ws_send, socket_send, setTimeout,
    is_open.
  unfold socket_state in *.
  destruct (fill_template _ _ _) as [id n] eqn:Ef.
  repeat (first [mstep | use_hyps | rewrite bool_decide_eq_true_2 by done]).
  eexists. split; [reflexivity|]. split; proj_simpl; try done.
  all: unfold next_id, next_randomCalls; by rewrite Ef.
Qed.

(** *** Replay after a reconnect *)

Lemma sub_timers_app es1 es2 : sub_timers (es1 ++ es2) = sub_timers es1 ++ sub_timers es2.
Proof.
  induction es1 as [|[| | |? [] ?| | | | |] es1 IH]; cbn; by rewrite ?IH.
Qed.

Lemma subscribe_requests_app es1 es2 :
  subscribe_requests (es1 ++ es2) = subscribe_requests es1 ++ subscribe_requests es2.
Proof.
  induction es1 as [|[| ? []| | | | | | |] es1 IH]; cbn; by rewrite ?IH.
Qed.

Lemma emit_trace_no_subscribe ls event args :
  sub_timers (emit_trace ls event args) = [] /\
  subscribe_requests (emit_trace ls event args) = [].
Proof.
  unfold emit_trace. destruct (jm_get event ls) as [set|]; [|done].
  induction set as [|cb set (IH1 & IH2)]; [done|].
  cbn [map concat]. rewrite sub_timers_app, subscribe_requests_app, IH1, IH2.
  unfold listener_trace. by destruct (cb_run cb event args).
Qed.

Lemma sub_timers_emit ls event args : sub_timers (emit_trace ls event args) = [].
Proof. apply emit_trace_no_subscribe. Qed.

Lemma subscribe_requests_emit ls event args :
  subscribe_requests (emit_trace ls event args) = [].
Proof. apply emit_trace_no_subscribe. Qed.

Ltac sub_simpl :=
  repeat (first
    [ progress cbn [sub_timers subscribe_requests app]
    | rewrite sub_timers_app | rewrite subscribe_requests_app
    | rewrite sub_timers_emit | rewrite subscribe_requests_emit ]).

Lemma jm_get_set_eq {K V : Type} `{EqDecision K} (k : K) (v : V) (m : JsMap K V) :
  jm_get k (jm_set k v m) = Some v.
Proof.
  induction m as [|[k' v'] m IH]; cbn.
  - by rewrite decide_True.
  - case_decide; cbn; [by rewrite decide_True|by rewrite decide_False].
Qed.

Lemma confirmation_settles s k id d r f pending :
  socket_state s k = Some OPEN ->
  jm_get id (pendingSubscriptions s) = Some pending ->
  promises s !! p_promise pending = Some Pending ->
  exists s' es,
    task (handle (SocketMessage k (Some (MSubscriptionConfirmed id d r f)))) s
    = (s', es) /\
    core s' = core (set_subscriptions (jm_set id (p_data pending) (subscriptions s)) s) /\
    replays s' = replays s /\
    promises s' !! p_promise pending
    = Some (Fulfilled (VSubscription (mkSubscription id d r f))) /\
    length (promises s') = length (promises s) /\
    sub_timers es = [] /\ subscribe_requests es = [].
Proof.
  intros Hk Hget Hp.
  unfold task, handle, onmessage, _handleMessage, _handleSubscriptionConfirmed, resolve.
  repeat (first [mstep | use_hyps]).
  eexists _, _. split; [reflexivity|]. proj_simpl. sub_simpl.
  rewrite settle_in_length. repeat (split; [done|]). split; [|done].
  by apply settle_in_lookup_pending.
Qed.

Lemma timeout_settles s h id p pending :
  timers s !! h = Some (TSubscription id p) ->
  jm_get id (pendingSubscriptions s) = Some pending ->
  promises s !! p = Some Pending ->
  exists s',
    task (handle (TimerFired h)) s = (s', []) /\
    core s' = core s /\
    replays s' = replays s /\
    promises s' !! p = Some (Rejected "Subscription timeout") /\
    length (promises s') = length (promises s).
Proof.
  intros Ht Hget Hp.
  unfold task, handle, subscriptionTimeout_fired, reject, jm_has.
  repeat (first [mstep | use_hyps]).
  eexists. split; [reflexivity|]. proj_simpl.
  rewrite settle_in_length. repeat (split; [done|]). split; [|done].
  by apply settle_in_lookup_pending.
Qed.

Lemma resubscribe_loop_waiting awaiting rest s :
  settled (promise_state s awaiting) = false ->
  resubscribe_loop awaiting rest s = (Ok (Some (mkReplay awaiting rest)), s, []).
Proof.
  intros H. destruct rest as [|[i sub] rest]; cbn [resubscribe_loop];
    rewrite bind_run; cbn [get]; by rewrite H.
Qed.

Lemma drain_resume s k p i sub rest st :
  ws s = Some k -> socket_state s k = Some OPEN ->
  replays s = [mkReplay p ((i, sub) :: rest)] ->
  promises s !! p = Some st -> settled st = true ->
  exists s',
    task drain s
    = (s', [WsSend k (FSubscribe (next_id s) (domain sub) (resource sub)
                        (frame_filters (options sub))
                        (frame_include_data (options sub)));
            SetTimeout (nextTimer s)
                       (TSubscription (next_id s) (length (promises s))) 10000]) /\
    core s' = core s /\
    replays s' = [mkReplay (length (promises s)) rest] /\
    timers s' = <[nextTimer s := TSubscription (next_id s) (length (promises s))]>
                  (timers s) /\
    pendingSubscriptions s'
    = jm_set (next_id s)
        (mkPending (length (promises s))
                   (mkSubData (domain sub) (resource sub) (options sub)))
        (pendingSubscriptions s) /\
    promises s' = promises s ++ [Pending].
Proof.
  intros Hws Hk Hr Hp Hst.
  unfold task, drain. rewrite bind_run. cbn [get]. rewrite bind_run. cbn [modify].
  rewrite bind_run, Hr. cbn [mapM rp_awaiting rp_rest resubscribe_loop].
  rewrite !bind_run. cbn [get].
  replace (settled (promise_state (set_replays [] s) p)) with true
    by (unfold promise_state; proj_simpl; by rewrite Hp).
  rewrite bind_run.
  destruct (subscribe_open (domain sub) (resource sub) (options sub)
              (set_replays [] s) k) as (s1 & -> & P1); [done|done|].
  destruct P1. proj_simpl in sp_promises0. proj_simpl in sp_replays0.
  rewrite resubscribe_loop_waiting.
  2:{ unfold promise_state. proj_simpl. rewrite sp_promises0, snoc_lookup. done. }
  repeat mstep. cbn [omap list_omap id].
  eexists. split; [reflexivity|]. proj_simpl.
  split; [exact sp_core0|]. split; [by rewrite sp_replays0|].
  repeat split; done.
Qed.

Lemma drain_finish s p st :
  replays s = [mkReplay p []] ->
  promises s !! p = Some st -> settled st = true ->
  exists s', task drain s = (s', []) /\ core s' = core s /\ replays s' = [] /\
             promises s' = promises s /\ timers s' = timers s.
Proof.
  intros Hr Hp Hst.
  unfold task, drain. rewrite bind_run. cbn [get]. rewrite bind_run. cbn [modify].
  rewrite bind_run, Hr. cbn [mapM rp_awaiting rp_rest resubscribe_loop].
  rewrite !bind_run. cbn [get].
  replace (settled (promise_state (set_replays [] s) p)) with true
    by (unfold promise_state; proj_simpl; by rewrite Hp).
  repeat mstep. cbn [omap list_omap id].
  eexists. split; [reflexivity|]. by proj_simpl.
Qed.

Lemma drain_idle s : replays s = [] ->
  exists s', task drain s = (s', []) /\ core s' = core s /\ replays s' = [] /\
             promises s' = promises s /\ timers s' = timers s /\
             pendingSubscriptions s' = pendingSubscriptions s.
Proof.
  intros Hr.
  unfold task, drain. rewrite bind_run. cbn [get]. rewrite bind_run. cbn [modify].
  rewrite bind_run, Hr. repeat mstep. cbn [omap list_omap id].
  eexists. split; [reflexivity|]. by proj_simpl.
Qed.

Lemma drain_waiting s p rest :
  replays s = [mkReplay p rest] -> promises s !! p = Some Pending ->
  exists s', task drain s = (s', []) /\ core s' = core s /\
             replays s' = [mkReplay p rest] /\
             promises s' = promises s /\ timers s' = timers s /\
             pendingSubscriptions s' = pendingSubscriptions s.
Proof.
  intros Hr Hp.
  unfold task, drain. rewrite bind_run. cbn [get]. rewrite bind_run. cbn [modify].
  rewrite bind_run, Hr. cbn [mapM rp_awaiting rp_rest].
  rewrite bind_run, resubscribe_loop_waiting
    by (unfold promise_state; proj_simpl; by rewrite Hp).
  repeat mstep. cbn [omap list_omap id].
  eexists. split; [reflexivity|]. by proj_simpl.
Qed.

Ltac open_call k :=
  match goal with
  | |- context [subscribe ?d ?r ?o ?S] =>
      let P := fresh "P" in
      destruct (subscribe_open d r o S k) as (? & -> & P);
      [ proj_simpl; assumption
      | unfold socket_state in *; proj_simpl; assumption
      | destruct P; unfold next_id, next_randomCalls in *;
        repeat match goal with
               | H : _ = _ |- _ => progress proj_simpl in H
               end ]
  end.

Lemma connected_starts_replay s k u m ss :
  ws s = Some k -> socket_state s k = Some OPEN ->
  0 < reconnectAttempts s -> replays s = [] ->
  exists s' es,
    step s (SocketMessage k (Some (MConnected u m ss))) = (s', es) /\
    subscriptions s' = [] /\ reconnectAttempts s' = 0 /\
    match subscriptions s with
    | [] => replays s' = [] /\ subscribe_requests es = [] /\ sub_timers es = []
    | entry :: rest =>
        replaying k rest s' es /\ subscribe_requests es = [replay_request entry]
    end.
Proof.
  intros Hws Hk Ha Hr. apply Nat.ltb_lt in Ha.
  destruct (subscriptions s) as [|[i sub] rest] eqn:Hsubs.
  - assert (Ht : exists s1 es1,
        task (handle (SocketMessage k (Some (MConnected u m ss)))) s = (s1, es1) /\
        subscriptions s1 = [] /\ reconnectAttempts s1 = 0 /\ replays s1 = [] /\
        subscribe_requests es1 = [] /\ sub_timers es1 = []).
    { unfold task, handle, onmessage, _handleMessage, _startPingInterval,
        setInterval, resolve, _resubscribeAll.
      repeat (first [mstep | use_hyps | case_inner]).
      all: eexists _, _; (split; [reflexivity|]); proj_simpl; sub_simpl; done. }
    destruct Ht as (s1 & es1 & Ht & Hs1 & Ha1 & Hr1 & Hq1 & Hq2).
    destruct (drain_idle s1 Hr1) as (s2 & Hd & Hc & Hr2 & _).
    apply core_eq in Hc as (? & ? & ? & ? & ? & ? & ? & ? & _).
    unfold step. rewrite Ht, Hd, app_nil_r. eexists _, _. split; [reflexivity|].
    split; [congruence|]. split; [congruence|]. done.
  - assert (Ht : exists s1 es1,
        task (handle (SocketMessage k (Some (MConnected u m ss)))) s = (s1, es1) /\
        subscriptions s1 = [] /\ reconnectAttempts s1 = 0 /\
        ws s1 = Some k /\ sockets s1 = sockets s /\
        subscribe_requests es1 = [replay_request (i, sub)] /\
        exists p h id data,
          replays s1 = [mkReplay p rest] /\
          last (sub_timers es1) = Some (h, id) /\
          timers s1 !! h = Some (TSubscription id p) /\
          jm_get id (pendingSubscriptions s1) = Some (mkPending p data) /\
          promises s1 !! p = Some Pending).
    { unfold task, handle, onmessage, _handleMessage, _startPingInterval,
        setInterval, resolve, _resubscribeAll.
      repeat (first [mstep | use_hyps | open_call k | case_inner]).
      all: apply core_eq in sp_core0;
        destruct sp_core0 as (? & ? & ? & ? & ? & ? & ? & ? & ? & ? & ? & ? & ? & ? & ? & ?).
      all: repeat match goal with
               | H : _ = _ |- _ => progress proj_simpl in H
               end.
      all: eexists _, _; (split; [reflexivity|]); proj_simpl; sub_simpl.
      all: do 5 (split; [first [done|congruence]|]).
      all: eexists _, _, _, _; split; [by rewrite sp_replays0, Hr|].
      all: split; [reflexivity|].
      all: rewrite sp_timers0, sp_pending0, sp_promises0.
      all: split; [apply lookup_insert_eq|].
      all: split; [apply jm_get_set_eq|].
      all: apply snoc_lookup. }
    destruct Ht as (s1 & es1 & Ht & Hs1 & Ha1 & Hws1 & Hsk1 & Hq1
                    & p & h & id & data & Hr1 & Hl1 & Ht1 & Hp1 & Hpr1).
    destruct (drain_waiting s1 p rest Hr1 Hpr1)
      as (s2 & Hd & Hc & Hr2 & Hpr2 & Htm2 & Hpe2).
    apply core_eq in Hc as (? & ? & ? & ? & ? & ? & ? & ? & ? & ? & ? & ? & ? & ? & ? & ?).
    unfold step. rewrite Ht, Hd, app_nil_r. eexists _, _. split; [reflexivity|].
    split; [congruence|]. split; [congruence|]. split; [|done].
    split; [congruence|unfold socket_state in *; congruence|].
    exists p, h, id, data. rewrite Hr2, Hpr2, Htm2, Hpe2. done.
Qed.

Lemma request_settles k rest s es o :
  replaying k rest s es ->
  exists s1 es1 p st,
    match last (sub_timers es) with
    | Some (h, id) =>
        task (handle match o with
                     | Confirmed d r f =>
                         SocketMessage k (Some (MSubscriptionConfirmed id d r f))
                     | TimedOut => TimerFired h
                     end) s = (s1, es1)
    | None => False
    end /\
    ws s1 = Some k /\ socket_state s1 k = Some OPEN /\
    replays s1 = [mkReplay p rest] /\
    promises s1 !! p = Some st /\ settled st = true /\
    sub_timers es1 = [] /\ subscribe_requests es1 = [].
Proof.
  intros [Hws Hk (p & h & id & data & Hr & Hl & Ht & Hg & Hp)].
  rewrite Hl. destruct o as [d r f|].
  - destruct (confirmation_settles s k id d r f _ Hk Hg Hp)
      as (s1 & es1 & Htask & Hc & Hr1 & Hp1 & _ & Hq1 & Hq2).
    apply core_eq in Hc as (? & Hws1 & ? & ? & ? & ? & ? & ? & ? & ? & ? & ? & ? & ? & Hs1 & ?).
    proj_simpl in Hws1. proj_simpl in Hs1.
    eexists s1, es1, p, _. split; [exact Htask|].
    split; [congruence|]. split; [unfold socket_state in *; congruence|].
    split; [congruence|]. split; [exact Hp1|]. done.
  - destruct (timeout_settles s h id p _ Ht Hg Hp)
      as (s1 & Htask & Hc & Hr1 & Hp1 & _).
    apply core_eq in Hc as (? & Hws1 & ? & ? & ? & ? & ? & ? & ? & ? & ? & ? & ? & ? & Hs1 & ?).
    eexists s1, [], p, _. split; [exact Htask|].
    split; [congruence|]. split; [unfold socket_state in *; congruence|].
    split; [congruence|]. split; [exact Hp1|]. done.
Qed.

Lemma answer_next k entry rest s es o :
  replaying k (entry :: rest) s es ->
  exists s' es',
    answer k (s, es) o = (s', es') /\
    replaying k rest s' es' /\
    subscribe_requests es' = [replay_request entry].
Proof.
  intros Hrep. destruct entry as [i sub].
  destruct (request_settles k _ s es o Hrep)
    as (s1 & es1 & p & st & Htask & Hws1 & Hk1 & Hr1 & Hp1 & Hst & Hq1 & Hq2).
  unfold answer. cbn [fst snd].
  destruct (last (sub_timers es)) as [[h id]|]; [|done].
  destruct (drain_resume s1 k p i sub rest st Hws1 Hk1 Hr1 Hp1 Hst)
    as (s2 & Hd & Hc & Hr2 & Htm2 & Hpe2 & Hpr2).
  apply core_eq in Hc as (? & Hws2 & ? & ? & ? & ? & ? & ? & ? & ? & ? & ? & ? & ? & Hs2 & ?).
  assert (Hstep : forall ev, task (handle ev) s = (s1, es1) ->
            step s ev = (s2, es1 ++ [WsSend k (FSubscribe (next_id s1) (domain sub) (resource sub)
                        (frame_filters (options sub))
                        (frame_include_data (options sub)));
            SetTimeout (nextTimer s1)
                       (TSubscription (next_id s1) (length (promises s1))) 10000])).
  { intros ev Hev. unfold step. by rewrite Hev, Hd. }
  eexists _, _. split; [destruct o; by apply Hstep|].
  split.
  - split; [congruence|unfold socket_state in *; congruence|].
    eexists _, _, _, _. split; [exact Hr2|].
    split; [rewrite sub_timers_app, Hq1; reflexivity|].
    rewrite Htm2, Hpe2, Hpr2. split; [apply lookup_insert_eq|].
    split; [apply jm_get_set_eq|apply snoc_lookup].
  - rewrite subscribe_requests_app, Hq2. reflexivity.
Qed.

Lemma answer_last k s es o :
  replaying k [] s es ->
  exists s' es',
    answer k (s, es) o = (s', es') /\
    replays s' = [] /\ subscribe_requests es' = [] /\ sub_timers es' = [].
Proof.
  intros Hrep.
  destruct (request_settles k _ s es o Hrep)
    as (s1 & es1 & p & st & Htask & Hws1 & Hk1 & Hr1 & Hp1 & Hst & Hq1 & Hq2).
  unfold answer. cbn [fst snd].
  destruct (last (sub_timers es)) as [[h id]|]; [|done].
  destruct (drain_finish s1 p st Hr1 Hp1 Hst) as (s2 & Hd & _ & Hr2 & _).
  assert (Hstep : forall ev, task (handle ev) s = (s1, es1) ->
            step s ev = (s2, es1)).
  { intros ev Hev. unfold step. by rewrite Hev, Hd, app_nil_r. }
  eexists _, _. split; [destruct o; by apply Hstep|]. done.
Qed.

Lemma replay_run_idle k os : forall s es,
  sub_timers es = [] ->
  exists s' last', replay_run k (s, es) os = (s', [], last').
Proof.
  induction os as [|o os IH]; intros s es Hes; cbn [replay_run fst snd].
  - by eexists _, _.
  - unfold answer. cbn [fst snd]. rewrite Hes. cbn [last fst snd].
    destruct (IH s [] eq_refl) as (s' & last' & ->). by eexists _, _.
Qed.

Lemma replay_run_spec k os : forall rest s es,
  replaying k rest s es ->
  exists s' es' last',
    replay_run k (s, es) os = (s', es', last') /\
    subscribe_requests es' = map replay_request (firstn (length os) rest).
Proof.
  induction os as [|o os IH]; intros rest s es Hrep; cbn [replay_run length firstn].
  - by eexists _, _, _.
  - destruct rest as [|entry rest].
    + destruct (answer_last k s es o Hrep) as (s1 & es1 & -> & Hr1 & Hq1 & Hq2).
      destruct (replay_run_idle k os s1 es1 Hq2) as (s' & last' & ->).
      eexists _, _, _. split; [reflexivity|]. cbn [snd].
      by rewrite app_nil_r, Hq1.
    + destruct (answer_next k entry rest s es o Hrep)
        as (s1 & es1 & -> & Hrep1 & Hq1).
      destruct (IH rest s1 es1 Hrep1) as (s' & es' & last' & -> & Hq').
      eexists _, _, _. split; [reflexivity|]. cbn [snd map].
      by rewrite subscribe_requests_app, Hq1, Hq'.
Qed.

Lemma subscribe_keeps_replays d r o s :
  exists p s' es, subscribe d r o s = (Ok p, s', es) /\ replays s' = replays s /\
                  subscriptions s' = subscriptions s.
Proof.
  unfold subscribe, rejected_promise, newPromise, reject, _generateId, ws_send,
    socket_send, setTimeout.
  crunch; by eexists _, _, _.
Qed.

Ltac keep_call :=
  match goal with
  | |- context [subscribe ?d ?r ?o ?s] =>
      let H1 := fresh "Hkr" in
      let H2 := fresh "Hks" in
      destruct (subscribe_keeps_replays d r o s) as (? & ? & ? & -> & H1 & H2)
  | |- context [_connect ?s] =>
      let P := fresh "P" in
      destruct (_connect_spec s) as (? & ? & -> & P); destruct P
  end.

Lemma handler_keeps_replays ev s :
  (forall k u m ss, ev = SocketMessage k (Some (MConnected u m ss)) ->
                    reconnectAttempts s = 0) ->
  replays (task (handle ev) s).1 = replays s.
Proof.
  intros Hev.
  destruct ev as [| | | | | | | | | | |k [[]|]| | |].
  12: { specialize (Hev _ _ _ _ eq_refl).
        unfold task, handle, onmessage, _handleMessage, _startPingInterval,
          setInterval, resolve.
        repeat (first [mstep | use_hyps | case_inner]); done. }
  all: clear Hev.
  all: unfold task, handle, connect, disconnect, _cleanup, unsubscribe, on, off,
         sendTypingEvent, ping, updateConfig, setBearerToken, onmessage,
         _handleMessage, _handleSubscriptionConfirmed,
         onopen, onerror, onclose, _scheduleReconnect, reconnect_fired,
         connectionTimeout_fired, subscriptionTimeout_fired,
         _stopPingInterval, _startPingInterval, setInterval, setTimeout, clearTimer,
         ws_send, socket_send, set_socket_state,
         socket_close, rejected_promise, newPromise, resolve, reject.
  all: repeat (first [mstep | use_hyps | rewrite forEach_reject_unfolded
                     | keep_call | case_inner]).
  all: proj_simpl; try done; try congruence.
Qed.

Lemma connected_direct s k u m ss p :
  socket_state s k = Some OPEN -> reconnectAttempts s = 0 ->
  authResolve s = Some p -> promises s !! p = Some Pending ->
  exists s' es,
    task (handle (SocketMessage k (Some (MConnected u m ss)))) s = (s', es) /\
    subscriptions s' = subscriptions s /\ replays s' = replays s /\
    subscribe_requests es = [] /\
    promises s' !! p = Some (Fulfilled (VConnected (MConnected u m ss))).
Proof.
  intros Hk Ha Hres Hp.
  unfold task, handle, onmessage, _handleMessage, _startPingInterval,
    setInterval, resolve.
  repeat (first [mstep | use_hyps | progress cbn [Nat.ltb Nat.leb] | case_inner]).
  all: eexists _, _; (split; [reflexivity|]); proj_simpl; sub_simpl.
  all: repeat (split; [done|]); by apply settle_in_lookup_pending.
Qed.

Lemma step_idle s ev s1 es1 :
  task (handle ev) s = (s1, es1) -> replays s1 = [] ->
  exists s2, step s ev = (s2, es1) /\ core s2 = core s1 /\ replays s2 = [] /\
             promises s2 = promises s1 /\ timers s2 = timers s1 /\
             pendingSubscriptions s2 = pendingSubscriptions s1.
Proof.
  intros Ht Hr. destruct (drain_idle s1 Hr) as (s2 & Hd & H).
  exists s2. unfold step. by rewrite Ht, Hd, app_nil_r.
Qed.

Lemma direct_connect_has_no_replay s u m ss :
  is_open s = false -> isConnecting s = false ->
  truthy (bearerToken s) = true -> replays s = [] ->
  let k := length (sockets s) in
  let r := run s [CallConnect; SocketOpen k;
                  SocketMessage k (Some (MConnected u m ss))] in
  subscriptions r.1 = subscriptions s /\ subscribe_requests r.2 = [] /\
  replays r.1 = [] /\
  promises r.1 !! length (promises s)
  = Some (Fulfilled (VConnected (MConnected u m ss))).
Proof.
  intros Ho Hc Htok Hr k r. subst k r.
  destruct (connect_spec s Ho Hc) as (s1 & url & Ht1 & P1). open_post P1.
  destruct (step_idle _ _ _ _ Ht1) as (s1' & Hs1 & Hc1 & Hr1 & Hp1 & Htm1 & _);
    [congruence|].
  apply core_eq in Hc1
    as (? & ? & ? & ? & ? & ? & ? & ? & ? & ? & ? & ? & ? & ? & ? & ?).
  destruct (open_with_token s1' (length (sockets s))
              (mkSocket CONNECTING (length (promises s)) (nextTimer s)))
    as (s2 & es2 & Ht2 & _ & _ & Hp2 & _ & _ & Hsk2 & Hws2 & Hres2 & _ & Hsub2
        & Ha2 & Hr2 & Hes2);
    [replace (sockets s1') with (sockets s1) by done;
     rewrite cp_sockets0; apply snoc_lookup|done|congruence|congruence|].
  destruct (step_idle _ _ _ _ Ht2) as (s2' & Hs2 & Hc2 & Hr2' & Hp2' & _);
    [congruence|].
  apply core_eq in Hc2
    as (? & ? & ? & ? & ? & ? & ? & ? & ? & ? & ? & ? & ? & ? & ? & ?).
  destruct (connected_direct s2' (length (sockets s)) u m ss (length (promises s)))
    as (s3 & es3 & Ht3 & Hsub3 & Hr3 & Hq3 & Hp3).
  { unfold socket_state.
    replace (sockets s2') with (sockets s2) by done. rewrite Hsk2.
    rewrite list_lookup_insert_eq; [done|].
    replace (sockets s1') with (sockets s1) by done.
    rewrite cp_sockets0, length_app. cbn. lia. }
  { congruence. }
  { congruence. }
  { rewrite Hp2', Hp2, Hp1, cp_promises0. apply snoc_lookup. }
  destruct (step_idle _ _ _ _ Ht3) as (s3' & Hs3 & Hc3 & Hr3' & Hp3' & _);
    [congruence|].
  apply core_eq in Hc3
    as (? & ? & ? & ? & ? & ? & ? & ? & ? & ? & ? & ? & ? & ? & ? & ?).
  cbn [run]. rewrite Hs1, Hs2, Hs3. cbn [fst snd].
  split; [congruence|]. split; [by rewrite Hes2, app_nil_r; sub_simpl|].
  split; [done|]. by rewrite Hp3'.
Qed.

(** C3 (amended). A replay is started by no event other than a
    [connected] frame that arrives while the attempt counter is nonzero;
    a [connect()] that succeeds directly (socket opens, server answers)
    starts none and leaves the durable table as it is. On a reconnect the
    table is cleared and only the first recorded subscription is
    re-requested at once; each further subscribe frame is sent when the
    request before it has settled, by a confirmation or by its timeout
    alike, so that after [j] answers [j + 1] of the [N] frames are on the
    wire, in table order, and all [N] after [N - 1] answers. As long as
    the awaited request is pending, a step sends no replay frame of its
    own. *)
Theorem replay_one_at_a_time :
  (forall s ev,
      replays s = [] -> replays (step s ev).1 <> [] ->
      exists k u m ss,
        ev = SocketMessage k (Some (MConnected u m ss)) /\
        0 < reconnectAttempts s) /\
  (forall s u m ss,
      is_open s = false -> isConnecting s = false ->
      truthy (bearerToken s) = true -> replays s = [] ->
      let k := length (sockets s) in
      let r := run s [CallConnect; SocketOpen k;
                      SocketMessage k (Some (MConnected u m ss))] in
      subscriptions r.1 = subscriptions s /\ subscribe_requests r.2 = [] /\
      replays r.1 = []) /\
  (forall s k u m ss os,
      ws s = Some k -> socket_state s k = Some OPEN ->
      0 < reconnectAttempts s -> replays s = [] ->
      let r0 := step s (SocketMessage k (Some (MConnected u m ss))) in
      subscriptions r0.1 = [] /\
      subscribe_requests r0.2
      = map replay_request (firstn 1 (subscriptions s)) /\
      subscribe_requests (r0.2 ++ (replay_run k r0 os).1.2)
      = map replay_request (firstn (S (length os)) (subscriptions s))) /\
  (forall s ev p rest,
      replays s = [mkReplay p rest] ->
      (forall k u m ss, ev = SocketMessage k (Some (MConnected u m ss)) ->
                        reconnectAttempts s = 0) ->
      promises (task (handle ev) s).1 !! p = Some Pending ->
      (step s ev).2 = (task (handle ev) s).2).
Proof.
  split; [|split; [|split]].
  - intros s ev Hr Hne.
    assert (Hdec : (exists k u m ss,
                       ev = SocketMessage k (Some (MConnected u m ss)) /\
                       0 < reconnectAttempts s) \/
                   (forall k u m ss,
                       ev = SocketMessage k (Some (MConnected u m ss)) ->
                       reconnectAttempts s = 0)).
    { destruct ev as [| | | | | | | | | | |k [[u m ss| | | | | | | |]|]| | |];
        try (right; intros; discriminate).
      destruct (reconnectAttempts s) as [|n] eqn:Ha.
      - right. by intros.
      - left. exists k, u, m, ss. split; [done|lia]. }
    destruct Hdec as [Hyes|Hno]; [done|]. exfalso. apply Hne.
    pose proof (handler_keeps_replays ev s Hno) as Hk.
    destruct (task (handle ev) s) as [s1 es1] eqn:Ht. cbn [fst] in Hk.
    destruct (step_idle _ _ _ _ Ht) as (s2 & -> & _ & Hr2 & _); [congruence|].
    done.
  - intros s u m ss Ho Hc Htok Hr.
    destruct (direct_connect_has_no_replay s u m ss Ho Hc Htok Hr)
      as (H1 & H2 & H3 & _).
    done.
  - intros s k u m ss os Hws Hk Ha Hr r0. subst r0.
    destruct (connected_starts_replay s k u m ss Hws Hk Ha Hr)
      as (s1 & es1 & -> & Hs1 & _ & Hcase).
    cbn [fst snd]. split; [done|].
    destruct (subscriptions s) as [|entry rest].
    + destruct Hcase as (Hr1 & Hq1 & Hq2).
      destruct (replay_run_idle k os s1 es1 Hq2) as (s' & last' & ->).
      cbn [fst snd firstn map]. by rewrite app_nil_r, Hq1.
    + destruct Hcase as (Hrep & Hq1).
      destruct (replay_run_spec k os rest s1 es1 Hrep)
        as (s' & es' & last' & -> & Hq').
      cbn [fst snd firstn map]. split; [by rewrite Hq1, firstn_O|].
      by rewrite subscribe_requests_app, Hq1, Hq'.
  - intros s ev p rest Hr Hno Hp.
    pose proof (handler_keeps_replays ev s Hno) as Hk.
    destruct (task (handle ev) s) as [s1 es1] eqn:Ht. cbn [fst snd] in *.
    destruct (drain_waiting s1 p rest) as (s2 & Hd & _); [congruence|done|].
    unfold step. by rewrite Ht, Hd, app_nil_r.
Qed.

Lemma replay_one_at_a_time_witness :
  subscribe_requests
    (step demo_reconnecting (SocketMessage 1 (Some demo_welcome))).2
  = [("chat", "message", no_filters, false)] /\
  subscribe_requests
    ((step demo_reconnecting (SocketMessage 1 (Some demo_welcome))).2
     ++ (replay_run 1 (step demo_reconnecting (SocketMessage 1 (Some demo_welcome)))
                    [TimedOut]).1.2)
  = [("chat", "message", no_filters, false);
     ("trip", "itinerary", no_filters, false)].
Proof.
  destruct replay_one_at_a_time as (_ & _ & H & _).
  destruct (H demo_reconnecting 1 "u1" "welcome" [] [TimedOut])
    as (_ & H1 & H2); [reflexivity|reflexivity|vm_compute; lia|reflexivity|].
  split; [exact H1|exact H2].
Defined.

(** C3, as stated, fails: after a reconnect with two recorded
    subscriptions, handling the [connected] frame puts one subscribe
    frame on the wire, not two; the second waits for the first request to
    settle. *)
Lemma replay_is_not_concurrent : ~ replay_is_concurrent.
Proof.
  intros H.
  specialize (H demo_reconnecting 1 "u1" "welcome" []
                eq_refl eq_refl).
  assert (Ha : 0 < reconnectAttempts demo_reconnecting) by (vm_compute; lia).
  specialize (H Ha eq_refl). vm_compute in H. discriminate.
Qed.

(** *** The durable table *)

Lemma session_task k s ev :
  in_session k s -> session_event k ev = true ->
  exists s1 es1,
    task (handle ev) s = (s1, es1) /\
    ws s1 = ws s /\ sockets s1 = sockets s /\ reconnectAttempts s1 = 0 /\
    (forall h, timers s1 !! h <> Some TReconnect) /\
    subscriptions s1 = table_effect s ev (subscriptions s).
Proof.
  intros [Hws Hk Ha Ht] Hev.
  assert (Hopen : is_open s = true).
  { unfold is_open. rewrite Hws. by apply bool_decide_eq_true. }
  unfold is_open, socket_state in *.
  destruct ev as [| |d r o| | | | | | | | |k' [[]|]| | |]; try done;
    cbn [session_event] in Hev;
    try (apply Nat.eqb_eq in Hev; subst k').
  { unfold task, handle. mstep.
    destruct (subscribe_frame d r o s) as (s1 & es1 & -> & F & E).
    repeat mstep. eexists _, _. split; [reflexivity|]. open_frame F.
    repeat (split; [congruence|]). split; [|done].
    intros h Hh. destruct (fr_new_timers _ _ F _ _ Hh) as [?|(? & ? & ?)];
      [by eapply Ht|done]. }
  all: unfold task, handle, unsubscribe, on, off,
         sendTypingEvent, ping, setBearerToken, onmessage,
         _handleMessage, _handleSubscriptionConfirmed,
         connectionTimeout_fired, subscriptionTimeout_fired, reconnect_fired,
         _startPingInterval, setInterval, setTimeout, clearTimer,
         ws_send, socket_send, socket_close, rejected_promise, newPromise,
         resolve, reject, is_open, socket_state, table_effect.
  all: repeat (first [mstep | use_hyps | keep_call
                     | progress cbn [Nat.ltb Nat.leb] | case_inner]).
  all: try (exfalso; eapply Ht; eassumption).
  all: try congruence.
  all: eexists _, _; (split; [reflexivity|]); proj_simpl.
  all: repeat (split; [first [done|congruence|timers_goal]|]).
  all: try done.
Qed.

Section JsMapFacts.
Context {K V : Type} `{EqDecision K}.
Implicit Types (m : JsMap K V) (k : K) (v : V).

Lemma jm_get_set_ne k k' v m : k <> k' -> jm_get k' (jm_set k v m) = jm_get k' m.
Proof.
  intros Hne. induction m as [|[k0 v0] m IH]; cbn.
  - by rewrite decide_False.
  - destruct (decide (k0 = k)) as [->|]; cbn.
    + by rewrite !decide_False.
    + by rewrite IH.
Qed.

Lemma jm_get_delete_eq k m : jm_get k (jm_delete k m) = None.
Proof.
  induction m as [|[k0 v0] m IH]; cbn; [done|].
  destruct (decide (k0 = k)); cbn; [done|]. by rewrite decide_False.
Qed.

Lemma jm_get_delete_ne k k' m : k <> k' -> jm_get k' (jm_delete k m) = jm_get k' m.
Proof.
  intros Hne. induction m as [|[k0 v0] m IH]; cbn; [done|].
  destruct (decide (k0 = k)) as [->|]; cbn.
  - by rewrite decide_False.
  - by rewrite IH.
Qed.

Lemma jm_has_set_eq k v m : jm_has k (jm_set k v m) = true.
Proof. unfold jm_has. by rewrite jm_get_set_eq. Qed.

Lemma jm_has_set_ne k k' v m : k <> k' -> jm_has k' (jm_set k v m) = jm_has k' m.
Proof. intros. unfold jm_has. by rewrite jm_get_set_ne. Qed.

Lemma jm_has_delete_eq k m : jm_has k (jm_delete k m) = false.
Proof. unfold jm_has. by rewrite jm_get_delete_eq. Qed.

Lemma jm_has_delete_ne k k' m : k <> k' -> jm_has k' (jm_delete k m) = jm_has k' m.
Proof. intros. unfold jm_has. by rewrite jm_get_delete_ne. Qed.
End JsMapFacts.

Lemma session_step k s ev :
  in_session k s -> session_event k ev = true ->
  in_session k (step s ev).1 /\
  subscriptions (step s ev).1 = table_effect s ev (subscriptions s).
Proof.
  intros Hs Hev.
  destruct (session_task k s ev Hs Hev) as (s1 & es1 & Ht & Hws & Hsk & Ha & Htm & Hsub).
  destruct (step_any _ _ _ _ Ht) as (s2 & es2 & -> & F & _).
  cbn [fst]. open_frame F. destruct Hs. split; [|congruence].
  split; [congruence|unfold socket_state in *; congruence|congruence|].
  intros h Hh. destruct (fr_new_timers _ _ F _ _ Hh) as [?|(? & ? & ?)];
    [by eapply Htm|done].
Qed.

Lemma run_state_cons s ev evs :
  run_state s (ev :: evs) = run_state (step s ev).1 evs.
Proof.
  unfold run_state. cbn [run]. destruct (step s ev) as [s1 es1]. cbn [fst].
  by destruct (run s1 evs).
Qed.

Lemma run_snoc s evs ev :
  run_state s (evs ++ [ev]) = (step (run_state s evs) ev).1.
Proof.
  revert s. induction evs as [|e evs IH]; intros s.
  - cbn [app]. by rewrite run_state_cons.
  - cbn [app]. by rewrite !run_state_cons, IH.
Qed.

Lemma session_run k evs : forall s,
  in_session k s -> forallb (session_event k) evs = true ->
  in_session k (run_state s evs).
Proof.
  induction evs as [|ev evs IH] using rev_ind; intros s Hs Hevs; [done|].
  rewrite forallb_app in Hevs. cbn in Hevs.
  apply andb_true_iff in Hevs as [Hevs Hev%andb_true_iff]. destruct Hev as [Hev _].
  rewrite run_snoc. by apply session_step; [apply IH|].
Qed.

Lemma removes_dec id ev : {removes id ev} + {~ removes id ev}.
Proof.
  unfold removes.
  destruct ev as [| | |id'| | | | | | | |k [[| | |id'| | | | |]|]| | |];
    try (right; intros [?|[? ?]]; discriminate).
  - destruct (decide (id' = id)) as [->|Hne]; [left; by left|].
    right. intros [?|[? ?]]; congruence.
  - destruct (decide (id' = id)) as [->|Hne]; [left; right; by exists k|].
    right. intros [?|[? ?]]; congruence.
Qed.

Lemma table_effect_has s ev id m :
  jm_has id (table_effect s ev m)
  = if removes_dec id ev then false
    else if jm_has id m then true
    else match ev with
         | SocketMessage _ (Some (MSubscriptionConfirmed id' _ _ _)) =>
             bool_decide (id' = id) && jm_has id (pendingSubscriptions s)
         | _ => false
         end.
Proof.
  destruct (removes_dec id ev) as [Hrem|Hnot].
  - destruct Hrem as [->|[k ->]]; cbn; apply jm_has_delete_eq.
  - destruct ev as [| | |id'| | | | | | | |k [[| |id' d r f|id'| | | | |]|]| | |];
      cbn [table_effect]; try by destruct (jm_has id m).
    + rewrite jm_has_delete_ne; [by destruct (jm_has id m)|].
      intros ->. apply Hnot. by left.
    + destruct (decide (id' = id)) as [->|Hne].
      * rewrite bool_decide_eq_true_2 by done. unfold jm_has at 3.
        destruct (jm_get id (pendingSubscriptions s)); cbn.
        -- rewrite jm_has_set_eq. by destruct (jm_has id m).
        -- by destruct (jm_has id m).
      * rewrite bool_decide_eq_false_2 by done.
        destruct (jm_get id' (pendingSubscriptions s));
          rewrite ?jm_has_set_ne by done; by destruct (jm_has id m).
    + rewrite jm_has_delete_ne; [by destruct (jm_has id m)|].
      intros ->. apply Hnot. right. by exists k.
Qed.

Lemma confirms_dec s id ev : {confirms s id ev} + {~ confirms s id ev}.
Proof.
  unfold confirms.
  destruct ev as [| | | | | | | | | | |k [[| |id' d r f| | | | | |]|]| | |];
    try (right; intros (? & ? & ? & ? & ? & ?); discriminate).
  destruct (decide (id' = id)) as [->|Hne].
  - destruct (jm_has id (pendingSubscriptions s)) eqn:E.
    + left. by exists k, d, r, f.
    + right. intros (? & ? & ? & ? & ? & ?). congruence.
  - right. intros (? & ? & ? & ? & ? & ?). congruence.
Qed.

Lemma table_step_has s ev id m :
  jm_has id (table_effect s ev m) = true <->
  ~ removes id ev /\ (jm_has id m = true \/ confirms s id ev).
Proof.
  rewrite table_effect_has. destruct (removes_dec id ev) as [Hrem|Hnot].
  - split; [done|]. by intros [? _].
  - destruct (jm_has id m) eqn:Hm; [split; auto|].
    split.
    + intros H. split; [done|]. right.
      destruct ev as [| | | | | | | | | | |k [[| |id' d r f| | | | | |]|]| | |];
        try done.
      apply andb_true_iff in H as [->%bool_decide_eq_true Hp].
      by exists k, d, r, f.
    + intros [_ [?|(k & d & r & f & -> & Hp)]]; [done|].
      by rewrite bool_decide_eq_true_2.
Qed.

Lemma table_tracks k evs : forall s0 id,
  in_session k s0 -> forallb (session_event k) evs = true ->
  jm_has id (subscriptions (run_state s0 evs)) = true <->
  confirmed_not_unsubscribed s0 evs id.
Proof.
  induction evs as [|ev evs IH] using rev_ind; intros s0 id Hs Hevs.
  - unfold confirmed_not_unsubscribed. cbn. split.
    + intros H. exists [], []. split; [done|]. split; [constructor|]. by left.
    + intros (pre & post & Heq & _ & [[_ H]|(pre' & ev & -> & _)]); [done|].
      symmetry in Heq. apply app_eq_nil in Heq as [Heq _].
      by apply app_eq_nil in Heq as [_ ?].
  - rewrite forallb_app in Hevs. cbn in Hevs.
    apply andb_true_iff in Hevs as [Hevs Hev%andb_true_iff].
    destruct Hev as [Hev _].
    pose proof (session_run k evs s0 Hs Hevs) as Hs'.
    destruct (session_step k _ ev Hs' Hev) as [_ Hsub].
    rewrite run_snoc, Hsub, table_step_has. specialize (IH s0 id Hs Hevs).
    split.
    + intros [Hnot [Hhas|Hconf]].
      * apply IH in Hhas as (pre & post & -> & Hpost & Horigin).
        exists pre, (post ++ [ev]). split; [by rewrite app_assoc|].
        split; [|done]. apply Forall_app. split; [done|]. by constructor.
      * exists (evs ++ [ev]), []. split; [by rewrite app_nil_r|].
        split; [constructor|]. right. by exists evs, ev.
    + intros (pre & post & Heq & Hpost & Horigin).
      destruct post as [|e post _] using rev_ind.
      * rewrite app_nil_r in Heq. subst pre.
        destruct Horigin as [[Hnil _]|(pre' & ev' & Heq & Hconf)].
        { by apply app_eq_nil in Hnil as [_ ?]. }
        apply app_inj_tail in Heq as [-> ->]. split; [|by right].
        destruct Hconf as (k' & d & r & f & -> & _).
        intros [?|[? ?]]; discriminate.
      * rewrite app_assoc in Heq. apply app_inj_tail in Heq as [-> ->].
        apply Forall_app in Hpost as [Hpost Hlast].
        split; [by inversion Hlast|]. left. apply IH.
        by exists pre, post.
Qed.

Lemma unsubscribe_open s k id :
  ws s = Some k -> socket_state s k = Some OPEN ->
  exists s1,
    task (handle (CallUnsubscribe id)) s = (s1, [WsSend k (FUnsubscribe id)]) /\
    promises s1 = promises s ++ [Fulfilled VVoid] /\
    subscriptions s1 = jm_delete id (subscriptions s).
Proof.
  intros Hws Hk.
  assert (Hopen : is_open s = true).
  { unfold is_open. rewrite Hws. by apply bool_decide_eq_true. }
  unfold socket_state in *.
  unfold task, handle, unsubscribe, newPromise, ws_send, socket_send, resolve,
    socket_state.
  repeat (first [mstep | use_hyps]).
  eexists. split; [reflexivity|]. proj_simpl. by rewrite settle_in_fresh.
Qed.

(** C4. While the client is connected, after any sequence of calls of
    the subscription and listener interface, inbound frames and timers,
    the durable table holds exactly the ids that were confirmed (a
    [subscription_confirmed] frame arrived while a request for that id was
    pending) and not unsubscribed since, by [unsubscribe(id)] or by the
    server's [unsubscribed] frame. In particular an id enters the table
    only through a confirmation that finds its pending request, with the
    domain, resource and options of that request; and [unsubscribe(id)]
    sends the unsubscribe frame, removes [id] and resolves at once. *)
Theorem durable_table_is_confirmed_minus_unsubscribed (k : nat) (s0 : State)
  (evs : list Event) (id : string) :
  in_session k s0 -> forallb (session_event k) evs = true ->
  let s := run_state s0 evs in
  (jm_has id (subscriptions s) = true <-> confirmed_not_unsubscribed s0 evs id) /\
  (forall ev, session_event k ev = true ->
              jm_has id (subscriptions s) = false ->
              jm_has id (subscriptions (step s ev).1) = true ->
              confirms s id ev) /\
  (forall d r f pending,
      jm_get id (pendingSubscriptions s) = Some pending ->
      jm_get id (subscriptions
                   (step s (SocketMessage k
                              (Some (MSubscriptionConfirmed id d r f)))).1)
      = Some (p_data pending)) /\
  (exists s1, task (handle (CallUnsubscribe id)) s
              = (s1, [WsSend k (FUnsubscribe id)])) /\
  jm_has id (subscriptions (step s (CallUnsubscribe id)).1) = false /\
  promises (step s (CallUnsubscribe id)).1 !! length (promises s)
  = Some (Fulfilled VVoid).
Proof.
  intros Hs0 Hevs s.
  pose proof (session_run k evs s0 Hs0 Hevs) as Hs. fold s in Hs.
  split; [by apply (table_tracks k)|]. split; [|split].
  - intros ev Hev Hno Hyes.
    destruct (session_step k s ev Hs Hev) as [_ Hsub].
    rewrite Hsub in Hyes. apply table_step_has in Hyes as [_ [?|?]]; [congruence|done].
  - intros d r f pending Hp.
    destruct (session_step k s (SocketMessage k (Some (MSubscriptionConfirmed id d r f))) Hs)
      as [_ Hsub]; [cbn; apply Nat.eqb_refl|].
    rewrite Hsub. cbn [table_effect]. rewrite Hp. apply jm_get_set_eq.
  - destruct Hs as [Hws Hk _ _].
    destruct (unsubscribe_open s k id Hws Hk) as (s1 & Ht & Hp & Hsub).
    split; [by exists s1|].
    destruct (step_any _ _ _ _ Ht) as (s2 & es2 & -> & F & _). cbn [fst].
    open_frame F. split.
    + replace (subscriptions s2) with (subscriptions s1) by done.
      rewrite Hsub. apply jm_has_delete_eq.
    + rewrite (fr_old_promises _ _ F).
      * rewrite Hp. apply snoc_lookup.
      * rewrite Hp, length_app. cbn. lia.
Qed.

Lemma in_session_check k s :
  ws s = Some k -> socket_state s k = Some OPEN -> reconnectAttempts s = 0 ->
  no_retry_armed s = true -> in_session k s.
Proof. intros. split; try done. by apply no_retry_armed_sound. Qed.

Lemma durable_table_is_confirmed_minus_unsubscribed_witness :
  jm_has "01234567-89ab-4cde-b012-3456789abcde"
    (subscriptions
       (run_state demo_connected
          [CallSubscribe "chat" "message" None;
           SocketMessage 0 (Some (MSubscriptionConfirmed
                                    "01234567-89ab-4cde-b012-3456789abcde"
                                    "chat" "message" no_filters))])) = true
  <-> confirmed_not_unsubscribed demo_connected
        [CallSubscribe "chat" "message" None;
         SocketMessage 0 (Some (MSubscriptionConfirmed
                                  "01234567-89ab-4cde-b012-3456789abcde"
                                  "chat" "message" no_filters))]
        "01234567-89ab-4cde-b012-3456789abcde".
Proof.
  destruct (durable_table_is_confirmed_minus_unsubscribed 0 demo_connected
              [CallSubscribe "chat" "message" None;
               SocketMessage 0 (Some (MSubscriptionConfirmed
                                        "01234567-89ab-4cde-b012-3456789abcde"
                                        "chat" "message" no_filters))]
              "01234567-89ab-4cde-b012-3456789abcde") as [H _].
  - apply in_session_check; reflexivity.
  - reflexivity.
  - exact H.
Defined.

(** *** Settling at most once *)






















(** *** The copy handed out by [getSubscriptions] *)

Lemma map_op_other h h' op st :
  h <> h' ->
  MapStore.map_objects (MapStore.map_op h op st) !! h'
  = MapStore.map_objects st !! h' /\
  MapStore.entries (MapStore.map_op h op st) = MapStore.entries st.
Proof.
  intros Hne. unfold MapStore.map_op.
  destruct (MapStore.map_objects st !! h); cbn; [|done].
  by rewrite list_lookup_insert_ne.
Qed.

Lemma mutate_other h h' ops : forall st,
  h <> h' ->
  MapStore.view (MapStore.mutate h ops st) h' = MapStore.view st h'.
Proof.
  induction ops as [|op ops IH]; intros st Hne; [done|].
  change (MapStore.mutate h (op :: ops) st)
    with (MapStore.mutate h ops (MapStore.map_op h op st)).
  rewrite IH by done. unfold MapStore.view, MapStore.deref.
  destruct (map_op_other h h' op st Hne) as [-> ->]. done.
Qed.

(** C10. [getSubscriptions()] returns a new [Map] object, distinct from
    the one held in [this.subscriptions], with the same content as the
    table at the time of the call; the call leaves the table as it is;
    and whatever sequence of [set], [delete] and [clear] the caller then
    applies to the returned [Map], the content of the table is what it
    was, so that every later run of the module, replay included, is the
    same as if the copy had never been touched. *)
Theorem getSubscriptions_returns_fresh_copy (table : nat) (st : MapStore.Store)
  (ops : list MapStore.MapOp) :
  table < length (MapStore.map_objects st) ->
  let st' := (MapStore.getSubscriptions table st).1 in
  let copy := (MapStore.getSubscriptions table st).2 in
  copy <> table /\
  MapStore.view st' copy = MapStore.view st table /\
  MapStore.view st' table = MapStore.view st table /\
  MapStore.view (MapStore.mutate copy ops st') table = MapStore.view st table /\
  (forall rest evs,
      run (MapStore.with_table (MapStore.mutate copy ops st') table rest) evs
      = run (MapStore.with_table st table rest) evs).
Proof.
  intros Hlt st' copy. subst st' copy.
  unfold MapStore.getSubscriptions, MapStore.new_Map. cbn [fst snd].
  assert (Hne : length (MapStore.map_objects st) <> table) by lia.
  assert (Hcopy : MapStore.view
            {| MapStore.map_objects :=
                 MapStore.map_objects st
                 ++ [default [] (MapStore.map_objects st !! table)];
               MapStore.entries := MapStore.entries st |}
            (length (MapStore.map_objects st)) = MapStore.view st table).
  { unfold MapStore.view. cbn. by rewrite snoc_lookup. }
  assert (Hsame : MapStore.view
            {| MapStore.map_objects :=
                 MapStore.map_objects st
                 ++ [default [] (MapStore.map_objects st !! table)];
               MapStore.entries := MapStore.entries st |} table
            = MapStore.view st table).
  { unfold MapStore.view. cbn. by rewrite lookup_app_l. }
  assert (Hmut : MapStore.view
            (MapStore.mutate (length (MapStore.map_objects st)) ops
               {| MapStore.map_objects :=
                    MapStore.map_objects st
                    ++ [default [] (MapStore.map_objects st !! table)];
                  MapStore.entries := MapStore.entries st |}) table
            = MapStore.view st table).
  { by rewrite mutate_other. }
  repeat (split; [done|]).
  intros rest evs. unfold MapStore.with_table. by rewrite Hmut.
Qed.

Lemma getSubscriptions_returns_fresh_copy_witness :
  MapStore.view
    (MapStore.mutate (MapStore.getSubscriptions 0 MapStore.demo_store).2
       [MapStore.OpDelete "01234567-89ab-4cde-b012-3456789abcde";
        MapStore.OpSet "x" 1; MapStore.OpClear]
       (MapStore.getSubscriptions 0 MapStore.demo_store).1) 0
  = MapStore.view MapStore.demo_store 0.
Proof.
  destruct (getSubscriptions_returns_fresh_copy 0 MapStore.demo_store
              [MapStore.OpDelete "01234567-89ab-4cde-b012-3456789abcde";
               MapStore.OpSet "x" 1; MapStore.OpClear])
    as (_ & _ & _ & H & _); [vm_compute; lia|exact H].
Defined.

(** The copy is shallow: the entry objects are shared, so an assignment
    to a field of an entry reached through the copy shows in the table.
    This is a mutation of the entry, not of the returned [Map]. *)
Example entry_objects_are_shared :
  let st' := (MapStore.getSubscriptions 0 MapStore.demo_store).1 in
  MapStore.view (MapStore.set_entry 0 (mkSubData "other" "message" None) st') 0
  <> MapStore.view MapStore.demo_store 0.
Proof. vm_compute. discriminate. Qed.

(** * Further properties of the events channel *)

(** *** Calls on a connection that is not open *)

Lemma unsubscribe_closed id s :
  is_open s = false ->
  unsubscribe id s
  = (Ok (length (promises s)),
     set_promises (promises s ++ [Rejected "Not connected"]) s, []).
Proof.
  intros H. unfold unsubscribe, rejected_promise, newPromise, reject.
  repeat (first [mstep | use_hyps]). by rewrite settle_in_fresh.
Qed.

(** X1. While the current socket is not open (or there is none),
    [subscribe] and [unsubscribe] return a promise that is already
    rejected with "Not connected", and [sendTypingEvent] and [ping] return
    silently. None of them sends a frame, arms a timer, draws an
    identifier or touches the durable table or the pending requests: the
    state changes by the new rejected promise only. *)
Theorem calls_refused_while_not_open (s : State) :
  is_open s = false ->
  (forall d r o,
      subscribe d r o s
      = (Ok (length (promises s)),
         set_promises (promises s ++ [Rejected "Not connected"]) s, [])) /\
  (forall id,
      unsubscribe id s
      = (Ok (length (promises s)),
         set_promises (promises s ++ [Rejected "Not connected"]) s, [])) /\
  (forall chatId event, sendTypingEvent chatId event s = (Ok tt, s, [])) /\
  ping s = (Ok tt, s, []).
Proof.
  intros H. split; [intros; by apply subscribe_closed|].
  split; [intros; by apply unsubscribe_closed|].
  split; [intros chatId event|]; unfold sendTypingEvent, ping;
    repeat (first [mstep | use_hyps]); reflexivity.
Qed.

Lemma calls_refused_while_not_open_witness :
  (forall d r o,
      subscribe d r o demo_new
      = (Ok 0, set_promises [Rejected "Not connected"] demo_new, [])) /\
  (forall id,
      unsubscribe id demo_new
      = (Ok 0, set_promises [Rejected "Not connected"] demo_new, [])) /\
  (forall chatId event, sendTypingEvent chatId event demo_new = (Ok tt, demo_new, [])) /\
  ping demo_new = (Ok tt, demo_new, []).
Proof. apply (calls_refused_while_not_open demo_new). reflexivity. Defined.

(** X2. [connect()] on a client whose socket is open is refused with
    "Already connected", and while a connection attempt is in progress
    with "Connection in progress": the returned promise is already
    rejected, no socket is created, no timer is armed, and neither the
    manual-disconnect flag nor the attempt counter is reset. *)
Theorem connect_refused_when_busy (s : State) :
  is_open s = true \/ isConnecting s = true ->
  connect s
  = (Ok (length (promises s)),
     set_promises
       (promises s ++ [Rejected (if is_open s then "Already connected"
                                 else "Connection in progress")]) s,
     []).
Proof.
  intros H. unfold connect, rejected_promise, newPromise, reject.
  destruct (is_open s) eqn:Ho.
  - repeat (first [mstep | use_hyps]). by rewrite settle_in_fresh.
  - destruct H as [H|H]; [discriminate|].
    repeat (first [mstep | use_hyps]). by rewrite settle_in_fresh.
Qed.

Lemma connect_refused_when_busy_witness :
  connect demo_connected
  = (Ok (length (promises demo_connected)),
     set_promises (promises demo_connected ++ [Rejected "Already connected"])
                  demo_connected, []).
Proof. apply (connect_refused_when_busy demo_connected). left. reflexivity. Defined.

(** *** A subscription request from call to settlement *)

Lemma subscribe_step d r o s k :
  ws s = Some k -> socket_state s k = Some OPEN -> replays s = [] ->
  exists s',
    step s (CallSubscribe d r o)
    = (s', [WsSend k (FSubscribe (next_id s) d r (frame_filters o)
                                 (frame_include_data o));
            SetTimeout (nextTimer s)
                       (TSubscription (next_id s) (length (promises s))) 10000]) /\
    subscribe_post d r o s s'.
Proof.
  intros Hws Hk Hr.
  destruct (subscribe_open d r o s k Hws Hk) as (s' & Hs & P).
  exists s'. split; [|done]. apply step_plain.
  - unfold task, handle. rewrite bind_run, Hs. reflexivity.
  - destruct P. congruence.
Qed.

Lemma confirmed_exec s k id d r f pending :
  socket_state s k = Some OPEN ->
  jm_get id (pendingSubscriptions s) = Some pending ->
  task (handle (SocketMessage k (Some (MSubscriptionConfirmed id d r f)))) s
  = (set_promises
       (settle_in (p_promise pending)
                  (Fulfilled (VSubscription (mkSubscription id d r f))) (promises s))
       (set_subscriptions (jm_set id (p_data pending) (subscriptions s))
          (set_pendingSubscriptions (jm_delete id (pendingSubscriptions s)) s)),
     emit_trace (listeners s) E_subscription_confirmed
                (PMessage (MSubscriptionConfirmed id d r f))).
Proof.
  intros Hk Hp.
  unfold task, handle, onmessage, _handleMessage, _handleSubscriptionConfirmed, resolve.
  repeat (first [mstep | use_hyps]). cbn [sub_id]. reflexivity.
Qed.

Lemma unrequested_confirmation_exec s k id d r f :
  socket_state s k = Some OPEN ->
  jm_get id (pendingSubscriptions s) = None ->
  task (handle (SocketMessage k (Some (MSubscriptionConfirmed id d r f)))) s
  = (s, emit_trace (listeners s) E_subscription_confirmed
                   (PMessage (MSubscriptionConfirmed id d r f))).
Proof.
  intros Hk Hp.
  unfold task, handle, onmessage, _handleMessage, _handleSubscriptionConfirmed, resolve.
  repeat (first [mstep | use_hyps]). reflexivity.
Qed.

Lemma subscription_timeout_exec s h id p :
  timers s !! h = Some (TSubscription id p) ->
  jm_has id (pendingSubscriptions s) = true ->
  task (handle (TimerFired h)) s
  = (set_promises (settle_in p (Rejected "Subscription timeout") (promises s))
       (set_pendingSubscriptions (jm_delete id (pendingSubscriptions s))
          (set_timers (delete h (timers s)) s)),
     []).
Proof.
  intros Ht Hp. unfold task, handle, subscriptionTimeout_fired, reject.
  repeat (first [mstep | use_hyps]). reflexivity.
Qed.

Lemma socket_state_same s s' k :
  sockets s' = sockets s -> socket_state s' k = socket_state s k.
Proof. unfold socket_state. by intros ->. Qed.

Ltac open_subscribe P :=
  let Hc := fresh "Hc" in
  pose proof (core_eq _ _ (sp_core _ _ _ _ _ P)) as Hc;
  destruct Hc as (? & ? & ? & ? & ? & ? & ? & ? & ? & ? & ? & ? & ? & ? & ? & ?);
  destruct P.

(** X3. Round trip of a subscription on an open connection with no
    replay in progress: [subscribe(d, r, o)] leaves the returned promise
    pending and the durable table as it was; when the server's
    [subscription_confirmed] frame for the request's identifier arrives,
    the promise is fulfilled with the subscription the server describes
    (its domain, resource and filters), the table records under that
    identifier the domain, resource and options of the request, the
    request is no longer pending, and the listeners of
    [subscription_confirmed] are called. *)
Theorem subscribe_confirmed_round_trip (s : State) (k : nat)
  (d r : string) (o : option SubscriptionOptions)
  (d' r' : string) (f' : SubscriptionFilters) :
  ws s = Some k -> socket_state s k = Some OPEN -> replays s = [] ->
  let id := next_id s in
  let p := length (promises s) in
  let s1 := (step s (CallSubscribe d r o)).1 in
  let st2 := step s1 (SocketMessage k (Some (MSubscriptionConfirmed id d' r' f'))) in
  promises s1 !! p = Some Pending /\
  subscriptions s1 = subscriptions s /\
  jm_get id (pendingSubscriptions s1) = Some (mkPending p (mkSubData d r o)) /\
  promises st2.1 !! p
  = Some (Fulfilled (VSubscription (mkSubscription id d' r' f'))) /\
  subscriptions st2.1 = jm_set id (mkSubData d r o) (subscriptions s) /\
  jm_get id (pendingSubscriptions st2.1) = None /\
  invoked st2.2
  = map cb_id (default [] (jm_get E_subscription_confirmed (listeners s))).
Proof.
  intros Hws Hk Hr id p s1 st2.
  destruct (subscribe_step d r o s k Hws Hk Hr) as (s1' & Hs1 & P).
  subst s1 st2. rewrite Hs1. cbn [fst].
  open_subscribe P.
  assert (Hk1 : socket_state s1' k = Some OPEN)
    by (by rewrite (socket_state_same s)).
  assert (Hp1 : jm_get id (pendingSubscriptions s1')
                = Some (mkPending p (mkSubData d r o)))
    by (rewrite sp_pending0; apply jm_get_set_eq).
  erewrite step_plain;
    [|by apply confirmed_exec|proj_simpl; congruence].
  cbn [fst snd]. proj_simpl. cbn [p_promise p_data].
  split; [rewrite sp_promises0; apply snoc_lookup|].
  split; [done|]. split; [done|].
  split; [apply settle_in_lookup_pending; rewrite sp_promises0; apply snoc_lookup|].
  split; [congruence|]. split; [apply jm_get_delete_eq|].
  rewrite invoked_emit_trace. congruence.
Qed.

Lemma subscribe_confirmed_round_trip_witness :
  let s := demo_connected in
  let id := "01234567-89ab-4cde-b012-3456789abcde" in
  let s1 := (step s (CallSubscribe "chat" "message" None)).1 in
  let st2 := step s1 (SocketMessage 0 (Some (MSubscriptionConfirmed
                                               id "chat" "message" no_filters))) in
  promises s1 !! 1 = Some Pending /\
  subscriptions s1 = subscriptions s /\
  jm_get id (pendingSubscriptions s1)
  = Some (mkPending 1 (mkSubData "chat" "message" None)) /\
  promises st2.1 !! 1
  = Some (Fulfilled (VSubscription (mkSubscription id "chat" "message" no_filters))) /\
  subscriptions st2.1 = jm_set id (mkSubData "chat" "message" None) (subscriptions s) /\
  jm_get id (pendingSubscriptions st2.1) = None /\
  invoked st2.2
  = map cb_id (default [] (jm_get E_subscription_confirmed (listeners s))).
Proof.
  apply (subscribe_confirmed_round_trip demo_connected 0 "chat" "message" None
           "chat" "message" no_filters); reflexivity.
Defined.

(** X4. A request that times out is forgotten. On an open connection
    with no replay in progress, when the ten-second timer of a
    [subscribe] fires before any confirmation, the promise is rejected
    with "Subscription timeout" and the request is no longer pending;
    nothing is sent to the server to cancel it. A confirmation for that
    identifier arriving afterwards changes neither the promise nor the
    durable table, yet the listeners of [subscription_confirmed] are still
    called with it. *)
Theorem timed_out_request_is_forgotten (s : State) (k : nat)
  (d r : string) (o : option SubscriptionOptions)
  (d' r' : string) (f' : SubscriptionFilters) :
  ws s = Some k -> socket_state s k = Some OPEN -> replays s = [] ->
  let id := next_id s in
  let p := length (promises s) in
  let s1 := (step s (CallSubscribe d r o)).1 in
  let st2 := step s1 (TimerFired (nextTimer s)) in
  let st3 := step st2.1 (SocketMessage k (Some (MSubscriptionConfirmed id d' r' f'))) in
  st2.2 = [] /\
  promises st2.1 !! p = Some (Rejected "Subscription timeout") /\
  jm_get id (pendingSubscriptions st2.1) = None /\
  subscriptions st2.1 = subscriptions s /\
  st3.1 = st2.1 /\
  invoked st3.2
  = map cb_id (default [] (jm_get E_subscription_confirmed (listeners s))).
Proof.
  intros Hws Hk Hr id p s1 st2 st3.
  destruct (subscribe_step d r o s k Hws Hk Hr) as (s1' & Hs1 & P).
  subst s1 st2 st3. rewrite Hs1. cbn [fst].
  open_subscribe P.
  assert (Hp1 : jm_has id (pendingSubscriptions s1') = true)
    by (rewrite sp_pending0; apply jm_has_set_eq).
  erewrite (step_plain s1');
    [|apply (subscription_timeout_exec _ _ id p);
      [rewrite sp_timers0; apply lookup_insert_eq|done]
     |proj_simpl; congruence].
  cbn [fst snd].
  match goal with
  | |- context [step ?S2 _] => set (s2 := S2)
  end.
  assert (Hk2 : socket_state s2 k = Some OPEN)
    by (rewrite (socket_state_same s); [done|unfold s2; by proj_simpl]).
  assert (Hp2 : jm_get id (pendingSubscriptions s2) = None)
    by (unfold s2; proj_simpl; apply jm_get_delete_eq).
  erewrite (step_plain s2);
    [|by apply unrequested_confirmation_exec|unfold s2; proj_simpl; congruence].
  cbn [fst snd]. split; [done|].
  split; [unfold s2; proj_simpl; apply settle_in_lookup_pending;
          rewrite sp_promises0; apply snoc_lookup|].
  split; [done|]. split; [unfold s2; by proj_simpl|]. split; [done|].
  rewrite invoked_emit_trace. unfold s2. proj_simpl. congruence.
Qed.

Lemma timed_out_request_is_forgotten_witness :
  let s := demo_connected in
  let id := "01234567-89ab-4cde-b012-3456789abcde" in
  let s1 := (step s (CallSubscribe "chat" "message" None)).1 in
  let st2 := step s1 (TimerFired (nextTimer s)) in
  let st3 := step st2.1 (SocketMessage 0 (Some (MSubscriptionConfirmed
                                                  id "chat" "message" no_filters))) in
  st2.2 = [] /\
  promises st2.1 !! 1 = Some (Rejected "Subscription timeout") /\
  jm_get id (pendingSubscriptions st2.1) = None /\
  subscriptions st2.1 = subscriptions s /\
  st3.1 = st2.1 /\
  invoked st3.2
  = map cb_id (default [] (jm_get E_subscription_confirmed (listeners s))).
Proof.
  apply (timed_out_request_is_forgotten demo_connected 0 "chat" "message" None
           "chat" "message" no_filters); reflexivity.
Defined.

(** *** Registering and removing listeners *)

Lemma jm_set_set {K V : Type} `{EqDecision K} (k : K) (v w : V) (m : JsMap K V) :
  jm_set k v (jm_set k w m) = jm_set k v m.
Proof.
  induction m as [|[k0 v0] m IH]; cbn.
  - by rewrite decide_True.
  - destruct (decide (k0 = k)) as [->|]; cbn.
    + by rewrite decide_True.
    + by rewrite decide_False, IH.
Qed.

Lemma jm_has_get {K V : Type} `{EqDecision K} (k : K) (m : JsMap K V) :
  jm_has k m = false -> jm_get k m = None.
Proof. unfold jm_has. by destruct (jm_get k m). Qed.

Lemma on_listeners event callback s :
  on event callback s
  = (Ok tt,
     set_listeners
       (jm_set event (set_add callback (default [] (jm_get event (listeners s))))
               (listeners s)) s,
     []).
Proof.
  unfold on. repeat mstep. destruct (jm_has event (listeners s)) eqn:E.
  - reflexivity.
  - proj_simpl. rewrite jm_get_set_eq, jm_set_set, (jm_has_get _ _ E).
    destruct s; reflexivity.
Qed.

Lemma set_add_ids cb l :
  map cb_id (set_add cb l)
  = if decide (cb_id cb ∈ map cb_id l) then map cb_id l
    else map cb_id l ++ [cb_id cb].
Proof.
  unfold set_add.
  destruct (existsb (fun c => Nat.eqb (cb_id c) (cb_id cb)) l) eqn:E.
  - rewrite decide_True; [done|].
    apply existsb_exists in E as (c & Hin & Hc).
    apply Nat.eqb_eq in Hc. rewrite <- Hc.
    apply list_elem_of_fmap. exists c. split; [done|]. by apply list_elem_of_In.
  - rewrite decide_False; [by rewrite map_app|].
    intros Hin. apply list_elem_of_fmap in Hin as (c & Hc & Hin).
    assert (existsb (fun c => Nat.eqb (cb_id c) (cb_id cb)) l = true); [|congruence].
    apply existsb_exists. exists c. split; [by apply list_elem_of_In|].
    apply Nat.eqb_eq. congruence.
Qed.

Lemma set_add_again cb l : set_add cb (set_add cb l) = set_add cb l.
Proof.
  unfold set_add at 2.
  destruct (existsb (fun c => Nat.eqb (cb_id c) (cb_id cb)) l) eqn:E.
  - unfold set_add. by rewrite E.
  - unfold set_add. rewrite existsb_app, E. cbn. by rewrite Nat.eqb_refl.
Qed.

Lemma set_delete_ids cb l :
  map cb_id (set_delete cb l) = filter (fun i => i <> cb_id cb) (map cb_id l).
Proof.
  unfold set_delete. induction l as [|c l IH]; [done|].
  cbn [map]. rewrite !filter_cons. case_decide; cbn [map]; by rewrite IH.
Qed.

(** X5. [on(event, callback)] adds the callback to the listeners of the
    event, after the ones already there, unless the same function is
    registered for it already: the functions a later [_emit] of that event
    calls are the old ones followed by the new one, or just the old ones.
    Registering the same function a second time changes nothing, and the
    listeners of every other event are left as they were. *)
Theorem on_registers_listener_once (s : State) (event : EventName)
  (callback : Callback) (args : Payload) :
  exists s',
    on event callback s = (Ok tt, s', []) /\
    (let old := map cb_id (default [] (jm_get event (listeners s))) in
     invoked (emit_trace (listeners s') event args)
     = if decide (cb_id callback ∈ old) then old else old ++ [cb_id callback]) /\
    on event callback s' = (Ok tt, s', []) /\
    (forall other, other <> event ->
                   jm_get other (listeners s') = jm_get other (listeners s)).
Proof.
  eexists. split; [apply on_listeners|]. proj_simpl. split; [|split].
  - cbn zeta. rewrite invoked_emit_trace, jm_get_set_eq. cbn [default from_option id].
    apply set_add_ids.
  - rewrite on_listeners. proj_simpl.
    rewrite jm_get_set_eq, jm_set_set. cbn [default from_option id].
    rewrite set_add_again. by destruct s.
  - intros other Hne. by apply jm_get_set_ne.
Qed.

Lemma off_listeners event callback s :
  off event callback s
  = (Ok tt,
     match jm_get event (listeners s) with
     | Some l => set_listeners (jm_set event (set_delete callback l) (listeners s)) s
     | None => s
     end, []).
Proof. reflexivity. Qed.

Lemma filter_absent (i : nat) (l : list nat) :
  i ∉ l -> filter (fun j => j <> i) l = l.
Proof.
  induction l as [|j l IH]; [done|]. intros Hn.
  rewrite filter_cons. apply not_elem_of_cons in Hn as [Hne Hn].
  rewrite decide_True by congruence. by rewrite IH.
Qed.

(** X6. [off(event, callback)] removes that function from the listeners
    of the event and keeps the others in their order: a later [_emit] of
    the event calls the old listeners without it. An event nobody ever
    registered for is not created, the state is unchanged; the listeners
    of other events are untouched; and [on] followed by [off] of a
    function that was not registered before gives back the old listeners
    of the event. *)
Theorem off_removes_listener (s : State) (event : EventName)
  (callback : Callback) (args : Payload) :
  let old := map cb_id (default [] (jm_get event (listeners s))) in
  exists s',
    off event callback s = (Ok tt, s', []) /\
    invoked (emit_trace (listeners s') event args)
    = filter (fun i => i <> cb_id callback) old /\
    (cb_id callback ∉ invoked (emit_trace (listeners s') event args)) /\
    (jm_get event (listeners s) = None -> s' = s) /\
    (forall other, other <> event ->
                   jm_get other (listeners s') = jm_get other (listeners s)) /\
    (cb_id callback ∉ old ->
     exists s1 s2,
       on event callback s = (Ok tt, s1, []) /\
       off event callback s1 = (Ok tt, s2, []) /\
       invoked (emit_trace (listeners s2) event args) = old).
Proof.
  intros old. eexists. split; [apply off_listeners|].
  assert (Hinv :
    invoked (emit_trace
      (listeners match jm_get event (listeners s) with
                 | Some l => set_listeners
                               (jm_set event (set_delete callback l) (listeners s)) s
                 | None => s
                 end) event args)
    = filter (fun i => i <> cb_id callback) old).
  { rewrite invoked_emit_trace. subst old.
    destruct (jm_get event (listeners s)) as [l|] eqn:E.
    - proj_simpl. rewrite jm_get_set_eq. cbn [default from_option id].
      apply set_delete_ids.
    - by rewrite E. }
  split; [exact Hinv|]. split.
  { rewrite Hinv. intros Hin. apply list_elem_of_filter in Hin as [Hne _]. done. }
  split; [by intros ->|]. split.
  { intros other Hne. destruct (jm_get event (listeners s)) as [l|]; [|done].
    proj_simpl. by apply jm_get_set_ne. }
  intros Hnew. eexists _, _. split; [apply on_listeners|].
  split; [apply off_listeners|]. proj_simpl.
  rewrite jm_get_set_eq, jm_set_set. proj_simpl.
  rewrite invoked_emit_trace, jm_get_set_eq. cbn [default from_option id].
  rewrite set_delete_ids, set_add_ids, decide_False by done.
  rewrite filter_app, filter_absent by done.
  rewrite filter_cons, decide_False by (intros Hc; by apply Hc). 
  by rewrite filter_nil, app_nil_r.
Qed.

(** *** Configuration and keep-alive *)

Lemma spread_nothing cfg : spread_config cfg no_overrides = cfg.
Proof. by destruct cfg. Qed.

(** X7. [updateConfig(c)] merges [c] over the current configuration:
    the fields [c] gives are replaced, the others kept (an empty [c]
    changes nothing). While the socket is not open nothing else happens.
    While it is open the keep-alive is restarted: the running interval,
    if any, is cleared, and a new one is armed with the new
    [pingInterval] when that is positive; with a [pingInterval] of zero or
    less the keep-alive is left off. *)
Theorem updateConfig_restarts_keepalive (s : State) (c : PartialConfig) :
  let cfg := spread_config (config s) c in
  exists s' es,
    updateConfig c s = (Ok tt, s', es) /\
    config s' = cfg /\
    spread_config (config s) no_overrides = config s /\
    (is_open s = false -> s' = set_config cfg s /\ es = []) /\
    (is_open s = true ->
     es = match pingIntervalId s with Some h => [ClearTimer h] | None => [] end
          ++ (if (0 <? pingInterval cfg)%Z
              then [SetInterval (nextTimer s) (pingInterval cfg)] else []) /\
     pingIntervalId s'
     = (if (0 <? pingInterval cfg)%Z then Some (nextTimer s) else None) /\
     (forall h, timers s' !! h = Some TPing ->
                pingIntervalId s' = Some h \/
                (timers s !! h = Some TPing /\ pingIntervalId s <> Some h))).
Proof.
  intros cfg. subst cfg.
  unfold updateConfig, _stopPingInterval, _startPingInterval, clearTimer, setInterval.
  assert (Ho : forall x, is_open (set_config x s) = is_open s) by reflexivity.
  repeat (first [mstep | rewrite Ho]).
  destruct (is_open s) eqn:E.
  - repeat mstep.
    destruct (pingIntervalId s) as [h0|] eqn:Ep; repeat mstep;
      destruct (0 <? pingInterval (spread_config (config s) c))%Z eqn:Ez;
      repeat mstep.
    all: eexists _, _; (split; [reflexivity|]); proj_simpl.
    all: split; [done|]; split; [apply spread_nothing|]; split; [done|].
    all: intros _; split; [done|]; split; [done|].
    all: intros h Hh.
    all: repeat match goal with
                | H : <[_ := _]> _ !! _ = Some _ |- _ =>
                    apply lookup_insert_Some in H as [[<- _]|[_ H]]
                | H : delete _ _ !! _ = Some _ |- _ =>
                    apply lookup_delete_Some in H as [? H]
                end.
    all: try (by left).
    all: right; split; [done|congruence].
  - repeat mstep. eexists _, _. split; [reflexivity|]. proj_simpl.
    split; [done|]. split; [apply spread_nothing|]. split; [done|]. done.
Qed.

Lemma connected_exec s k u m ss :
  socket_state s k = Some OPEN -> reconnectAttempts s = 0 ->
  exists s',
    task (handle (SocketMessage k (Some (MConnected u m ss)))) s
    = (s', emit_trace (listeners s) E_connect (PMessage (MConnected u m ss))
           ++ (if (0 <? pingInterval (config s))%Z
               then [SetInterval (nextTimer s) (pingInterval (config s))] else [])) /\
    userId s' = Some u /\ isConnecting s' = false /\
    authResolve s' = None /\
    authReject s' = match authResolve s with Some _ => None | None => authReject s end /\
    reconnectAttempts s' = 0 /\
    pingIntervalId s'
    = (if (0 <? pingInterval (config s))%Z then Some (nextTimer s)
       else pingIntervalId s) /\
    timers s'
    = (if (0 <? pingInterval (config s))%Z then <[nextTimer s := TPing]> (timers s)
       else timers s) /\
    promises s'
    = match authResolve s with
      | Some p => settle_in p (Fulfilled (VConnected (MConnected u m ss))) (promises s)
      | None => promises s
      end /\
    config s' = config s /\ ws s' = ws s /\ sockets s' = sockets s /\
    subscriptions s' = subscriptions s /\
    pendingSubscriptions s' = pendingSubscriptions s /\
    listeners s' = listeners s /\ replays s' = replays s /\
    isManualDisconnect s' = isManualDisconnect s /\
    reconnectTimeoutId s' = reconnectTimeoutId s /\
    nextTimer s'
    = (if (0 <? pingInterval (config s))%Z then S (nextTimer s) else nextTimer s).
Proof.
  intros Hk Ha.
  unfold task, handle, onmessage, _handleMessage, _startPingInterval, setInterval,
    resolve.
  repeat (first [mstep | use_hyps]).
  destruct (authResolve s) as [p|] eqn:Ep; repeat mstep;
    destruct (0 <? pingInterval (config s))%Z eqn:Ez;
    repeat (first [mstep | use_hyps]).
  all: cbn [Nat.ltb Nat.leb]; repeat mstep.
  all: eexists; (split; [by rewrite ?app_nil_r|]); proj_simpl.
  all: by repeat (split; [done|]).
Qed.

Lemma ping_fires s h k :
  timers s !! h = Some TPing -> ws s = Some k -> socket_state s k = Some OPEN ->
  task (handle (TimerFired h)) s = (s, [WsSend k FPing]).
Proof.
  intros Ht Hws Hk. unfold task, handle, ping, is_open, ws_send, socket_send.
  repeat (first [mstep | use_hyps]). rewrite bool_decide_eq_true_2 by done.
  repeat (first [mstep | use_hyps]). reflexivity.
Qed.

Lemma close_stops_keepalive s k sk code reason h :
  sockets s !! k = Some sk -> readyState sk <> CLOSED ->
  pingIntervalId s = Some h -> h < nextTimer s ->
  exists s' es,
    task (handle (SocketClose k code reason)) s = (s', es) /\
    pingIntervalId s' = None /\ timers s' !! h = None /\ ClearTimer h ∈ es /\
    replays s' = replays s.
Proof.
  intros Hk Hlive Hp Hh.
  unfold task, handle, onclose, _stopPingInterval, _scheduleReconnect, clearTimer,
    setTimeout, set_socket_state, reject.
  repeat (first [mstep | use_hyps]).
  destruct (readyState sk) eqn:Er; [| | |done].
  all: repeat (first [mstep | use_hyps | case_inner]).
  all: eexists _, _; (split; [reflexivity|]); proj_simpl.
  all: split; [done|].
  all: split; [rewrite ?lookup_insert_ne by lia; apply lookup_delete_eq|].
  all: split; [|done].
  all: apply list_elem_of_further, list_elem_of_here.
Qed.

(** X8. The keep-alive lives exactly as long as the connection. On an
    open socket, with a positive [pingInterval] and no replay in
    progress, the [connected] frame of a direct connect arms one interval
    with that period; each time it fires while the socket is open exactly
    one [ping] frame is sent and nothing else changes; the close event of
    the socket clears the interval, after which its handle fires without
    any effect. *)
Theorem keepalive_follows_connection (s : State) (k : nat)
  (u m : string) (ss : list string) (code : Z) (reason : string) :
  ws s = Some k -> socket_state s k = Some OPEN -> reconnectAttempts s = 0 ->
  replays s = [] -> (0 < pingInterval (config s))%Z ->
  let h := nextTimer s in
  let st1 := step s (SocketMessage k (Some (MConnected u m ss))) in
  let st2 := step st1.1 (TimerFired h) in
  let st3 := step st1.1 (SocketClose k code reason) in
  let st4 := step st3.1 (TimerFired h) in
  st1.2 = emit_trace (listeners s) E_connect (PMessage (MConnected u m ss))
          ++ [SetInterval h (pingInterval (config s))] /\
  pingIntervalId st1.1 = Some h /\ timers st1.1 !! h = Some TPing /\
  st2 = (st1.1, [WsSend k FPing]) /\
  (ClearTimer h ∈ st3.2) /\ pingIntervalId st3.1 = None /\
  timers st3.1 !! h = None /\
  st4 = (st3.1, []).
Proof.
  intros Hws Hk Ha Hr Hpos h st1 st2 st3 st4.
  destruct (connected_exec s k u m ss Hk Ha)
    as (s1 & Ht1 & _ & _ & _ & _ & _ & Hping & Htim & _ & _ & Hws1 & Hsk1 & _ & _
        & _ & Hr1 & _ & _ & Hnext).
  apply Z.ltb_lt in Hpos. rewrite Hpos in Ht1, Hping, Htim, Hnext.
  assert (Hs1 : step s (SocketMessage k (Some (MConnected u m ss)))
                = (s1, emit_trace (listeners s) E_connect
                                  (PMessage (MConnected u m ss))
                       ++ [SetInterval h (pingInterval (config s))]))
    by (apply step_plain; [done|congruence]).
  subst st1 st2 st3 st4. rewrite Hs1. cbn [fst snd].
  assert (Hh1 : timers s1 !! h = Some TPing)
    by (rewrite Htim; apply lookup_insert_eq).
  assert (Hk1 : socket_state s1 k = Some OPEN)
    by (by rewrite (socket_state_same s)).
  split; [done|]. split; [done|]. split; [done|]. split.
  { apply step_plain; [|congruence]. apply ping_fires; congruence. }
  unfold socket_state in Hk1.
  destruct (sockets s1 !! k) as [sk|] eqn:Esk; [|done].
  destruct (close_stops_keepalive s1 k sk code reason h Esk)
    as (s3 & es3 & Ht3 & Hp3 & Hh3 & Hin3 & Hr3); [| done | |].
  { cbn in Hk1. intros Hc. congruence. }
  { rewrite Hnext. unfold h. lia. }
  rewrite (step_plain _ _ _ _ Ht3) by congruence. cbn [fst snd].
  split; [done|]. split; [done|]. split; [done|].
  apply step_plain; [by apply timer_absent|congruence].
Qed.

Lemma keepalive_follows_connection_witness :
  let s := run_state demo_new [CallConnect; SocketOpen 0] in
  let st1 := step s (SocketMessage 0 (Some demo_welcome)) in
  let st2 := step st1.1 (TimerFired 2) in
  let st3 := step st1.1 (SocketClose 0 1006 "") in
  let st4 := step st3.1 (TimerFired 2) in
  st1.2 = emit_trace (listeners s) E_connect (PMessage demo_welcome)
          ++ [SetInterval 2 30000%Z] /\
  pingIntervalId st1.1 = Some 2 /\ timers st1.1 !! 2 = Some TPing /\
  st2 = (st1.1, [WsSend 0 FPing]) /\
  (ClearTimer 2 ∈ st3.2) /\ pingIntervalId st3.1 = None /\
  timers st3.1 !! 2 = None /\
  st4 = (st3.1, []).
Proof.
  apply (keepalive_follows_connection (run_state demo_new [CallConnect; SocketOpen 0])
           0 "u1" "welcome" [] 1006 ""); reflexivity.
Defined.

(** *** Failed authentication *)

Lemma auth_error_exec s k sk err :
  ws s = Some k -> sockets s !! k = Some sk -> readyState sk = OPEN ->
  let error := if truthy err then default "" err else "Authentication failed" in
  exists s',
    task (handle (SocketMessage k (Some (MAuthError err)))) s = (s', []) /\
    promises s'
    = match authReject s with
      | Some p => settle_in p (Rejected error) (promises s)
      | None => promises s
      end /\
    isConnecting s' = false /\
    authResolve s' = match authReject s with
                     | Some _ => None
                     | None => authResolve s
                     end /\
    authReject s' = None /\
    sockets s' = sockets s /\
    config s' = config s /\ ws s' = ws s /\
    isManualDisconnect s' = isManualDisconnect s /\
    reconnectAttempts s' = reconnectAttempts s /\
    replays s' = replays s /\ timers s' = timers s /\
    subscriptions s' = subscriptions s.
Proof.
  intros Hws Hk Ho error. subst error.
  unfold task, handle, onmessage, _handleMessage, socket_close, socket_state, reject.
  repeat (first [mstep | use_hyps]). cbn [fmap option_fmap option_map].
  repeat (first [mstep | use_hyps]).
  destruct (authReject s) as [p|] eqn:Ep; repeat (first [mstep | use_hyps]).
  all: eexists; (split; [reflexivity|]); proj_simpl; by repeat (split; [done|]).
Qed.

(** X9. A failed authentication leaves the socket open, and the retries
    go on once the server closes it. When the server answers the
    handshake with [auth_error], the pending [connect()] is rejected with
    the server's text (or with "Authentication failed" when the frame
    carries none) and the fields of the handshake are cleared. The
    [close(1008, text)] that follows is refused by the socket, and the
    exception is swallowed by the [try]/[catch] of [onmessage]: the task
    leaves no trace at all (no close, no frame, no listener called,
    nothing uncaught) and the socket is still open. When the server then
    closes the socket, the close is handled like any involuntary one:
    with [autoReconnect] on and attempts left, a retry is armed with the
    usual backoff delay. *)
Theorem auth_failure_keeps_retrying (s : State) (k p : nat) (sk : Socket)
  (err : option string) (code : Z) (reason : string) :
  ws s = Some k -> sockets s !! k = Some sk -> readyState sk = OPEN ->
  authReject s = Some p -> promises s !! p = Some Pending ->
  replays s = [] ->
  isManualDisconnect s = false -> autoReconnect (config s) = true ->
  (Z.of_nat (reconnectAttempts s) < maxReconnectAttempts (config s))%Z ->
  let error := if truthy err then default "" err else "Authentication failed" in
  let st1 := step s (SocketMessage k (Some (MAuthError err))) in
  let st2 := step st1.1 (SocketClose k code reason) in
  st1.2 = [] /\
  promises st1.1 !! p = Some (Rejected error) /\
  isConnecting st1.1 = false /\
  authResolve st1.1 = None /\ authReject st1.1 = None /\
  socket_state st1.1 k = Some OPEN /\
  is_open st1.1 = true /\
  reconnect_delays st2.2 = [backoff_delay (config s) (S (reconnectAttempts s))] /\
  reconnectAttempts st2.1 = S (reconnectAttempts s).
Proof.
  intros Hws Hk Ho Hrej Hp Hr Hman Hauto Hleft error st1 st2.
  destruct (auth_error_exec s k sk err Hws Hk Ho)
    as (s1 & Ht1 & Hprom & Hconn & Hres & Hrej1 & Hsk & Hcfg & Hws1 & Hman1
        & Hatt & Hr1 & _).
  rewrite Hrej in Hprom, Hres. fold error in Hprom.
  subst st1 st2. rewrite (step_plain _ _ _ _ Ht1) by congruence. cbn [fst snd].
  assert (Hk1 : sockets s1 !! k = Some sk) by congruence.
  assert (Hst1 : socket_state s1 k = Some OPEN).
  { unfold socket_state. by rewrite Hk1, <- Ho. }
  split; [done|].
  split; [rewrite Hprom; by apply settle_in_lookup_pending|].
  do 4 (split; [done|]).
  split. { unfold is_open. rewrite Hws1, Hws, Hst1. by apply bool_decide_eq_true. }
  destruct (close_schedules s1 k _ code reason Hk1)
    as (s2 & es2 & Ht2 & Hdel & _ & Hatt2 & _); [by rewrite Ho|congruence..|].
  destruct (step_any _ _ _ _ Ht2) as (s3 & es3 & -> & F & Hq).
  cbn [fst snd]. destruct (subscription_effects_quiet _ Hq) as (Hq1 & _).
  open_frame F. rewrite reconnect_delays_app, Hdel, Hq1. cbn [app].
  split; congruence.
Qed.

Lemma auth_failure_keeps_retrying_witness :
  let s := run_state demo_new [CallConnect; SocketOpen 0] in
  let st1 := step s (SocketMessage 0 (Some (MAuthError None))) in
  let st2 := step st1.1 (SocketClose 0 1006 "") in
  st1.2 = [] /\
  promises st1.1 !! 0 = Some (Rejected "Authentication failed") /\
  isConnecting st1.1 = false /\
  authResolve st1.1 = None /\ authReject st1.1 = None /\
  socket_state st1.1 0 = Some OPEN /\
  is_open st1.1 = true /\
  reconnect_delays st2.2 = [1000%Z] /\
  reconnectAttempts st2.1 = 1.
Proof.
  apply (auth_failure_keeps_retrying
           (run_state demo_new [CallConnect; SocketOpen 0]) 0 0
           (mkSocket OPEN 0 1) None 1006 "");
    reflexivity.
Defined.

(** *** Replacing the token *)

(** X10. [setBearerToken] only stores the token: nothing is sent, an
    open connection is not authenticated again. The stored token is the
    one presented by the next handshake: when the current socket opens
    after [setBearerToken(t)] with a non-empty [t], the first and only
    frame sent is [auth] with [t], whatever token the client held
    before. After [setBearerToken(null)] or [setBearerToken("")] the
    opening socket sends nothing, and it is not closed either: its
    [close(1008, ...)] is refused with an InvalidAccessError, which
    leaves [onopen] uncaught, and the socket stays open. *)
Theorem setBearerToken_used_by_next_handshake (s : State) (k : nat) (sk : Socket)
  (token : option string) :
  ws s = Some k -> sockets s !! k = Some sk -> readyState sk = CONNECTING ->
  replays s = [] ->
  let st1 := step s (CallSetBearerToken token) in
  let st2 := step st1.1 (SocketOpen k) in
  st1 = (set_bearerToken token s, []) /\
  frames_sent st2.2
  = (if truthy token then [FAuth (default "" token)] else []) /\
  closes st2.2 = [] /\
  socket_state st2.1 k = Some OPEN /\
  (truthy token = false -> Uncaught "InvalidAccessError" ∈ st2.2).
Proof.
  intros Hws Hk Hc Hr st1 st2.
  assert (H1 : step s (CallSetBearerToken token) = (set_bearerToken token s, []))
    by (by apply step_plain).
  subst st1 st2. rewrite H1. cbn [fst]. split; [done|].
  destruct (truthy token) eqn:Et.
  - destruct (open_with_token (set_bearerToken token s) k sk)
      as (s2 & es2 & Ht & Hf & Hcl & _ & _ & _ & Hsk & _ & _ & _ & _ & _ & Hr2 & _);
      [done..|].
    rewrite (step_plain _ _ _ _ Ht) by (rewrite Hr2; done). cbn [fst snd].
    do 2 (split; [done|]). split; [|done].
    unfold socket_state. rewrite Hsk. proj_simpl.
    rewrite list_lookup_insert_eq by (by eapply lookup_lt_Some). done.
  - destruct (open_without_token (set_bearerToken token s) k sk)
      as (s2 & Ht & _ & _ & Hst & _ & _ & _ & _ & Hr2); [done..|].
    rewrite (step_plain _ _ _ _ Ht) by (rewrite Hr2; done). cbn [fst snd].
    do 3 (split; [done|]). intros _. in_list.
Qed.

Lemma setBearerToken_used_by_next_handshake_witness :
  let s := run_state demo_new [CallConnect] in
  let st1 := step s (CallSetBearerToken None) in
  let st2 := step st1.1 (SocketOpen 0) in
  st1 = (set_bearerToken None s, []) /\
  frames_sent st2.2 = [] /\
  closes st2.2 = [] /\
  socket_state st2.1 0 = Some OPEN /\
  Uncaught "InvalidAccessError" ∈ st2.2.
Proof.
  destruct (setBearerToken_used_by_next_handshake (run_state demo_new [CallConnect])
              0 (mkSocket CONNECTING 0 1) None) as (H1 & H2 & H3 & H4 & H5);
    [reflexivity..|].
  do 4 (split; [assumption|]). by apply H5.
Defined.

(** *** Socket errors and frames that carry no control information *)

(** X11. An error event of a socket that is not closed yet rejects the
    [connect()] that created that socket with "WebSocket error" (if it
    is still pending), clears its connect timeout, ends the connecting
    phase and calls the [error] listeners. By itself it neither closes
    the socket nor arms a retry nor touches the attempt counter:
    reconnection is left to the close event. *)
Theorem socket_error_rejects_without_retry (s : State) (k : nat) (sk : Socket) :
  sockets s !! k = Some sk -> readyState sk <> CLOSED ->
  task (handle (SocketError k)) s
  = (set_promises
       (settle_in (sk_promise sk) (Rejected "WebSocket error") (promises s))
       (set_authReject None
          (set_authResolve None
             (set_isConnecting false
                (set_timers (delete (sk_timeout sk) (timers s)) s)))),
     ClearTimer (sk_timeout sk)
       :: emit_trace (listeners s) E_error (PError "WebSocket error")) /\
  reconnect_delays (task (handle (SocketError k)) s).2 = [] /\
  closes (task (handle (SocketError k)) s).2 = [] /\
  sockets_created (task (handle (SocketError k)) s).2 = [].
Proof.
  intros Hk Hlive.
  assert (H : task (handle (SocketError k)) s
    = (set_promises
         (settle_in (sk_promise sk) (Rejected "WebSocket error") (promises s))
         (set_authReject None
            (set_authResolve None
               (set_isConnecting false
                  (set_timers (delete (sk_timeout sk) (timers s)) s)))),
       ClearTimer (sk_timeout sk)
         :: emit_trace (listeners s) E_error (PError "WebSocket error"))).
  { unfold task, handle, onerror, clearTimer, reject.
    repeat (first [mstep | use_hyps]).
    destruct (readyState sk); [| | |done]; repeat mstep;
      by rewrite app_nil_r. }
  rewrite H. cbn [snd]. split; [done|]. by trace_simpl.
Qed.

Lemma socket_error_rejects_without_retry_witness :
  let s := run_state demo_new [CallConnect] in
  task (handle (SocketError 0)) s
  = (set_promises [Rejected "WebSocket error"]
       (set_authReject None
          (set_authResolve None
             (set_isConnecting false (set_timers (delete 1 (timers s)) s)))),
     [ClearTimer 1]) /\
  reconnect_delays (task (handle (SocketError 0)) s).2 = [] /\
  closes (task (handle (SocketError 0)) s).2 = [] /\
  sockets_created (task (handle (SocketError 0)) s).2 = [].
Proof.
  apply (socket_error_rejects_without_retry (run_state demo_new [CallConnect]) 0
           (mkSocket CONNECTING 0 1)); [reflexivity|discriminate].
Defined.

(** X12. Frames that carry no control information never change the
    state of the module. A [notification], [system_notification] or
    [error] frame received on an open socket is handed to the listeners of
    the event of the same name, whatever subscription it names (the
    client does not filter by subscription); a [pong] frame, a frame of
    unknown type and data that does not parse are dropped without calling
    anybody. *)
Theorem data_frames_change_no_state (s : State) (k : nat)
  (data : option WebSocketMessage) :
  socket_state s k = Some OPEN ->
  carried_event data <> None \/ is_ignored data = true ->
  task (handle (SocketMessage k data)) s
  = (s, match carried_event data, data with
        | Some event, Some message => emit_trace (listeners s) event (PMessage message)
        | _, _ => []
        end).
Proof.
  intros Hk Hd. unfold task, handle, onmessage, _handleMessage.
  repeat (first [mstep | use_hyps]).
  destruct data as [[]|]; cbn in Hd; try (destruct Hd; done);
    repeat mstep; by rewrite ?app_nil_r.
Qed.

Lemma data_frames_change_no_state_witness :
  task (handle (SocketMessage 0
                  (Some (MNotification "unknown-subscription" "chat" "message"
                                       "created" "m1" "2025-01-01T00:00:00Z"))))
       demo_connected
  = (demo_connected, []).
Proof.
  apply (data_frames_change_no_state demo_connected 0
           (Some (MNotification "unknown-subscription" "chat" "message"
                                "created" "m1" "2025-01-01T00:00:00Z")));
    [reflexivity|left; discriminate].
Defined.

(** *** Disconnecting during a connection attempt *)







(** *** The address of the events endpoint *)

Lemma append_nil t : "" +:+ t = t.
Proof. reflexivity. Qed.

Lemma append_cons c a t : String c a +:+ t = String c (a +:+ t).
Proof. reflexivity. Qed.

Lemma prefix_split pat : forall s,
  String.prefix pat s = true -> exists t, s = pat +:+ t.
Proof.
  induction pat as [|c pat IH]; intros s H.
  - by exists s.
  - destruct s as [|c' s]; cbn in H; [done|].
    destruct (Ascii.ascii_dec c c') as [->|]; [|done].
    destruct (IH _ H) as (t & ->). by exists t.
Qed.

Lemma substring_all s : String.substring 0 (String.length s) s = s.
Proof. induction s as [|c s IH]; cbn; [done|]. by f_equal. Qed.

Lemma substring_drop pat t n :
  n = String.length t ->
  String.substring (String.length pat) n (pat +:+ t) = t.
Proof.
  intros ->. induction pat as [|c pat IH];
    [rewrite append_nil; apply substring_all|].
  rewrite append_cons. cbn. exact IH.
Qed.

Lemma length_append a b :
  String.length (a +:+ b) = String.length a + String.length b.
Proof.
  induction a as [|c a IH]; [done|]. rewrite append_cons. cbn. by f_equal.
Qed.

Lemma prefix_append pat t : String.prefix pat (pat +:+ t) = true.
Proof.
  induction pat as [|c pat IH]; [by destruct t|].
  rewrite append_cons. cbn. destruct (Ascii.ascii_dec c c); [done|congruence].
Qed.

Lemma replace_first_prefix pat rep t :
  replace_first pat rep (pat +:+ t) = rep +:+ t.
Proof.
  destruct (pat +:+ t) as [|c u] eqn:E.
  - destruct pat; [|done]. rewrite append_nil in E. subst t. done.
  - cbn [replace_first]. rewrite <- E, prefix_append, substring_drop; [done|].
    rewrite length_append. lia.
Qed.

Lemma replace_first_absent pat rep : forall s,
  occurs pat s = false -> replace_first pat rep s = s.
Proof.
  induction s as [|c s IH]; cbn [occurs replace_first]; intros H;
    apply orb_false_iff in H as [H1 H2]; rewrite H1; [done|].
  by rewrite IH.
Qed.

Lemma append_assoc a b c : (a +:+ b) +:+ c = a +:+ (b +:+ c).
Proof.
  induction a as [|x a IH]; [done|]. rewrite !append_cons. by f_equal.
Qed.

Lemma replace_first_skip pat rep c s :
  String.prefix pat (String c s) = false ->
  replace_first pat rep (String c s) = String c (replace_first pat rep s).
Proof. intros H. cbn [replace_first]. by rewrite H. Qed.

(** X14. The address of the events endpoint is the base URL of the HTTP
    client after two replacements, each of a first occurrence only,
    followed by [/v1/events/ws] (a trailing slash of the base URL is not
    removed). For a base URL [https://R] it is [wss://] followed by [R]
    in which the first [http://], if there is one, has become [ws://];
    for [http://R] it is [ws://] followed by [R] in which the first
    [https://] has become [wss://]. So [R] is kept as it is when it
    holds no such scheme, and [https://a/http://b] gives
    [wss://a/ws://b/v1/events/ws]. A base URL in which neither
    [http://] nor [https://] occurs is used unchanged. The stored token
    is not part of the address. *)
Theorem events_url_exchanges_scheme (s : State) (rest : string) :
  (baseUrl s = "https://" +:+ rest ->
   _buildWebSocketUrl s
   = (Ok ("wss://" +:+ replace_first "http://" "ws://" rest +:+ "/v1/events/ws"),
      s, [])) /\
  (baseUrl s = "http://" +:+ rest ->
   _buildWebSocketUrl s
   = (Ok ("ws://" +:+ replace_first "https://" "wss://" rest +:+ "/v1/events/ws"),
      s, [])) /\
  (occurs "http://" rest = false -> replace_first "http://" "ws://" rest = rest) /\
  (occurs "https://" rest = false -> replace_first "https://" "wss://" rest = rest) /\
  (baseUrl s = rest ->
   occurs "http://" rest = false -> occurs "https://" rest = false ->
   _buildWebSocketUrl s = (Ok (rest +:+ "/v1/events/ws"), s, [])).
Proof.
  unfold _buildWebSocketUrl. repeat mstep.
  split; [|split; [|split; [|split]]].
  - intros ->. rewrite replace_first_prefix.
    rewrite !append_cons, append_nil.
    do 6 (rewrite (replace_first_skip "http://") by reflexivity).
    by rewrite !append_cons, append_nil.
  - intros ->. rewrite !append_cons, append_nil.
    do 7 (rewrite (replace_first_skip "https://") by reflexivity).
    pose proof (replace_first_prefix "http://" "ws://"
                  (replace_first "https://" "wss://" rest)) as H.
    rewrite !append_cons, append_nil in H. by rewrite H.
  - apply replace_first_absent.
  - apply replace_first_absent.
  - intros -> Hp Hs.
    by rewrite (replace_first_absent "https://"), (replace_first_absent "http://").
Qed.

Lemma events_url_exchanges_scheme_witness :
  let s := constructor "https://a/http://b" None no_overrides (fun n => Z.of_nat n) in
  _buildWebSocketUrl s = (Ok "wss://a/ws://b/v1/events/ws", s, []) /\
  _buildWebSocketUrl demo_new = (Ok "wss://api.example.com/v1/events/ws", demo_new, []).
Proof.
  split.
  - destruct (events_url_exchanges_scheme
                (constructor "https://a/http://b" None no_overrides
                             (fun n => Z.of_nat n)) "a/http://b") as [H _].
    apply H. reflexivity.
  - destruct (events_url_exchanges_scheme demo_new "api.example.com") as [H _].
    apply H. reflexivity.
Defined.

(** *** Identifiers of subscription requests *)

Lemma hex_digit_is_hex v : is_hex (hex_digit v) = true.
Proof.
  destruct v as [|p|p]; try reflexivity.
  do 4 (try destruct p as [p|p|]); reflexivity.
Qed.

Lemma variant_digit r :
  in_class Variant (hex_digit (Z.lor (Z.land r 3) 8)) = true.
Proof.
  change 3%Z with (Z.ones 2). rewrite Z.land_ones by lia.
  assert (H : (0 <= r mod 2 ^ 2 < 4)%Z) by (apply Z.mod_pos_bound; lia).
  assert (Hc : (r mod 2 ^ 2 = 0 \/ r mod 2 ^ 2 = 1 \/ r mod 2 ^ 2 = 2
                \/ r mod 2 ^ 2 = 3)%Z) by lia.
  destruct Hc as [-> | [-> | [-> | ->]]]; reflexivity.
Qed.

Lemma generated_shape draws n :
  has_shape uuid_v4
    (fill_template "xxxxxxxx-xxxx-4xxx-yxxx-xxxxxxxxxxxx" draws n).1 = true /\
  (fill_template "xxxxxxxx-xxxx-4xxx-yxxx-xxxxxxxxxxxx" draws n).2 = n + 31.
Proof.
  cbn [fill_template Ascii.eqb Bool.eqb andb fst snd].
  split; [|lia].
  cbn [uuid_v4 replicate app has_shape in_class].
  rewrite !hex_digit_is_hex.
  pose proof variant_digit as Hv. cbn [in_class] in Hv. rewrite Hv. reflexivity.
Qed.

(** X15. Whatever [Math.random] returns, the identifier [_generateId]
    builds has the textual form of a version-4 UUID: 36 characters,
    hyphens after the 8th, 12th, 16th and 20th digit, lower-case
    hexadecimal digits elsewhere, the digit [4] opening the third group
    and one of [8], [9], [a], [b] opening the fourth. Each call draws
    exactly 31 random numbers and changes nothing else. *)
Theorem generated_ids_are_uuids (s : State) :
  exists id,
    _generateId s = (Ok id, set_randomCalls (randomCalls s + 31) s, []) /\
    has_shape uuid_v4 id = true /\
    String.length id = 36.
Proof.
  destruct (generated_shape (Math_random16 s) (randomCalls s)) as [Hs Hn].
  unfold _generateId.
  destruct (fill_template "xxxxxxxx-xxxx-4xxx-yxxx-xxxxxxxxxxxx"
              (Math_random16 s) (randomCalls s)) as [id n] eqn:E.
  cbn [fst snd] in *. subst n. exists id. split; [done|]. split; [done|].
  revert E. cbn [fill_template Ascii.eqb Bool.eqb andb fst snd].
  intros [= <-]. reflexivity.
Qed.

(** *** What the events leave alone *)

Ltac unfold_handlers :=
  unfold task, handle, connect, disconnect, _cleanup, unsubscribe, on, off,
    sendTypingEvent, ping, updateConfig, setBearerToken, onmessage,
    _handleMessage, _handleSubscriptionConfirmed, _resubscribeAll,
    onopen, onerror, onclose, _scheduleReconnect, reconnect_fired,
    connectionTimeout_fired, subscriptionTimeout_fired,
    _stopPingInterval, _startPingInterval, setInterval, setTimeout, clearTimer,
    ws_send, socket_send, set_socket_state,
    socket_close, rejected_promise, newPromise, resolve, reject.

Ltac core_call :=
  match goal with
  | |- context [subscribe ?d ?r ?o ?s] =>
      let F := fresh "F" in
      destruct (subscribe_frame d r o s) as (? & ? & -> & F & _);
      let Hc := fresh "Hc" in
      pose proof (core_eq _ _ (fr_core _ _ F)) as Hc;
      destruct Hc as (? & ? & ? & ? & ? & ? & ? & ? & ? & ? & ? & ? & ? & ? & ? & ?);
      clear F
  | |- context [_connect ?s] =>
      let P := fresh "P" in
      destruct (_connect_spec s) as (? & ? & -> & P); destruct P
  end.

Lemma handler_userId ev s :
  (forall k u m ss, ev <> SocketMessage k (Some (MConnected u m ss))) ->
  userId (task (handle ev) s).1 = userId s.
Proof.
  intros Hev.
  destruct ev as [| | | | | | | | | | |k [[u m ss| | | | | | | |]|]| | |];
    try (by destruct (Hev k u m ss)); clear Hev.
  all: unfold_handlers.
  all: repeat (first [mstep | use_hyps | rewrite forEach_reject_unfolded
                     | core_call | case_inner]).
  all: proj_simpl; try done; try congruence.
Qed.

Lemma step_core s ev : core (step s ev).1 = core (task (handle ev) s).1.
Proof.
  destruct (step_frame s ev) as (s1 & es1 & s2 & es2 & -> & -> & F & _).
  apply F.
Qed.

Lemma run_preserves {A : Type} (f : State -> A) (P : Event -> Prop) :
  (forall s ev, P ev -> f (step s ev).1 = f s) ->
  forall evs s, Forall P evs -> f (run_state s evs) = f s.
Proof.
  intros Hstep. induction evs as [|ev evs IH]; intros s Hall; [done|].
  apply Forall_cons in Hall as [Hev Hall].
  rewrite run_state_cons, IH by done. by apply Hstep.
Qed.

Lemma step_userId ev s :
  (forall k u m ss, ev <> SocketMessage k (Some (MConnected u m ss))) ->
  userId (step s ev).1 = userId s.
Proof.
  intros Hev. pose proof (core_eq _ _ (step_core s ev)) as Hc.
  destruct Hc as (_ & _ & _ & _ & _ & _ & _ & _ & _ & -> & _).
  by apply handler_userId.
Qed.

(** X16. The user id reported by [currentUserId] is written by the
    handling of a [connected] frame and by nothing else: the frame on an
    open socket stores its [user_id], and no other call, frame, socket
    event or timer changes the stored id. In particular it is not
    cleared by [disconnect()] or by the loss of the connection. *)
Theorem userId_set_only_by_connected (s : State) (evs : list Event)
  (k : nat) (u m : string) (ss : list string) :
  Forall (fun ev => forall k u m ss,
                      ev <> SocketMessage k (Some (MConnected u m ss))) evs ->
  socket_state s k = Some OPEN ->
  let s1 := (step s (SocketMessage k (Some (MConnected u m ss)))).1 in
  userId s1 = Some u /\
  userId (run_state s1 evs) = Some u /\
  userId (run_state s evs) = userId s.
Proof.
  intros Hall Hk s1. 
  assert (H1 : userId s1 = Some u).
  { subst s1. pose proof (core_eq _ _ (step_core s
      (SocketMessage k (Some (MConnected u m ss))))) as Hc.
    destruct Hc as (_ & _ & _ & _ & _ & _ & _ & _ & _ & -> & _).
    unfold_handlers.
    repeat (first [mstep | use_hyps | core_call | case_inner]).
    all: by proj_simpl. }
  split; [done|]. 
  split; [rewrite <- H1|];
    apply (run_preserves userId
             (fun ev => forall k u m ss,
                          ev <> SocketMessage k (Some (MConnected u m ss))));
    auto using step_userId.
Qed.

Lemma userId_set_only_by_connected_witness :
  let s := run_state demo_new [CallConnect; SocketOpen 0] in
  let s1 := (step s (SocketMessage 0 (Some demo_welcome))).1 in
  userId s1 = Some "u1" /\
  userId (run_state s1 [CallDisconnect; SocketClose 0 1000 ""]) = Some "u1" /\
  userId (run_state s [CallDisconnect; SocketClose 0 1000 ""]) = userId s.
Proof.
  apply (userId_set_only_by_connected
           (run_state demo_new [CallConnect; SocketOpen 0])
           [CallDisconnect; SocketClose 0 1000 ""] 0 "u1" "welcome" []);
    [|reflexivity].
  repeat constructor; discriminate.
Defined.

Lemma handler_setup ev s :
  is_setup_call ev = false ->
  listeners (task (handle ev) s).1 = listeners s /\
  bearerToken (task (handle ev) s).1 = bearerToken s /\
  config (task (handle ev) s).1 = config s /\
  baseUrl (task (handle ev) s).1 = baseUrl s.
Proof.
  intros Hev.
  destruct ev as [| | | | | | | | | | |k [[]|]| | |]; try discriminate Hev;
    clear Hev.
  all: unfold_handlers.
  all: repeat (first [mstep | use_hyps | rewrite forEach_reject_unfolded
                     | core_call | case_inner]).
  all: proj_simpl; repeat split; try done; try congruence.
Qed.

Lemma step_setup s ev :
  is_setup_call ev = false ->
  (listeners (step s ev).1, bearerToken (step s ev).1, config (step s ev).1,
   baseUrl (step s ev).1)
  = (listeners s, bearerToken s, config s, baseUrl s).
Proof.
  intros Hev. pose proof (core_eq _ _ (step_core s ev)) as Hc.
  destruct Hc as (-> & _ & _ & _ & _ & _ & _ & _ & -> & _ & -> & _ & _ & -> & _).
  destruct (handler_setup ev s Hev) as (-> & -> & -> & ->). done.
Qed.

(** X17. What the client is set up with outlives the connection. No
    call other than [on], [off], [setBearerToken] and [updateConfig], no
    frame, no socket event and no timer changes the registered
    listeners, the stored token, the configuration or the base URL: after
    any run without those four calls they are what they were. In
    particular [disconnect()], the loss of the connection and a failed
    authentication neither remove listeners nor forget the token. *)
Theorem setup_outlives_connection (s : State) (evs : list Event) :
  Forall (fun ev => is_setup_call ev = false) evs ->
  listeners (run_state s evs) = listeners s /\
  bearerToken (run_state s evs) = bearerToken s /\
  config (run_state s evs) = config s /\
  baseUrl (run_state s evs) = baseUrl s.
Proof.
  intros Hall.
  pose proof (run_preserves
                (fun s => (listeners s, bearerToken s, config s, baseUrl s))
                (fun ev => is_setup_call ev = false) step_setup evs s Hall) as H.
  cbn beta in H. by simplify_eq.
Qed.

Lemma setup_outlives_connection_witness :
  let evs := [CallDisconnect; SocketClose 0 1000 ""; CallConnect; SocketOpen 1;
              SocketMessage 1 (Some (MAuthError None))] in
  listeners (run_state demo_connected evs) = listeners demo_connected /\
  bearerToken (run_state demo_connected evs) = bearerToken demo_connected /\
  config (run_state demo_connected evs) = config demo_connected /\
  baseUrl (run_state demo_connected evs) = baseUrl demo_connected.
Proof.
  apply (setup_outlives_connection demo_connected
           [CallDisconnect; SocketClose 0 1000 ""; CallConnect; SocketOpen 1;
            SocketMessage 1 (Some (MAuthError None))]).
  repeat constructor.
Defined.

Lemma handler_table ev s :
  touches_table ev = false ->
  subscriptions (task (handle ev) s).1 = subscriptions s.
Proof.
  intros Hev.
  destruct ev as [| | | | | | | | | | |k [[]|]| | |]; try discriminate Hev;
    clear Hev.
  all: unfold_handlers.
  all: repeat (first [mstep | use_hyps | rewrite forEach_reject_unfolded
                     | core_call | case_inner]).
  all: proj_simpl; try done; try congruence.
Qed.

Lemma step_table s ev :
  touches_table ev = false -> subscriptions (step s ev).1 = subscriptions s.
Proof.
  intros Hev. pose proof (core_eq _ _ (step_core s ev)) as Hc.
  destruct Hc as (_ & _ & _ & _ & _ & _ & _ & -> & _).
  by apply handler_table.
Qed.

(** X18. The durable table is changed by nothing but the server's
    [subscription_confirmed], [unsubscribed] and [connected] frames and
    calls of [unsubscribe]: after any run of other events ([disconnect()],
    [connect()], [subscribe()], the socket opening, failing or closing,
    any timer firing) the table is what it was. In particular
    [disconnect()] does not empty it, and the [connected] frame of a
    direct connect (attempt counter at zero) leaves it alone too, so that
    the entries of an earlier connection stay listed without being
    requested again. *)
Theorem table_outlives_connection (s : State) (evs : list Event)
  (k : nat) (u m : string) (ss : list string) :
  Forall (fun ev => touches_table ev = false) evs ->
  subscriptions (run_state s evs) = subscriptions s /\
  (socket_state s k = Some OPEN -> reconnectAttempts s = 0 ->
   subscriptions (step s (SocketMessage k (Some (MConnected u m ss)))).1
   = subscriptions s).
Proof.
  intros Hall. split.
  - by apply (run_preserves subscriptions (fun ev => touches_table ev = false)
                            step_table).
  - intros Hk Ha.
    pose proof (core_eq _ _ (step_core s
      (SocketMessage k (Some (MConnected u m ss))))) as Hc.
    destruct Hc as (_ & _ & _ & _ & _ & _ & _ & -> & _).
    destruct (connected_exec s k u m ss Hk Ha) as (s1 & -> & H). cbn [fst].
    apply H.
Qed.

Lemma table_outlives_connection_witness :
  let s := run_state demo_connected
             [CallSubscribe "chat" "message" None;
              SocketMessage 0 (Some (MSubscriptionConfirmed
                                       "01234567-89ab-4cde-b012-3456789abcde"
                                       "chat" "message" no_filters))] in
  let evs := [CallDisconnect; SocketClose 0 1000 ""; CallConnect; SocketOpen 1] in
  subscriptions (run_state s evs) = subscriptions s /\
  (socket_state s 0 = Some OPEN -> reconnectAttempts s = 0 ->
   subscriptions (step s (SocketMessage 0 (Some demo_welcome))).1
   = subscriptions s).
Proof.
  apply (table_outlives_connection _
           [CallDisconnect; SocketClose 0 1000 ""; CallConnect; SocketOpen 1]
           0 "u1" "welcome" []).
  repeat constructor.
Defined.

Lemma handler_attempts ev s :
  is_updateConfig ev = false ->
  (Z.of_nat (reconnectAttempts s) <= maxReconnectAttempts (config s))%Z ->
  config (task (handle ev) s).1 = config s /\
  (Z.of_nat (reconnectAttempts (task (handle ev) s).1)
   <= maxReconnectAttempts (config s))%Z.
Proof.
  intros Hev Hle.
  destruct ev as [| | | | | | | | | | |k [[]|]| | |]; try discriminate Hev;
    clear Hev.
  all: unfold_handlers.
  all: repeat (first [mstep | use_hyps | rewrite forEach_reject_unfolded
                     | core_call | case_inner]).
  all: proj_simpl; (split; [try done; congruence|]).
  all: try lia.
  all: try (replace (reconnectAttempts _) with (reconnectAttempts s) by congruence;
            lia).
  all: try match goal with
       | E : (_ <=? _)%Z = false |- _ => apply Z.leb_gt in E; lia
       end.
  all: match goal with
       | H : reconnectAttempts ?x = _ |- context [reconnectAttempts ?x] =>
           rewrite H; proj_simpl; lia
       end.
Qed.

(** X19. The attempt counter never exceeds [maxReconnectAttempts].
    If it does not in some state, it does not after any run of calls
    (other than [updateConfig], which may lower the maximum), frames,
    socket events and timers: the counter is raised only by the
    scheduling of a retry, which happens only while it is below the
    maximum, and is otherwise left alone or reset to zero. *)
Theorem attempts_never_exceed_maximum (s : State) (evs : list Event) :
  Forall (fun ev => is_updateConfig ev = false) evs ->
  (Z.of_nat (reconnectAttempts s) <= maxReconnectAttempts (config s))%Z ->
  config (run_state s evs) = config s /\
  (Z.of_nat (reconnectAttempts (run_state s evs))
   <= maxReconnectAttempts (config s))%Z.
Proof.
  intros Hall. revert s.
  induction Hall as [|ev evs Hev _ IH]; intros s Hle; [done|].
  rewrite run_state_cons.
  pose proof (core_eq _ _ (step_core s ev)) as Hc.
  destruct Hc as (Hcfg & _ & _ & Hatt & _).
  destruct (handler_attempts ev s Hev Hle) as [Hc1 Ha1].
  destruct (IH (step s ev).1) as [Hc2 Ha2];
    [rewrite Hcfg, Hatt, Hc1; exact Ha1|].
  rewrite Hc2, Hcfg, Hc1 in *. done.
Qed.

Lemma attempts_never_exceed_maximum_witness :
  let evs := [SocketClose 0 1006 ""; TimerFired 3; SocketClose 1 1006 "";
              TimerFired 5; SocketClose 2 1006 ""] in
  config (run_state demo_connected evs) = config demo_connected /\
  (Z.of_nat (reconnectAttempts (run_state demo_connected evs))
   <= maxReconnectAttempts (config demo_connected))%Z.
Proof.
  apply (attempts_never_exceed_maximum demo_connected
           [SocketClose 0 1006 ""; TimerFired 3; SocketClose 1 1006 "";
            TimerFired 5; SocketClose 2 1006 ""]).
  - repeat constructor.
  - vm_compute. discriminate.
Defined.

(** *** Automatic and manual connection attempts together *)

(** X20. An automatic retry does not enter the connecting phase. When
    the retry timer fires, a socket is created and a connect timeout
    armed, but [isConnecting] is left as it was; so while that socket is
    still connecting a [connect()] call is not refused: it creates a
    second socket, which becomes the current one, resets the attempt
    counter and does not close the socket of the retry, which goes on
    connecting. *)
Theorem connect_accepted_during_retry (s : State) (h : nat) :
  timers s !! h = Some TReconnect ->
  isConnecting s = false -> is_open s = false -> replays s = [] ->
  let k := length (sockets s) in
  let st1 := step s (TimerFired h) in
  let st2 := step st1.1 CallConnect in
  sockets_created st1.2 = [k] /\
  ws st1.1 = Some k /\ socket_state st1.1 k = Some CONNECTING /\
  isConnecting st1.1 = false /\
  reconnectAttempts st1.1 = reconnectAttempts s /\
  sockets_created st2.2 = [S k] /\ closes st2.2 = [] /\
  ws st2.1 = Some (S k) /\
  socket_state st2.1 k = Some CONNECTING /\
  socket_state st2.1 (S k) = Some CONNECTING /\
  isConnecting st2.1 = true /\ reconnectAttempts st2.1 = 0.
Proof.
  intros Ht Hc Ho Hr k st1 st2.
  destruct (reconnect_fires s h Ht) as (s1 & url1 & Ht1 & P1).
  open_post P1.
  subst st1 st2. rewrite (step_plain _ _ _ _ Ht1) by congruence. cbn [fst snd].
  assert (Hk1 : socket_state s1 k = Some CONNECTING).
  { unfold socket_state. rewrite cp_sockets0. subst k. by rewrite snoc_lookup. }
  assert (Ho1 : is_open s1 = false) by (by eapply is_open_false_state).
  destruct (connect_spec s1 Ho1) as (s2 & url2 & Ht2 & P2); [congruence|].
  open_post P2.
  rewrite (step_plain _ _ _ _ Ht2) by congruence. cbn [fst snd].
  assert (Hlen : length (sockets s1) = S k)
    by (rewrite cp_sockets0, length_app; cbn; subst k; lia).
  rewrite Hlen in *.
  repeat (split; [first [done | congruence]|]).
  split; [|split; [|split; congruence]].
  - unfold socket_state. rewrite cp_sockets1, lookup_app_l by lia. exact Hk1.
  - unfold socket_state. rewrite cp_sockets1, <- Hlen. by rewrite snoc_lookup.
Qed.

Lemma connect_accepted_during_retry_witness :
  let s := run_state demo_connected [SocketClose 0 1006 ""] in
  let st1 := step s (TimerFired 3) in
  let st2 := step st1.1 CallConnect in
  sockets_created st1.2 = [1] /\
  ws st1.1 = Some 1 /\ socket_state st1.1 1 = Some CONNECTING /\
  isConnecting st1.1 = false /\
  reconnectAttempts st1.1 = reconnectAttempts s /\
  sockets_created st2.2 = [2] /\ closes st2.2 = [] /\
  ws st2.1 = Some 2 /\
  socket_state st2.1 1 = Some CONNECTING /\
  socket_state st2.1 2 = Some CONNECTING /\
  isConnecting st2.1 = true /\ reconnectAttempts st2.1 = 0.
Proof.
  apply (connect_accepted_during_retry
           (run_state demo_connected [SocketClose 0 1006 ""]) 3); reflexivity.
Defined.

(** *** A keep-alive started twice *)

Lemma disconnect_other_timers s h :
  pingIntervalId s <> Some h -> reconnectTimeoutId s <> Some h ->
  exists s1 es,
    disconnect s = (Ok tt, s1, es) /\ timers s1 !! h = timers s !! h /\
    (ClearTimer h ∉ es) /\ replays s1 = replays s.
Proof.
  intros Hp Hrt.
  unfold disconnect, _cleanup, _stopPingInterval, clearTimer, socket_close.
  repeat (first [mstep | use_hyps | rewrite forEach_reject | case_inner]).
  all: eexists _, _; (split; [reflexivity|]); proj_simpl.
  all: split; [rewrite ?lookup_delete_ne by congruence; done|].
  all: split; [|done].
  all: rewrite ?not_elem_of_cons; repeat split; try congruence.
  all: apply not_elem_of_nil.
Qed.

(** X21. [_startPingInterval] does not stop a keep-alive that is
    already running. If an interval is running when a [connected] frame
    is handled (one was started by [updateConfig] on the open socket, or
    by an earlier [connected] frame), a second interval is armed and
    recorded in its place while the first stays armed; a later
    [disconnect()] clears the recorded one only, and the first keeps
    firing. *)
Theorem keepalive_started_twice (s : State) (k h0 : nat)
  (u m : string) (ss : list string) :
  ws s = Some k -> socket_state s k = Some OPEN -> reconnectAttempts s = 0 ->
  replays s = [] -> (0 < pingInterval (config s))%Z ->
  pingIntervalId s = Some h0 -> timers s !! h0 = Some TPing ->
  h0 < nextTimer s -> reconnectTimeoutId s <> Some h0 ->
  let h := nextTimer s in
  let st1 := step s (SocketMessage k (Some (MConnected u m ss))) in
  let st2 := step st1.1 CallDisconnect in
  pingIntervalId st1.1 = Some h /\
  timers st1.1 !! h = Some TPing /\ timers st1.1 !! h0 = Some TPing /\
  (ClearTimer h ∈ st2.2) /\ (ClearTimer h0 ∉ st2.2) /\
  timers st2.1 !! h = None /\ timers st2.1 !! h0 = Some TPing.
Proof.
  intros Hws Hk Ha Hr Hpos Hp Ht0 Hlt Hrt h st1 st2.
  destruct (connected_exec s k u m ss Hk Ha)
    as (s1 & Ht1 & _ & _ & _ & _ & _ & Hping & Htim & _ & _ & _ & _ & _ & _
        & _ & Hr1 & _ & Hrt1 & _).
  apply Z.ltb_lt in Hpos. rewrite Hpos in Ht1, Hping, Htim.
  subst st1 st2. rewrite (step_plain _ _ _ _ Ht1) by congruence. cbn [fst snd].
  assert (Hne : h0 <> nextTimer s) by lia. subst h.
  assert (Hh0 : timers s1 !! h0 = Some TPing)
    by (rewrite Htim, lookup_insert_ne by done; done).
  split; [done|]. split; [rewrite Htim; apply lookup_insert_eq|]. split; [done|].
  destruct (disconnect_spec s1)
    as (s2 & es2 & Hd & _ & _ & _ & _ & _ & _ & Hcl & _).
  destruct (Hcl _ Hping) as [Hnone Hin].
  destruct (disconnect_other_timers s1 h0) as (s2' & es2' & Hd' & Hsame & Hnot & Hr2);
    [rewrite Hping; congruence|congruence|].
  rewrite Hd in Hd'. simplify_eq.
  erewrite step_plain; [|unfold task, handle; by rewrite Hd|congruence].
  cbn [fst snd]. repeat (split; [done|]). congruence.
Qed.

Lemma keepalive_started_twice_witness :
  let s := run_state demo_new
             [CallConnect; SocketOpen 0; CallUpdateConfig no_overrides] in
  let st1 := step s (SocketMessage 0 (Some demo_welcome)) in
  let st2 := step st1.1 CallDisconnect in
  pingIntervalId st1.1 = Some 3 /\
  timers st1.1 !! 3 = Some TPing /\ timers st1.1 !! 2 = Some TPing /\
  (ClearTimer 3 ∈ st2.2) /\ (ClearTimer 2 ∉ st2.2) /\
  timers st2.1 !! 3 = None /\ timers st2.1 !! 2 = Some TPing.
Proof.
  apply (keepalive_started_twice
           (run_state demo_new
              [CallConnect; SocketOpen 0; CallUpdateConfig no_overrides])
           0 2 "u1" "welcome" []); try reflexivity.
  - vm_compute. lia.
  - discriminate.
Defined.

(** * Properties of the HTTP side *)

Section HttpSide.
Import Js Errors JSend HttpClient HlmrClient.
(** X22. The JSend constructors and recognisers agree. What
    [createJSendSuccess], [createJSendFail] and [createJSendError] build
    is accepted by [isJSendResponse] and by the recogniser of its own
    kind only; [extractJSendData] gives back the data put into a success
    response, whatever it is, and throws "Response is not a JSend
    success response" on a fail or error response. *)
Theorem jsend_constructors_are_recognised (d : JsValue) (detail msg : string)
  (additionalData : option (list (string * JsValue))) (c : JsValue) :
  let success := createJSendSuccess d in
  let fail := createJSendFail detail additionalData in
  let error := createJSendError msg c in
  let refused := Abrupt (PlainError "Response is not a JSend success response") in
  (isJSendResponse success = true /\ isJSendSuccess success = Normal true /\
   isJSendFail success = Normal false /\ isJSendError success = Normal false /\
   extractJSendData success = Normal d) /\
  (isJSendResponse fail = true /\ isJSendFail fail = Normal true /\
   isJSendSuccess fail = Normal false /\ isJSendError fail = Normal false /\
   extractJSendData fail = refused) /\
  (isJSendResponse error = true /\ isJSendError error = Normal true /\
   isJSendSuccess error = Normal false /\ isJSendFail error = Normal false /\
   extractJSendData error = refused).
Proof.
  cbn zeta. split; [|split].
  - repeat split; reflexivity.
  - repeat split; reflexivity.
  - unfold createJSendError. destruct (to_boolean c); repeat split; reflexivity.
Qed.

Lemma jm_get_snoc {V : Type} (k k0 : string) (v0 : V) (m : JsMap string V) :
  jm_get k (m ++ [(k0, v0)])
  = match jm_get k m with
    | Some v => Some v
    | None => if decide (k0 = k) then Some v0 else None
    end.
Proof.
  induction m as [|[k1 v1] m IH]; simpl; [reflexivity|].
  destruct (decide (k1 = k)); [reflexivity|apply IH].
Qed.

(** In a spread the last binding of a key wins. *)
Lemma spread_get (over : list (string * JsValue)) : forall base k,
  jm_get k (spread base over)
  = match jm_get k (reverse over) with
    | Some v => Some v
    | None => jm_get k base
    end.
Proof.
  unfold spread.
  induction over as [|[k0 v0] over IH]; intros base k; cbn [foldl]; [done|].
  rewrite IH, reverse_cons, jm_get_snoc. cbn [fst snd].
  destruct (jm_get k (reverse over)); [done|].
  case_decide as Hk.
  - subst. apply jm_get_set_eq.
  - by apply jm_get_set_ne.
Qed.

(** X23. The optional parts of the JSend constructors.
    [createJSendError(message, code)] carries a [code] property exactly
    when [code] is truthy: a code of [0], an empty string and a missing
    code are all left out. In [createJSendFail(detail, extra)] the
    properties of [extra] are merged over [{ detail }]: every property of
    [extra] ends up in [data], and a property of [extra] that is itself
    named [detail] replaces the detail given as first argument. *)
Theorem jsend_optional_parts (detail msg : string)
  (extra : list (string * JsValue)) (c : JsValue) :
  has "code" (createJSendError msg c) = Normal (to_boolean c) /\
  read (createJSendError msg c) "code"
  = Normal (if to_boolean c then c else JUndefined) /\
  exists props,
    read (createJSendFail detail (Some extra)) "data" = Normal (JObj props) /\
    (forall k, jm_get k props
               = match jm_get k (reverse extra) with
                 | Some v => Some v
                 | None => if decide (k = "detail") then Some (JStr detail) else None
                 end) /\
    read (createJSendFail detail None) "data"
    = Normal (JObj [("detail", JStr detail)]).
Proof.
  split; [|split].
  - unfold createJSendError. by destruct (to_boolean c).
  - unfold createJSendError. by destruct (to_boolean c).
  - eexists. split; [reflexivity|]. split; [|reflexivity].
    intros k. cbn [default from_option id]. rewrite spread_get.
    destruct (jm_get k (reverse extra)); [done|].
    cbn. repeat case_decide; congruence.
Qed.

Lemma strip_added_slash b : strip_trailing_slash (b +:+ "/") = b.
Proof.
  induction b as [|c b IH]; [reflexivity|].
  rewrite append_cons. cbn [strip_trailing_slash].
  destruct (b +:+ "/") as [|c' t] eqn:E.
  - destruct b; discriminate E.
  - by rewrite IH.
Qed.

Lemma skip_all_digits ds t :
  forallb is_digit (list_ascii_of_string ds) = true ->
  skip_digits (ds +:+ String "/" t) = String "/" t.
Proof.
  induction ds as [|c ds IH]; [reflexivity|].
  cbn [list_ascii_of_string forallb]. intros [Hc Hds]%andb_true_iff.
  rewrite append_cons. cbn [skip_digits]. rewrite Hc. by apply IH.
Qed.

(** X24. The URL of a request. [buildUrl] joins base URL, API version
    and path with single slashes: one trailing slash of the base URL and
    one leading slash of the path make no difference (only one of each is
    dropped). A path that already starts with a version ([v], one or
    more digits, [/]) is not given another one, whatever [apiVersion]
    says; otherwise the version is [apiVersion], or [v1] when none is
    given. Without a base URL the call throws. *)
Theorem buildUrl_joins_with_single_slashes (cfg : HlmrClientConfig)
  (base path : string) (version : option string) :
  let at_base (b : string) :=
    mkHlmrClientConfig (Some b) (appId cfg) (bearerToken cfg) (timeout cfg)
                       (customHeaders cfg) (debug cfg) in
  let without_base :=
    mkHlmrClientConfig None (appId cfg) (bearerToken cfg) (timeout cfg)
                       (customHeaders cfg) (debug cfg) in
  buildUrl (at_base (base +:+ "/")) (String "/" path) version
  = Normal (base +:+ "/" +:+
            (if has_version_prefix path then path
             else default "v1" version +:+ "/" +:+ path)) /\
  (strip_trailing_slash base = base -> strip_leading_slash path = path ->
   buildUrl (at_base base) path version
   = buildUrl (at_base (base +:+ "/")) (String "/" path) version) /\
  (forall (d : ascii) (ds rest : string),
      is_digit d = true -> forallb is_digit (list_ascii_of_string ds) = true ->
      buildUrl (at_base (base +:+ "/"))
               (String "v" (String d ds) +:+ String "/" rest) version
      = Normal (base +:+ "/" +:+ String "v" (String d ds) +:+ String "/" rest)) /\
  buildUrl without_base path version = Abrupt TypeError.
Proof.
  cbn zeta. unfold buildUrl. cbn [baseUrl].
  rewrite strip_added_slash.
  change (strip_leading_slash (String "/" path)) with path.
  split; [|split; [|split]].
  - by destruct (has_version_prefix path).
  - intros -> ->. reflexivity.
  - intros d ds rest Hd Hds.
    rewrite !append_cons.
    change (strip_leading_slash (String "v" (String d (ds +:+ String "/" rest))))
      with (String "v" (String d (ds +:+ String "/" rest))).
    cbn [has_version_prefix]. rewrite Hd, (skip_all_digits ds rest Hds).
    reflexivity.
  - reflexivity.
Qed.

Lemma buildUrl_joins_with_single_slashes_witness :
  buildUrl (mkHlmrClientConfig (Some "https://api.hlmr.io") "app" None None None None)
           "users/me" None
  = buildUrl (mkHlmrClientConfig (Some "https://api.hlmr.io/") "app" None None None None)
             "/users/me" None.
Proof.
  apply (buildUrl_joins_with_single_slashes
           (mkHlmrClientConfig (Some "https://api.hlmr.io") "app" None None None None)
           "https://api.hlmr.io" "users/me" None); reflexivity.
Defined.

(** X25. The headers of a request. For every header name other than
    [Authorization] the value is the one given in the options of the
    request, else the one of the client's custom headers, else the
    default ([Content-Type: application/json], [X-App-ID: appId]); so
    custom headers can replace the defaults and the options can replace
    both. [Authorization] is [Bearer <token>] whenever the client holds a
    non-empty token and [skipAuth] is not set, replacing any
    [Authorization] the caller supplied; otherwise a caller-supplied
    [Authorization] is passed through unchanged, even with [skipAuth]. *)
Theorem buildHeaders_precedence (cfg : HlmrClientConfig) (opts : RequestOptions)
  (key : string) :
  let supplied :=
    match default ∅ (headers opts) !! key with
    | Some v => Some v
    | None => default ∅ (customHeaders cfg) !! key
    end in
  let by_default :=
    if decide (key = "Content-Type") then Some "application/json"
    else if decide (key = "X-App-ID") then Some (appId cfg)
    else None in
  let authenticated :=
    nonempty (bearerToken cfg) && negb (default false (skipAuth opts)) in
  buildHeaders cfg opts !! key
  = if decide (key = "Authorization") then
      if authenticated then Some ("Bearer " +:+ default "" (bearerToken cfg))
      else supplied
    else match supplied with
         | Some v => Some v
         | None => by_default
         end.
Proof.
  cbn zeta. unfold buildHeaders.
  set (H1 := default ∅ (headers opts)). set (H2 := default ∅ (customHeaders cfg)).
  assert (Hbase : (H1 ∪ H2 ∪ {["Content-Type" := "application/json";
                               "X-App-ID" := appId cfg]}) !! key
                  = match match H1 !! key with
                          | Some v => Some v
                          | None => H2 !! key
                          end with
                    | Some v => Some v
                    | None => if decide (key = "Content-Type")
                              then Some "application/json"
                              else if decide (key = "X-App-ID")
                                   then Some (appId cfg) else None
                    end).
  { assert (Hd : ({["Content-Type" := "application/json";
                     "X-App-ID" := appId cfg]} : gmap string string) !! key
                 = if decide (key = "Content-Type") then Some "application/json"
                   else if decide (key = "X-App-ID") then Some (appId cfg)
                        else None).
    { repeat case_decide; subst;
        rewrite ?lookup_insert_eq, ?lookup_insert_ne, ?lookup_singleton_eq,
          ?lookup_singleton_ne, ?lookup_empty by done; done. }
    rewrite !lookup_union, Hd.
    destruct (H1 !! key), (H2 !! key); repeat case_decide; reflexivity. }
  destruct (nonempty (bearerToken cfg) && negb (default false (skipAuth opts))).
  - destruct (decide (key = "Authorization")) as [->|Hne].
    + by rewrite lookup_insert_eq.
    + by rewrite lookup_insert_ne, Hbase.
  - rewrite Hbase. destruct (decide (key = "Authorization")) as [->|Hne]; [|done].
    destruct (H1 !! "Authorization"); [done|].
    destruct (H2 !! "Authorization"); [done|]. done.
Qed.

Lemma new_HlmrApiError_defined N v d sc c r o :
  new_HlmrApiError N (or_else v (JStr d)) sc c r o
  = (msg ← to_string N (or_else v (JStr d));
     Normal (mkHlmrApiError msg sc c r o)).
Proof.
  unfold new_HlmrApiError, or_else.
  destruct v as [| |[]|n|s| |]; cbn [to_boolean]; try reflexivity.
  - by destruct (negb (n =? 0)%Z).
  - by destruct (negb (String.eqb s "")).
Qed.

(** X26. The error made from a JSend body. For a [fail] body whose
    [data] is an object, [fromJSendResponse] builds an error with code
    [VALIDATION_ERROR], the given status code and the body attached from
    [data.detail], or from "Validation failed" when that is missing or
    falsy. The message of the error is the string the constructor of
    [Error] makes of that value: a non-empty string as it is, a number
    as its decimal text (a [detail] of [42] gives the string, not the
    number), and for an object that hides [toString] the construction
    throws a [TypeError]. Every error returned for a [fail] body is a
    validation error exactly when the status code is in the 400 range.
    A [fail] body without [data] (or with [data: null]) makes the
    function throw a [TypeError] instead of returning an error. For an
    [error] body the message is made from [message], "Server error" by
    default, and the code is [code], or [SERVER_ERROR] by default, a
    code of [0] or [""] counting as missing. A body with any other
    status gives "Unknown API error" with code [UNKNOWN_ERROR]. *)
Theorem fromJSendResponse_classifies (Number_toString : Z -> string)
  (props : list (string * JsValue)) (sc : Z) :
  let body := JObj props in
  let from := fromJSendResponse Number_toString body sc in
  let made v c :=
    msg ← to_string Number_toString v;
    Normal (mkHlmrApiError msg sc c body None) in
  (jm_get "status" props = Some (JStr "fail") ->
   (forall dprops, jm_get "data" props = Some (JObj dprops) ->
      from = made (or_else (default JUndefined (jm_get "detail" dprops))
                           (JStr "Validation failed"))
                  (JStr "VALIDATION_ERROR") /\
      (to_boolean (default JUndefined (jm_get "detail" dprops)) = false ->
       from = Normal (mkHlmrApiError "Validation failed" sc
                        (JStr "VALIDATION_ERROR") body None)) /\
      (forall s, jm_get "detail" dprops = Some (JStr s) -> s <> "" ->
       from = Normal (mkHlmrApiError s sc (JStr "VALIDATION_ERROR") body None)) /\
      (forall n, jm_get "detail" dprops = Some (JNum n) -> n <> 0%Z ->
       from = Normal (mkHlmrApiError (Number_toString n) sc
                        (JStr "VALIDATION_ERROR") body None)) /\
      (forall o, jm_get "detail" dprops = Some (JObj o) ->
       jm_has "toString" o = true -> from = Abrupt TypeError)) /\
   (forall e, from = Normal e ->
      isValidationError e = (400 <=? sc)%Z && (sc <? 500)%Z) /\
   (jm_get "data" props = None \/ jm_get "data" props = Some JNull \/
    jm_get "data" props = Some JUndefined ->
    from = Abrupt TypeError)) /\
  (jm_get "status" props = Some (JStr "error") ->
   from = made (or_else (default JUndefined (jm_get "message" props))
                        (JStr "Server error"))
               (or_else (default JUndefined (jm_get "code" props))
                        (JStr "SERVER_ERROR"))) /\
  (forall s, jm_get "status" props = Some (JStr s) ->
             s <> "fail" -> s <> "error" ->
   from = Normal (mkHlmrApiError "Unknown API error" sc (JStr "UNKNOWN_ERROR")
                                 body None)).
Proof.
  cbn zeta. unfold fromJSendResponse. cbn [read mbind Completion_bind].
  split; [|split].
  - intros ->. cbn [default from_option id is_str String.eqb]. split; [|split].
    + intros dprops ->.
      cbn [default from_option id read mbind Completion_bind mret Completion_ret].
      rewrite new_HlmrApiError_defined. unfold or_else.
      split; [reflexivity|split; [|split; [|split]]].
      * by intros ->.
      * intros s -> Hs. cbn [default from_option id to_boolean].
        by rewrite (proj2 (String.eqb_neq s "") Hs).
      * intros n -> Hn. cbn [default from_option id to_boolean].
        by rewrite (proj2 (Z.eqb_neq n 0) Hn).
      * intros o -> Ho. cbn [default from_option id to_boolean to_string].
        by rewrite Ho.
    + intros e. unfold new_HlmrApiError.
      assert (Hmade : forall m : Completion string, (msg ← m;
                 mret (mkHlmrApiError msg sc (JStr "VALIDATION_ERROR")
                                      (JObj props) None)) = Normal e ->
               isValidationError e = (400 <=? sc)%Z && (sc <? 500)%Z).
      { intros [msg|?] H; [|done].
        cbn [mbind Completion_bind mret Completion_ret] in H.
        injection H as <-.
        unfold isValidationError. cbn [statusCode code is_str].
        change (String.eqb "VALIDATION_ERROR" "VALIDATION_ERROR") with true.
        by rewrite andb_true_r. }
      destruct (default JUndefined (jm_get "data" props)) as [| | | | | |dprops];
        cbn [read mbind Completion_bind]; try done.
      all: intros H; eapply Hmade; exact H.
    + intros [-> | [-> | ->]]; reflexivity.
  - intros ->. cbn [default from_option id].
    change (is_str "fail" (JStr "error")) with false.
    change (is_str "error" (JStr "error")) with true. cbn iota.
    apply new_HlmrApiError_defined.
  - intros s -> Hf He. cbn [default from_option id is_str].
    rewrite (proj2 (String.eqb_neq s "fail") Hf),
      (proj2 (String.eqb_neq s "error") He). reflexivity.
Qed.

(** X27. What [processResponse] makes of a response, once its body
    has been read. A response that is [ok] never throws: when the body
    is a JSend success carrying a [data] property the result holds that
    [data]; in every other case (a body that is not JSend, a JSend
    success without [data], and also a JSend [fail] or [error] body on a
    2xx response) the result holds the body itself. A response that is
    not [ok] always throws: for a body that is not JSend an
    [HlmrApiError] with code [HTTP_ERROR], the status code and the
    message [HTTP <status>: <statusText>]; for a JSend body what
    [fromJSendResponse] returns, or what it throws. *)
Theorem processResponse_decides (Number_toString : Z -> string)
  (status : Z) (statusText : string) (headers : gmap string string)
  (body : JsValue) :
  let run ok := processResponse Number_toString ok status statusText headers body in
  let respond d := Normal (mkHttpResponse status statusText headers d) in
  (forall props d,
      body = JObj props -> jm_get "status" props = Some (JStr "success") ->
      jm_get "data" props = Some d -> run true = respond d) /\
  ((forall props, body = JObj props ->
                  jm_get "status" props = Some (JStr "success") ->
                  jm_get "data" props = None) ->
   run true = respond body) /\
  (exists t, run false = Abrupt t) /\
  (isJSendResponse body = false ->
   run false
   = Abrupt (ApiError (mkHlmrApiError
               ("HTTP " +:+ Number_toString status +:+ ": " +:+ statusText)
               status (JStr "HTTP_ERROR") JUndefined None))) /\
  (isJSendResponse body = true ->
   run false
   = (e ← fromJSendResponse Number_toString body status; Abrupt (ApiError e))).
Proof.
  cbn zeta. unfold processResponse. split; [|split; [|split; [|split]]].
  - intros props d -> Hs Hd.
    unfold isJSendResponse, isJSendSuccess, has, jm_has.
    cbn [typeof is_null read negb andb String.eqb Ascii.eqb Bool.eqb mbind
         Completion_bind mret Completion_ret].
    rewrite Hs, Hd. reflexivity.
  - intros H. destruct body as [| | | | | |props]; try reflexivity.
    unfold isJSendResponse, isJSendSuccess, has, jm_has.
    cbn [typeof is_null read negb andb String.eqb Ascii.eqb Bool.eqb mbind
         Completion_bind mret Completion_ret].
    destruct (jm_get "status" props) as [[| | | |s| |]|] eqn:Es; try reflexivity.
    cbn [default from_option id typeof String.eqb Ascii.eqb Bool.eqb andb is_str].
    destruct (is_jsend_status (JStr s)); [|reflexivity].
    destruct (String.eqb s "success") eqn:E; [|reflexivity].
    apply String.eqb_eq in E as ->. by rewrite (H props eq_refl Es).
  - destruct (isJSendResponse body); cbn [negb]; [|by eexists].
    destruct (fromJSendResponse Number_toString body status); by eexists.
  - by intros ->.
  - by intros ->.
Qed.

(** X28. The configuration a client is built with. The base URL is
    that of the named environment ([production], [development],
    [staging]), that of a custom environment object, or the production
    URL when no environment is given. A name that is neither one of the
    three nor a property inherited from [Object.prototype] is refused
    with "Unknown environment", before the application id is looked at;
    an inherited name such as [toString] is not refused and leaves the
    base URL undefined, so that [buildUrl] throws later. An empty
    application id is refused. Otherwise the application id and the
    token are taken over as given, the timeout is the one given unless
    it is missing or zero, in which case it is 30000, custom headers
    default to none and debug to off. *)
Theorem buildConfig_resolves (options : HlmrClientOptions) :
  let resolved (u : option string) :=
    mkHlmrClientConfig
      u (opt_appId options) (opt_bearerToken options)
      (Some (match config options ≫= adv_timeout with
             | Some 0%Z | None => 30000%Z
             | Some t => t
             end))
      (Some (default ∅ (config options ≫= adv_customHeaders)))
      (Some (default false (config options ≫= adv_debug))) in
  let refused m := Abrupt (ApiError (configError m)) in
  (forall key,
      environment options = Some (Named key) -> ENVIRONMENTS key = Missing ->
      buildConfig options = refused ("Unknown environment: " +:+ key)) /\
  (forall key,
      environment options = Some (Named key) -> ENVIRONMENTS key <> Missing ->
      opt_appId options = "" ->
      buildConfig options = refused "appId is required and must be a string") /\
  (opt_appId options <> "" ->
   (environment options = None ->
    buildConfig options = Normal (resolved (Some "https://api.hlmr.io"))) /\
   (environment options = Some (Named "production") ->
    buildConfig options = Normal (resolved (Some "https://api.hlmr.io"))) /\
   (environment options = Some (Named "development") ->
    buildConfig options = Normal (resolved (Some "https://api.dev.hlmr.io"))) /\
   (environment options = Some (Named "staging") ->
    buildConfig options = Normal (resolved (Some "https://api.stg.hlmr.io"))) /\
   (forall env, environment options = Some (Custom env) ->
                buildConfig options = Normal (resolved (Some (url env)))) /\
   (forall key, environment options = Some (Named key) ->
                ENVIRONMENTS key = Inherited ->
                buildConfig options = Normal (resolved None) /\
                forall path version,
                  buildUrl (resolved None) path version = Abrupt TypeError)).
Proof.
  cbn zeta.
  assert (Ht : forall o : option Z,
             num_or o 30000 = match o with
                              | Some 0%Z | None => 30000%Z
                              | Some t => t
                              end).
  { intros [[| |]|]; reflexivity. }
  unfold buildConfig. split; [|split].
  - intros key -> ->. reflexivity.
  - intros key -> Hk ->. destruct (ENVIRONMENTS key); try done; reflexivity.
  - intros Ha. apply String.eqb_neq in Ha.
    split; [|split; [|split; [|split; [|split]]]].
    1-4: intros ->.
    5: intros env ->.
    6: intros key -> ->; split; [|reflexivity].
    all: cbn [mbind Completion_bind mret Completion_ret ENVIRONMENTS String.eqb
              Ascii.eqb Bool.eqb url production development staging];
      rewrite ?Ha, ?Ht; reflexivity.
Qed.

(** An environment named after a property of [Object.prototype]. *)
Example toString_is_no_unknown_environment :
  ENVIRONMENTS "toString" = Inherited /\
  buildConfig (mkHlmrClientOptions (Some (Named "toString")) "app" None None)
  = Normal (mkHlmrClientConfig None "app" None (Some 30000%Z) (Some ∅) (Some false)).
Proof. split; reflexivity. Qed.

End HttpSide.

(** * The two tokens of a client *)

Lemma handshake_token s :
  is_open s = false -> isConnecting s = false -> replays s = [] ->
  frames_sent (run_trace s [CallConnect; SocketOpen (length (sockets s))])
  = if truthy (bearerToken s) then [FAuth (default "" (bearerToken s))] else [].
Proof.
  intros Ho Hc Hr.
  destruct (connect_spec s Ho Hc) as (s1 & u & Ht1 & P).
  open_post P.
  assert (H1 : step s CallConnect
               = (s1, [WsNew (length (sockets s)) u;
                       SetTimeout (nextTimer s)
                                  (TConnection (length (promises s))) 10000]))
    by (apply step_plain; [exact Ht1|congruence]).
  assert (Hk : sockets s1 !! length (sockets s)
               = Some (mkSocket CONNECTING (length (promises s)) (nextTimer s)))
    by (rewrite cp_sockets0; apply snoc_lookup).
  unfold run_trace. cbn [run]. rewrite H1.
  destruct (truthy (bearerToken s)) eqn:Et.
  - destruct (open_with_token s1 (length (sockets s)) _ Hk)
      as (s2 & es2 & Ht2 & Hf & _ & _ & _ & _ & _ & _ & _ & _ & _ & _ & Hr2 & _);
      [done|done|by rewrite cp_bearerToken0|].
    rewrite (step_plain _ _ _ _ Ht2) by congruence.
    cbn [snd]. rewrite app_nil_r, frames_sent_app, Hf, cp_bearerToken0. reflexivity.
  - destruct (open_without_token s1 (length (sockets s)) _ Hk)
      as (s2 & Ht2 & _ & _ & _ & _ & _ & _ & _ & Hr2);
      [done|done|by rewrite cp_bearerToken0|].
    rewrite (step_plain _ _ _ _ Ht2) by congruence.
    cbn [snd]. by rewrite app_nil_r, frames_sent_app.
Qed.

Lemma run_trace_cons s ev evs :
  run_trace s (ev :: evs) = (step s ev).2 ++ run_trace (step s ev).1 evs.
Proof.
  unfold run_trace. cbn [run]. destruct (step s ev) as [s1 es1].
  cbn [fst snd]. by destruct (run s1 evs).
Qed.

(** X29. A client holds its token twice. [HlmrClient.setBearerToken]
    refuses an empty token and otherwise stores the token in the
    configuration of the HTTP client, so that later requests carry
    [Authorization: Bearer <token>] unless [skipAuth] is set, and
    [clearBearerToken] makes them carry no [Authorization] of the
    client's. The events module, however, copied the token when it was
    constructed: its handshake presents the token the HTTP client held at
    that time (or fails for lack of one), whatever the HTTP client has
    been given since; only [EventsModule.setBearerToken] changes it. *)
Theorem client_token_is_not_shared (http : HttpClient.HlmrClientConfig)
  (url token : string) (cfg : PartialConfig) (random : nat -> Z) :
  token <> "" ->
  let events := constructor url (HttpClient.bearerToken http) cfg random in
  let http' := HttpClient.setBearerToken token http in
  HlmrClient.setBearerToken token http = Errors.Normal http' /\
  HlmrClient.setBearerToken "" http
  = Errors.Abrupt (Errors.ApiError
      (Errors.configError "Bearer token must be a non-empty string")) /\
  HttpClient.buildHeaders http' HttpClient.no_options !! "Authorization"
  = Some ("Bearer " +:+ token) /\
  HttpClient.buildHeaders (HlmrClient.clearBearerToken http') HttpClient.no_options
    !! "Authorization"
  = default ∅ (HttpClient.customHeaders http) !! "Authorization" /\
  frames_sent (run_trace events [CallConnect; SocketOpen 0])
  = (if truthy (HttpClient.bearerToken http)
     then [FAuth (default "" (HttpClient.bearerToken http))] else []) /\
  frames_sent (run_trace events
                 [CallSetBearerToken (Some token); CallConnect; SocketOpen 0])
  = [FAuth token].
Proof.
  intros Ht events http'. apply String.eqb_neq in Ht.
  split; [unfold HlmrClient.setBearerToken; by rewrite Ht|].
  split; [reflexivity|]. split; [|split; [|split]].
  - unfold HttpClient.buildHeaders, http', HttpClient.setBearerToken.
    cbn [HttpClient.bearerToken HttpClient.nonempty HttpClient.skipAuth
         HttpClient.no_options default from_option id negb andb].
    rewrite Ht. cbn [negb andb]. apply lookup_insert_eq.
  - unfold HttpClient.buildHeaders, http', HlmrClient.clearBearerToken,
      HttpClient.clearBearerToken, HttpClient.setBearerToken.
    cbn [HttpClient.bearerToken HttpClient.nonempty HttpClient.skipAuth
         HttpClient.headers HttpClient.customHeaders HttpClient.appId
         HttpClient.no_options default from_option id negb andb].
    rewrite !lookup_union, lookup_empty, lookup_insert_ne, lookup_singleton_ne by done.
    by destruct (default ∅ (HttpClient.customHeaders http) !! "Authorization").
  - pose proof (handshake_token events eq_refl eq_refl eq_refl) as Hh.
    change (length (sockets events)) with 0 in Hh. rewrite Hh.
    change (bearerToken events)
      with (if truthy (HttpClient.bearerToken http)
            then HttpClient.bearerToken http else None).
    destruct (truthy (HttpClient.bearerToken http)) eqn:E; [by rewrite E|done].
  - rewrite run_trace_cons.
    assert (H0 : step events (CallSetBearerToken (Some token))
                 = (set_bearerToken (Some token) events, []))
      by (by apply step_plain).
    rewrite H0. cbn [fst snd app].
    pose proof (handshake_token (set_bearerToken (Some token) events)
                  eq_refl eq_refl eq_refl) as Hh.
    change (length (sockets (set_bearerToken (Some token) events))) with 0 in Hh.
    rewrite Hh. proj_simpl. cbn [truthy default from_option id]. by rewrite Ht.
Qed.

Lemma client_token_is_not_shared_witness :
  let http := HttpClient.mkHlmrClientConfig (Some "https://api.example.com") "app"
                (Some "old") None None None in
  let events := constructor "https://api.example.com" (Some "old") no_overrides
                            (fun n => Z.of_nat n) in
  let http' := HttpClient.setBearerToken "new" http in
  HlmrClient.setBearerToken "new" http = Errors.Normal http' /\
  HlmrClient.setBearerToken "" http
  = Errors.Abrupt (Errors.ApiError
      (Errors.configError "Bearer token must be a non-empty string")) /\
  HttpClient.buildHeaders http' HttpClient.no_options !! "Authorization"
  = Some "Bearer new" /\
  HttpClient.buildHeaders (HlmrClient.clearBearerToken http') HttpClient.no_options
    !! "Authorization"
  = (∅ : gmap string string) !! "Authorization" /\
  frames_sent (run_trace events [CallConnect; SocketOpen 0]) = [FAuth "old"] /\
  frames_sent (run_trace events
                 [CallSetBearerToken (Some "new"); CallConnect; SocketOpen 0])
  = [FAuth "new"].
Proof.
  apply (client_token_is_not_shared
           (HttpClient.mkHlmrClientConfig (Some "https://api.example.com") "app"
              (Some "old") None None None)
           "https://api.example.com" "new" no_overrides (fun n => Z.of_nat n)).
  discriminate.
Defined.

(** * The table after a replay *)

Lemma subscribe_ids_app es1 es2 :
  subscribe_ids (es1 ++ es2) = subscribe_ids es1 ++ subscribe_ids es2.
Proof.
  induction es1 as [|[|? []| | | | | | |] es1 IH]; cbn; by rewrite ?IH.
Qed.

Lemma subscribe_ids_none es : subscribe_requests es = [] -> subscribe_ids es = [].
Proof.
  induction es as [|[|? []| | | | | | |] es IH]; cbn; auto; discriminate.
Qed.

Lemma sub_data_eta sub : mkSubData (domain sub) (resource sub) (options sub) = sub.
Proof. by destruct sub. Qed.

Lemma replay_settles k id cur rest s es o :
  replaying_entry k id cur rest s es ->
  exists s1 es1 p st h,
    last (sub_timers es) = Some (h, id) /\
    task (handle match o with
                 | Confirmed d r f =>
                     SocketMessage k (Some (MSubscriptionConfirmed id d r f))
                 | TimedOut => TimerFired h
                 end) s = (s1, es1) /\
    ws s1 = Some k /\ socket_state s1 k = Some OPEN /\
    replays s1 = [mkReplay p rest] /\
    promises s1 !! p = Some st /\ settled st = true /\
    sub_timers es1 = [] /\ subscribe_ids es1 = [] /\
    subscriptions s1 = match o with
                       | Confirmed _ _ _ => jm_set id cur (subscriptions s)
                       | TimedOut => subscriptions s
                       end.
Proof.
  intros [Hws Hk Hids (p & h & Hr & Hl & Ht & Hg & Hp)].
  destruct o as [d r f|].
  - destruct (confirmation_settles s k id d r f _ Hk Hg Hp)
      as (s1 & es1 & Htask & Hc & Hr1 & Hp1 & _ & Hq1 & Hq2).
    apply core_eq in Hc
      as (? & Hws1 & ? & ? & ? & ? & ? & Hsub & ? & ? & ? & ? & ? & ? & Hs1 & ?).
    proj_simpl in Hws1. proj_simpl in Hs1. proj_simpl in Hsub.
    eexists s1, es1, p, _, h. split; [done|]. split; [exact Htask|].
    split; [congruence|]. split; [by rewrite (socket_state_same s)|].
    split; [congruence|]. split; [exact Hp1|]. split; [done|].
    split; [done|]. split; [by apply subscribe_ids_none|]. exact Hsub.
  - destruct (timeout_settles s h id p _ Ht Hg Hp)
      as (s1 & Htask & Hc & Hr1 & Hp1 & _).
    apply core_eq in Hc
      as (? & Hws1 & ? & ? & ? & ? & ? & Hsub & ? & ? & ? & ? & ? & ? & Hs1 & ?).
    eexists s1, [], p, _, h. split; [done|]. split; [exact Htask|].
    split; [congruence|]. split; [by rewrite (socket_state_same s)|].
    split; [congruence|]. split; [exact Hp1|]. done.
Qed.

Lemma replay_next k id cur i sub rest s es o :
  replaying_entry k id cur ((i, sub) :: rest) s es ->
  exists s' es' id',
    answer k (s, es) o = (s', es') /\
    replaying_entry k id' sub rest s' es' /\
    subscriptions s' = match o with
                       | Confirmed _ _ _ => jm_set id cur (subscriptions s)
                       | TimedOut => subscriptions s
                       end.
Proof.
  intros Hrep.
  destruct (replay_settles k id cur _ s es o Hrep)
    as (s1 & es1 & p & st & h & Hl & Htask & Hws1 & Hk1 & Hr1 & Hp1 & Hst & Hq1
        & Hq2 & Hsub).
  unfold answer. cbn [fst snd]. rewrite Hl.
  destruct (drain_resume s1 k p i sub rest st Hws1 Hk1 Hr1 Hp1 Hst)
    as (s2 & Hd & Hc & Hr2 & Htm2 & Hpe2 & Hpr2).
  apply core_eq in Hc
    as (? & Hws2 & ? & ? & ? & ? & ? & Hsub2 & ? & ? & ? & ? & ? & ? & Hs2 & ?).
  assert (Hstep : forall ev, task (handle ev) s = (s1, es1) ->
            step s ev = (s2, es1 ++ [WsSend k (FSubscribe (next_id s1) (domain sub) (resource sub)
                        (frame_filters (options sub))
                        (frame_include_data (options sub)));
            SetTimeout (nextTimer s1)
                       (TSubscription (next_id s1) (length (promises s1))) 10000])).
  { intros ev Hev. unfold step. by rewrite Hev, Hd. }
  eexists _, _, (next_id s1). split; [destruct o; by apply Hstep|].
  split; [|congruence].
  split; [congruence|by rewrite (socket_state_same s1)| |].
  - by rewrite subscribe_ids_app, Hq2.
  - eexists _, _. split; [exact Hr2|].
    split; [rewrite sub_timers_app, Hq1; reflexivity|].
    rewrite Htm2, Hpe2, Hpr2, sub_data_eta. split; [apply lookup_insert_eq|].
    split; [apply jm_get_set_eq|apply snoc_lookup].
Qed.

Lemma replay_last k id cur s es o :
  replaying_entry k id cur [] s es ->
  exists s' es',
    answer k (s, es) o = (s', es') /\
    subscribe_ids es' = [] /\ sub_timers es' = [] /\
    subscriptions s' = match o with
                       | Confirmed _ _ _ => jm_set id cur (subscriptions s)
                       | TimedOut => subscriptions s
                       end.
Proof.
  intros Hrep.
  destruct (replay_settles k id cur _ s es o Hrep)
    as (s1 & es1 & p & st & h & Hl & Htask & Hws1 & Hk1 & Hr1 & Hp1 & Hst & Hq1
        & Hq2 & Hsub).
  unfold answer. cbn [fst snd]. rewrite Hl.
  destruct (drain_finish s1 p st Hr1 Hp1 Hst) as (s2 & Hd & Hc & Hr2 & _).
  apply core_eq in Hc as (_ & _ & _ & _ & _ & _ & _ & Hsub2 & _).
  assert (Hstep : forall ev, task (handle ev) s = (s1, es1) ->
            step s ev = (s2, es1)).
  { intros ev Hev. unfold step. by rewrite Hev, Hd, app_nil_r. }
  eexists _, _. split; [destruct o; by apply Hstep|].
  split; [done|]. split; [done|]. congruence.
Qed.

Lemma replay_rebuilds k os : forall id cur rest s es,
  replaying_entry k id cur rest s es -> length os = S (length rest) ->
  exists s' es' last',
    replay_run k (s, es) os = (s', es', last') /\
    length (subscribe_ids es') = length rest /\
    subscriptions s'
    = rebuilt (id :: subscribe_ids es') (cur :: map snd rest) os (subscriptions s).
Proof.
  induction os as [|o os IH]; intros id cur rest s es Hrep Hlen; [done|].
  cbn [replay_run]. destruct rest as [|[i sub] rest].
  - destruct (replay_last k id cur s es o Hrep) as (s1 & es1 & -> & Hq1 & Hq2 & Hsub).
    destruct os; [|done]. cbn [replay_run fst snd].
    eexists _, _, _. split; [reflexivity|].
    rewrite app_nil_r, Hq1. split; [done|]. cbn [rebuilt map]. by destruct o.
  - destruct (replay_next k id cur i sub rest s es o Hrep)
      as (s1 & es1 & id' & -> & Hrep1 & Hsub).
    destruct (IH id' sub rest s1 es1 Hrep1) as (s' & es' & last' & -> & Hl' & Hs');
      [cbn in Hlen; lia|].
    eexists _, _, _. split; [reflexivity|]. cbn [snd].
    rewrite subscribe_ids_app, (re_ids _ _ _ _ _ _ Hrep1). cbn [app length map snd].
    split; [by rewrite Hl'|].
    rewrite Hs', Hsub. cbn [rebuilt]. by destruct o.
Qed.

Lemma subscribe_ids_emit ls event args :
  subscribe_ids (emit_trace ls event args) = [].
Proof. apply subscribe_ids_none, subscribe_requests_emit. Qed.

Ltac ids_simpl :=
  repeat (first
    [ progress cbn [subscribe_ids app]
    | rewrite subscribe_ids_app | rewrite subscribe_ids_emit ]).

Lemma connected_replays_first s k u m ss i sub rest :
  ws s = Some k -> socket_state s k = Some OPEN ->
  0 < reconnectAttempts s -> replays s = [] ->
  subscriptions s = (i, sub) :: rest ->
  exists s' es id,
    step s (SocketMessage k (Some (MConnected u m ss))) = (s', es) /\
    subscriptions s' = [] /\
    replaying_entry k id sub rest s' es.
Proof.
  intros Hws Hk Ha Hr Hsubs. apply Nat.ltb_lt in Ha.
  assert (Ht : exists s1 es1 id p h,
      task (handle (SocketMessage k (Some (MConnected u m ss)))) s = (s1, es1) /\
      subscriptions s1 = [] /\
      ws s1 = Some k /\ sockets s1 = sockets s /\
      subscribe_ids es1 = [id] /\
      replays s1 = [mkReplay p rest] /\
      last (sub_timers es1) = Some (h, id) /\
      timers s1 !! h = Some (TSubscription id p) /\
      jm_get id (pendingSubscriptions s1) = Some (mkPending p sub) /\
      promises s1 !! p = Some Pending).
  { unfold task, handle, onmessage, _handleMessage, _startPingInterval,
      setInterval, resolve, _resubscribeAll.
    repeat (first [mstep | use_hyps | open_call k | case_inner]).
    all: apply core_eq in sp_core0;
      destruct sp_core0 as (? & ? & ? & ? & ? & ? & ? & ? & ? & ? & ? & ? & ? & ? & ? & ?).
    all: repeat match goal with
             | H : _ = _ |- _ => progress proj_simpl in H
             end.
    all: eexists _, _, _, _, _; (split; [reflexivity|]); proj_simpl; sub_simpl;
      ids_simpl.
    all: do 3 (split; [first [done|congruence]|]).
    all: split; [reflexivity|].
    all: split; [by rewrite sp_replays0, Hr|].
    all: split; [reflexivity|].
    all: rewrite sp_timers0, sp_pending0, sp_promises0, sub_data_eta.
    all: split; [apply lookup_insert_eq|].
    all: split; [apply jm_get_set_eq|].
    all: apply snoc_lookup. }
  destruct Ht as (s1 & es1 & id & p & h & Ht & Hs1 & Hws1 & Hsk1 & Hids
                  & Hr1 & Hl1 & Ht1 & Hp1 & Hpr1).
  destruct (drain_waiting s1 p rest Hr1 Hpr1)
    as (s2 & Hd & Hc & Hr2 & Hpr2 & Htm2 & Hpe2).
  apply core_eq in Hc as (? & ? & ? & ? & ? & ? & ? & ? & ? & ? & ? & ? & ? & ? & ? & ?).
  unfold step. rewrite Ht, Hd, app_nil_r. eexists _, _, id. split; [reflexivity|].
  split; [congruence|].
  split; [congruence| |done|].
  - rewrite (socket_state_same s1) by done. by rewrite (socket_state_same s).
  - exists p, h. rewrite Hr2, Hpr2, Htm2, Hpe2. done.
Qed.

(** X30. What a replay leaves in the durable table. After a reconnect
    (a [connected] frame with the attempt counter above zero, on an open
    socket, no replay in progress), let every re-request be answered in
    turn, by a confirmation or by its timeout. Then one subscribe frame
    has been sent per recorded subscription, and the table holds exactly
    the entries whose re-request was confirmed, each with the domain,
    resource and options it had before, filed under the identifier of
    its re-request, not under its old one; an entry whose re-request
    timed out is gone. *)
Theorem replay_rebuilds_table (s : State) (k : nat)
  (u m : string) (ss : list string) (os : list Outcome) :
  ws s = Some k -> socket_state s k = Some OPEN ->
  0 < reconnectAttempts s -> replays s = [] ->
  length os = length (subscriptions s) ->
  let st0 := step s (SocketMessage k (Some (MConnected u m ss))) in
  let ids := subscribe_ids (st0.2 ++ (replay_run k st0 os).1.2) in
  length ids = length (subscriptions s) /\
  subscriptions (replay_run k st0 os).1.1
  = rebuilt ids (map snd (subscriptions s)) os [].
Proof.
  intros Hws Hk Ha Hr Hlen st0 ids. subst ids st0.
  destruct (subscriptions s) as [|[i sub] rest] eqn:Hsubs.
  - destruct os; [|done].
    destruct (connected_starts_replay s k u m ss Hws Hk Ha Hr)
      as (s' & es & -> & Hs' & _ & H). rewrite Hsubs in H.
    destruct H as (_ & Hq & _). cbn [replay_run fst snd]. rewrite app_nil_r.
    by rewrite (subscribe_ids_none _ Hq).
  - destruct (connected_replays_first s k u m ss i sub rest Hws Hk Ha Hr Hsubs)
      as (s' & es & id & -> & Hs' & Hrep).
    destruct (replay_rebuilds k os id sub rest s' es Hrep)
      as (s2 & es2 & last2 & -> & Hl2 & Hs2); [by cbn in Hlen|].
    cbn [fst snd]. rewrite subscribe_ids_app, (re_ids _ _ _ _ _ _ Hrep).
    cbn [app length map snd]. split; [by rewrite Hl2|].
    by rewrite Hs2, Hs'.
Qed.

Lemma replay_rebuilds_table_witness :
  let s := demo_reconnecting in
  let os := [Confirmed "chat" "message" no_filters; TimedOut] in
  let st0 := step s (SocketMessage 1 (Some demo_welcome)) in
  let ids := subscribe_ids (st0.2 ++ (replay_run 1 st0 os).1.2) in
  length ids = length (subscriptions s) /\
  subscriptions (replay_run 1 st0 os).1.1
  = rebuilt ids (map snd (subscriptions s)) os [].
Proof.
  apply (replay_rebuilds_table demo_reconnecting 1 "u1" "welcome" []
           [Confirmed "chat" "message" no_filters; TimedOut]);
    try reflexivity.
  vm_compute. lia.
Defined.
